(** * The scaffolder workflow runner (NunjucksWorkflowRunner.ts)

    A shallow embedding of [NunjucksWorkflowRunner.render] and
    [NunjucksWorkflowRunner.execute], and the properties of the template
    substitution pass and of the step loop.

    JavaScript values are a tagged union [Value]; numbers are integers and
    strings are sequences of code units below 256.  Everything the runner
    calls but does not define (the nunjucks parser, the sandboxed renderer,
    [JSON.parse], the helpers of [./helper], the schema validator, the action
    registry, [path.join]) is a field of a record that the development is
    parametric in.

    Two more parts embed the paging of the Bitbucket client
    ([BitbucketClient], [pageIterator]) and the version finders of the
    [versions:bump] command ([createStrictVersionFinder],
    [createVersionFinder]). *)

From Stdlib Require Import ZArith Ascii String.
From stdpp Require Import base option list strings pretty gmap.

Local Open Scope string_scope.
Local Open Scope list_scope.

(** ** JavaScript values *)

Local Unset Elimination Schemes.
Inductive Value : Type :=
| VUndefined
| VNull
| VBool (b : bool)
| VNumber (n : Z)
| VString (s : string)
| VArray (xs : list Value)
| VObject (kvs : list (string * Value)).

Local Set Elimination Schemes.

(** In a [VArray] an element [VUndefined] stands for an index that holds
    nothing (a hole, or an explicit [undefined]); a [VObject] lists its own
    properties in insertion order. *)

Section ValueInduction.
Variable P : Value -> Prop.
Hypothesis Hundef : P VUndefined.
Hypothesis Hnull : P VNull.
Hypothesis Hbool : forall b, P (VBool b).
Hypothesis Hnum : forall n, P (VNumber n).
Hypothesis Hstr : forall s, P (VString s).
Hypothesis Harr : forall xs, Forall P xs -> P (VArray xs).
Hypothesis Hobj : forall kvs, Forall (fun kv => P (snd kv)) kvs -> P (VObject kvs).

Fixpoint Value_tree_ind (v : Value) : P v :=
  match v with
  | VUndefined => Hundef
  | VNull => Hnull
  | VBool b => Hbool b
  | VNumber n => Hnum n
  | VString s => Hstr s
  | VArray xs =>
      Harr xs ((fix go (l : list Value) : Forall P l :=
                  match l with
                  | [] => Forall_nil_2 P
                  | x :: l' => Forall_cons_2 P x l' (Value_tree_ind x) (go l')
                  end) xs)
  | VObject kvs =>
      Hobj kvs ((fix go (l : list (string * Value)) : Forall (fun kv => P (snd kv)) l :=
                   match l with
                   | [] => Forall_nil_2 _
                   | kv :: l' => Forall_cons_2 _ kv l' (Value_tree_ind (snd kv)) (go l')
                   end) kvs)
  end.
End ValueInduction.

Definition is_undefined (v : Value) : bool :=
  match v with VUndefined => true | _ => false end.

(** [ToBoolean]: the test behind [if (x)], [x && y] and [!x]. *)
Definition js_truthy (v : Value) : bool :=
  match v with
  | VUndefined | VNull => false
  | VBool b => b
  | VNumber n => negb (n =? 0)%Z
  | VString s => negb (bool_decide (s = ""))
  | VArray _ | VObject _ => true
  end.

(** [x ?? d] *)
Definition nullish_or (x d : Value) : Value :=
  match x with
  | VUndefined | VNull => d
  | _ => x
  end.

(** A JSON tree, as [JSON.stringify] writes it back unchanged: no
    [undefined] anywhere, and no object with two properties of one name. *)
Fixpoint is_json (v : Value) : Prop :=
  match v with
  | VUndefined => False
  | VArray xs => (fix all (l : list Value) : Prop :=
                    match l with [] => True | x :: l' => is_json x /\ all l' end) xs
  | VObject kvs =>
      NoDup (map fst kvs) /\
      (fix all (l : list (string * Value)) : Prop :=
         match l with [] => True | kv :: l' => is_json (snd kv) /\ all l' end) kvs
  | _ => True
  end.

(** ** Thrown values and completions *)

Record Exn := MkExn { exn_name : string; exn_message : string }.

Definition InputError (message : string) : Exn := MkExn "InputError" message.
Definition SyntaxError (message : string) : Exn := MkExn "SyntaxError" message.

Inductive Completion (A : Type) : Type :=
| Normal (a : A)
| Throw (e : Exn).
Arguments Normal {A} a.
Arguments Throw {A} e.

Definition cbind {A B} (c : Completion A) (k : A -> Completion B) : Completion B :=
  match c with
  | Normal a => k a
  | Throw e => Throw e
  end.

(** ** JSON.parse(JSON.stringify(input), reviver) *)

(** What [JSON.stringify] followed by [JSON.parse] makes of a value other
    than [undefined]: a property holding [undefined] is not written, an array
    element holding [undefined] is written as [null]. *)
Fixpoint json_copy (v : Value) : Value :=
  match v with
  | VArray xs =>
      VArray (map (fun x => if is_undefined x then VNull else json_copy x) xs)
  | VObject kvs =>
      VObject ((fix props (l : list (string * Value)) : list (string * Value) :=
                  match l with
                  | [] => []
                  | (k, x) :: l' =>
                      if is_undefined x then props l' else (k, json_copy x) :: props l'
                  end) kvs)
  | _ => v
  end.

(** The walk of [JSON.parse] with a reviver (InternalizeJSONProperty): the
    children first, each replaced by what the reviver returns for it, a
    property for which it returns [undefined] deleted, then the holder
    itself.  What the reviver returns is stored and not walked again. *)
Section Internalize.
Variable reviver : Value -> Value.

Fixpoint internalize (v : Value) : Value :=
  match v with
  | VArray xs => reviver (VArray (map internalize xs))
  | VObject kvs =>
      reviver
        (VObject ((fix props (l : list (string * Value)) : list (string * Value) :=
                     match l with
                     | [] => []
                     | (k, x) :: l' =>
                         let x' := internalize x in
                         if is_undefined x' then props l' else (k, x') :: props l'
                     end) kvs))
  | _ => reviver v
  end.
End Internalize.

(** The properties of an object that the walk keeps. *)
Definition kept_props (f : Value -> Value) (kvs : list (string * Value))
  : list (string * Value) :=
  omap (fun kv => let x' := f (snd kv) in
                  if is_undefined x' then None else Some (fst kv, x')) kvs.

(** ** value.replace(/\${{(.+)}}/g, '${{ ( $1 ) | dump }}') *)

Definition is_line_terminator (c : ascii) : bool :=
  bool_decide (c = "010"%char) || bool_decide (c = "013"%char).

Fixpoint starts_with (p s : string) : bool :=
  match p, s with
  | "", _ => true
  | String a p', String b s' => bool_decide (a = b) && starts_with p' s'
  | String _ _, "" => false
  end.

Fixpoint str_drop (n : nat) (s : string) : string :=
  match n, s with
  | O, _ => s
  | S n', String _ s' => str_drop n' s'
  | S _, "" => ""
  end.

Fixpoint str_take (n : nat) (s : string) : string :=
  match n, s with
  | S n', String c s' => String c (str_take n' s')
  | _, _ => ""
  end.

(** The longest prefix that [.] can run over. *)
Fixpoint line_prefix (s : string) : string :=
  match s with
  | "" => ""
  | String c s' => if is_line_terminator c then "" else String c (line_prefix s')
  end.

(** The largest [k >= 1] (counted from [idx]) at which [}}] follows: where
    the greedy [(.+)] ends after backtracking. *)
Fixpoint last_close (run : string) (idx : nat) : option nat :=
  match run with
  | "" => None
  | String _ run' =>
      match last_close run' (S idx) with
      | Some k => Some k
      | None => if bool_decide (1 <= idx) && starts_with "}}" run then Some idx else None
      end
  end.

(** The capture group of a match of the pattern that starts at the head of
    [s], if there is one. *)
Definition match_here (s : string) : option string :=
  if starts_with "${{" s then
    let run := line_prefix (str_drop 3 s) in
    match last_close run 0 with
    | Some k => Some (str_take k run)
    | None => None
    end
  else None.

Fixpoint replace_from (skip : nat) (s : string) : string :=
  match s with
  | "" => ""
  | String c s' =>
      match skip with
      | S n => replace_from n s'
      | O =>
          match match_here s with
          | Some g => "${{ ( " +:+ g +:+ " ) | dump }}" +:+ replace_from (String.length g + 4) s'
          | None => String c (replace_from 0 s')
          end
      end
  end.

Definition wrap_dump (value : string) : string := replace_from 0 value.

(** ** The data of a task *)

(** [context.steps[id] = { output }] *)
Record StepEntry := { output : Value }.

Record TemplateContext := {
  ctx_parameters : Value;
  ctx_steps : gmap string StepEntry;
  ctx_secrets : option (gmap string string);   (* [secrets?] *)
  ctx_user : Value;                            (* [user?], [undefined] when absent *)
}.

(** An optional field of a step holds [VUndefined] when it is absent. *)
Record TaskStep := {
  step_id : string;
  step_name : string;
  step_action : string;
  step_input : Value;
  step_if : Value;
}.

Record TaskSpec := {
  spec_apiVersion : string;
  spec_parameters : Value;
  spec_steps : list TaskStep;
  spec_output : Value;
  spec_user : Value;
  spec_templateInfo : Value;
}.

Record TaskContext := {
  task_spec : TaskSpec;
  task_secrets : option (gmap string string);
  task_isDryRun : option bool;
  task_workspaceName : string;     (* what [getWorkspaceName()] resolves to *)
}.

Record WorkflowResponse := { response_output : Value }.

Definition isValidTaskSpec (taskSpec : TaskSpec) : bool :=
  bool_decide (spec_apiVersion taskSpec = "scaffolder.backstage.io/v1beta3").

(** ** What the runner does to the outside *)

(** What the runner chooses of the argument of a handler; the logger, the
    log stream and the two callbacks are in [HandlerRun] below. *)
Record HandlerArgs := {
  h_input : Value;
  h_secrets : gmap string string;
  h_workspacePath : string;
  h_templateInfo : Value;
}.

Inductive RenderSite :=
| SiteIf (stepId : string)
| SiteInput (stepId : string)
| SiteOutput.

Inductive Event :=
| EvEmitLog (message : string) (stepId status : option string)
| EvCounterInc (metric : string) (labels : list (string * string))
| EvObserve (metric : string) (labels : list (string * string))
| EvEnsureDir (path : string)
| EvRemove (path : string)
| EvMkdtemp (path : string)
| EvLoggerError (message : string)
| EvRender (site : RenderSite) (input : Value) (context : TemplateContext)
| EvRegistryGet (actionId : string)
| EvHandler (step : TaskStep) (args : HandlerArgs).

(** What a trace shows of each kind of call. *)
Definition renders (t : list Event) : list (RenderSite * TemplateContext) :=
  omap (fun ev => match ev with EvRender site _ c => Some (site, c) | _ => None end) t.

Definition registry_gets (t : list Event) : list string :=
  omap (fun ev => match ev with EvRegistryGet a => Some a | _ => None end) t.

Definition handler_calls (t : list Event) : list (TaskStep * HandlerArgs) :=
  omap (fun ev => match ev with EvHandler step args => Some (step, args) | _ => None end) t.

Definition handler_steps (t : list Event) : list TaskStep := map fst (handler_calls t).

(** The directories made by [fs.mkdtemp], made sure of by [fs.ensureDir]
    and removed by [fs.remove]. *)
Definition created_dirs (t : list Event) : list string :=
  omap (fun ev => match ev with EvMkdtemp p => Some p | _ => None end) t.

Definition ensured_dirs (t : list Event) : list string :=
  omap (fun ev => match ev with EvEnsureDir p => Some p | _ => None end) t.

Definition removed_paths (t : list Event) : list string :=
  omap (fun ev => match ev with EvRemove p => Some p | _ => None end) t.

(** The log lines that carry a step and a status. *)
Definition step_statuses (t : list Event) : list (string * string) :=
  omap (fun ev => match ev with
                  | EvEmitLog _ (Some stepId) (Some status) => Some (stepId, status)
                  | _ => None
                  end) t.

(** The names of the counters incremented. *)
Definition counter_incs (t : list Event) : list string :=
  omap (fun ev => match ev with EvCounterInc metric _ => Some metric | _ => None end) t.

Definition count_incs (metric : string) (t : list Event) : nat :=
  length (filter (fun m => m = metric) (counter_incs t)).

(** The number of log lines that report a status. *)
Definition count_status (status : string) (t : list Event) : nat :=
  length (filter (fun x => snd x = status) (step_statuses t)).

(** ** The log stream of a step ([createStepLogger]) *)

(** The code units below 256 that [String.prototype.trim] strips: white
    space (tab, vertical tab, form feed, space, no-break space) and line
    terminators (line feed, carriage return). *)
Definition is_white_space (c : ascii) : bool :=
  let n := nat_of_ascii c in
  bool_decide (n = 9) || bool_decide (n = 10) || bool_decide (n = 11) || bool_decide (n = 12)
  || bool_decide (n = 13) || bool_decide (n = 32) || bool_decide (n = 160).

Fixpoint trim_start (s : string) : string :=
  match s with
  | "" => ""
  | String c s' => if is_white_space c then trim_start s' else s
  end.

Fixpoint trim_end (s : string) : string :=
  match s with
  | "" => ""
  | String c s' =>
      let rest := trim_end s' in
      if is_white_space c && bool_decide (rest = "") then "" else String c rest
  end.

Definition trim (s : string) : string := trim_end (trim_start s).

(** The listener on ['data'] of the stream handed to the handler as
    [logStream], for a chunk that [data.toString()] gives as [data]. *)
Definition stream_on_data (step : TaskStep) (data : string) : list Event :=
  let message := trim data in
  if bool_decide (1 < String.length message)
  then [EvEmitLog message (Some (step_id step)) None]
  else [].

(** ** Paths into a value *)

(** The first property of a name. *)
Fixpoint assoc (key : string) (kvs : list (string * Value)) : option Value :=
  match kvs with
  | [] => None
  | (k, x) :: kvs' => if bool_decide (k = key) then Some x else assoc key kvs'
  end.

(** [v.key], for a [v] that has the property or is not an object. *)
Definition member (key : string) (v : Value) : Value :=
  match v with
  | VObject kvs => default VUndefined (assoc key kvs)
  | _ => VUndefined
  end.

Inductive PathStep :=
| Key (k : string)
| Index (i : nat).

(** What sits at a path, [None] when nothing does: the object has no such
    property, the array holds nothing at the index, or the value is
    [undefined]. *)
Fixpoint tree_lookup (p : list PathStep) (v : Value) : option Value :=
  match p with
  | [] => if is_undefined v then None else Some v
  | Key k :: p' =>
      match v with
      | VObject kvs =>
          match assoc k kvs with
          | Some x => tree_lookup p' x
          | None => None
          end
      | _ => None
      end
  | Index i :: p' =>
      match v with
      | VArray xs =>
          match xs !! i with
          | Some x => tree_lookup p' x
          | None => None
          end
      | _ => None
      end
  end.

(** ** The nunjucks syntax tree, as far as [isSingleTemplateString] looks *)

Local Unset Elimination Schemes.
Inductive Node : Type :=
| MkNode (isTemplateData : bool) (children : option (list Node)).
Local Set Elimination Schemes.

Definition node_isTemplateData (n : Node) : bool :=
  match n with MkNode b _ => b end.
Definition node_children (n : Node) : option (list Node) :=
  match n with MkNode _ c => c end.

Section Effects.
Context {World : Type}.

(** ** Effects of [execute]

    A computation starts in a world, ends normally or by a throw, and leaves
    a world and the events it caused, in order.  Only handlers change the
    world. *)

Definition M (A : Type) : Type := World -> Completion A * World * list Event.

Definition ret {A} (a : A) : M A := fun w => (Normal a, w, []).

Definition bind {A B} (m : M A) (k : A -> M B) : M B :=
  fun w =>
    match m w with
    | (Normal a, w1, t1) => let '(r, w2, t2) := k a w1 in (r, w2, t1 ++ t2)
    | (Throw e, w1, t1) => (Throw e, w1, t1)
    end.

Definition throw {A} (e : Exn) : M A := fun w => (Throw e, w, []).
Definition emit (ev : Event) : M unit := fun w => (Normal tt, w, [ev]).
Definition emit_all (evs : list Event) : M unit := fun w => (Normal tt, w, evs).
Definition lift {A} (c : Completion A) : M A := fun w => (c, w, []).

(** [try { m } catch (err) { h err }] *)
Definition try_catch {A} (m : M A) (h : Exn -> M A) : M A :=
  fun w =>
    match m w with
    | (Normal a, w1, t1) => (Normal a, w1, t1)
    | (Throw e, w1, t1) => let '(r, w2, t2) := h e w1 in (r, w2, t1 ++ t2)
    end.

(** [try { m } finally { f }] *)
Definition try_finally {A} (m : M A) (f : M unit) : M A :=
  fun w =>
    let '(r, w1, t1) := m w in
    match f w1 with
    | (Normal _, w2, t2) => (r, w2, t1 ++ t2)
    | (Throw e, w2, t2) => (Throw e, w2, t1 ++ t2)
    end.

End Effects.

Declare Scope run_scope.
Delimit Scope run_scope with run.
Notation "x <- m ;; k" := (bind m (fun x => k))
  (at level 100, m at next level, right associativity) : run_scope.
Notation "m ;; k" := (bind m (fun _ => k))
  (at level 100, right associativity) : run_scope.

Section Runner.
Context {World Schema : Type}.

(** *** Actions *)

Record ActionSchema := {
  schema_input : option Schema;
  schema_output : option Schema;
}.

(** What one run of a handler does through its callbacks: the calls of
    [output(name, value)] in order, the suffixes [fs.mkdtemp] chose for
    the calls of [createTemporaryDirectory], and whether it threw. *)
Record HandlerRun := {
  run_outputs : list (string * Value);
  run_tmpSuffixes : list string;
  run_thrown : option Exn;
}.

Record TemplateAction := {
  action_id : string;
  action_supportsDryRun : option bool;
  action_schema : option ActionSchema;
  action_handler : HandlerArgs -> World -> HandlerRun * World;
}.

Record ValidatorResult := {
  valid : bool;
  errors : list string;
}.

(** *** The collaborators *)

Record Platform := {
  (** [nunjucks.parser.parse(input, {}, opts).children] *)
  parser_parse : string -> Completion (list Node);
  (** the renderer of [SecureTemplater.loadRenderer] *)
  renderTemplate : string -> TemplateContext -> Completion string;
  JSON_parse : string -> Completion Value;
  isTruthy : Value -> bool;
  generateExampleOutput : Schema -> Value;
  validateJsonSchema : Value -> Schema -> ValidatorResult;
  path_join : string -> string -> string;
}.

Record NunjucksWorkflowRunnerOptions := {
  workingDirectory : string;
  (** [actionRegistry.get] *)
  actionRegistry_get : string -> Completion TemplateAction;
}.

Variable P : Platform.
Variable options : NunjucksWorkflowRunnerOptions.

(** *** isSingleTemplateString *)

Definition isSingleTemplateString (input : string) : Completion bool :=
  cbind (parser_parse P input) (fun parsed =>
    Normal
      (bool_decide (length parsed = 1) &&
       negb match parsed !! 0 with
            | Some first =>
                match node_children first with
                | Some (grandchild :: _) => node_isTemplateData grandchild
                | _ => false
                end
            | None => false
            end)).

(** *** render *)

(** The inner [try] of the reviver: [Normal (Some r)] when it returns [r],
    [Normal None] when the string is not a single template string and
    control leaves the [if], [Throw ex] when something in it throws. *)
Definition render_single (value : string) (context : TemplateContext)
  : Completion (option Value) :=
  cbind (isSingleTemplateString value) (fun single =>
    if single then
      let wrappedDumped := wrap_dump value in
      cbind (renderTemplate P wrappedDumped context) (fun templated =>
        if bool_decide (templated = "") then Normal (Some VUndefined)
        else cbind (JSON_parse P templated) (fun parsed => Normal (Some parsed)))
    else Normal None).

(** The fallback after the inner [try]; the outer [catch] returns the
    string itself. *)
Definition render_plain (value : string) (context : TemplateContext) : Value :=
  match renderTemplate P value context with
  | Normal templated =>
      if bool_decide (templated = "") then VUndefined else VString templated
  | Throw _ => VString value
  end.

Definition reviver (context : TemplateContext) (value : Value) : Value :=
  match value with
  | VString s =>
      match render_single s context with
      | Normal (Some r) => r
      | Normal None | Throw _ => render_plain s context
      end
  | _ => value
  end.

(** The lines the reviver hands to [logger.error] for one string. *)
Definition reviver_errors (context : TemplateContext) (s : string) : list string :=
  match render_single s context with
  | Throw ex =>
      ["Failed to parse template string: " +:+ s +:+ " with error " +:+ exn_message ex]
  | Normal _ => []
  end.

(** The strings the reviver is called on, in the order of the walk. *)
Fixpoint string_leaves (v : Value) : list string :=
  match v with
  | VString s => [s]
  | VArray xs => concat (map string_leaves xs)
  | VObject kvs =>
      (fix props (l : list (string * Value)) : list string :=
         match l with
         | [] => []
         | (_, x) :: l' => string_leaves x ++ props l'
         end) kvs
  | _ => []
  end.

Definition render (input : Value) (context : TemplateContext) : Completion Value :=
  if is_undefined input
  then Throw (SyntaxError "Unexpected token u in JSON at position 0")
  else Normal (internalize (reviver context) (json_copy input)).

Definition render_errors (input : Value) (context : TemplateContext) : list string :=
  concat (map (reviver_errors context) (string_leaves (json_copy input))).

(** *** The progress tracker ([scaffoldingTracker]) *)

(** [x?.entity?.metadata.name || ''] *)
Definition entity_name (x : Value) : string :=
  match member "name" (member "metadata" (member "entity" x)) with
  | VString s => s
  | _ => ""
  end.

Definition template_label (task : TaskContext) : string :=
  entity_name (spec_templateInfo (task_spec task)).
Definition invoker_label (task : TaskContext) : string :=
  entity_name (spec_user (task_spec task)).

(** [String(err.stack)] *)
Definition exn_stack (err : Exn) : string :=
  exn_name err +:+ ": " +:+ exn_message err.

Definition tracker_taskStart (task : TaskContext) : M (World := World) unit :=
  emit (EvEmitLog ("Starting up task with "
                   +:+ pretty (length (spec_steps (task_spec task))) +:+ " steps")
          None None).

Definition taskTrack_skipDryRun (step : TaskStep) (action : TemplateAction)
  : M (World := World) unit :=
  emit (EvEmitLog ("Skipping because " +:+ action_id action +:+ " does not support dry-run")
          (Some (step_id step)) (Some "skipped")).

Definition taskTrack_markSuccessful (task : TaskContext) : M (World := World) unit :=
  emit_all
    [EvCounterInc "scaffolder_task_success_count"
       [("template", template_label task); ("invoker", invoker_label task)];
     EvObserve "scaffolder_task_duration"
       [("template", template_label task); ("result", "ok")]].

Definition taskTrack_markFailed (task : TaskContext) (step : TaskStep) (err : Exn)
  : M (World := World) unit :=
  emit_all
    [EvEmitLog (exn_stack err) (Some (step_id step)) (Some "failed");
     EvCounterInc "scaffolder_task_error_count"
       [("template", template_label task); ("invoker", invoker_label task)];
     EvObserve "scaffolder_task_duration"
       [("template", template_label task); ("result", "failed")]].

Definition tracker_stepStart (step : TaskStep) : M (World := World) unit :=
  emit (EvEmitLog ("Beginning step " +:+ step_name step)
          (Some (step_id step)) (Some "processing")).

Definition stepTrack_markSuccessful (step : TaskStep) : M (World := World) unit :=
  emit_all
    [EvEmitLog ("Finished step " +:+ step_name step) (Some (step_id step)) (Some "completed");
     EvCounterInc "scaffolder_step_success_count" [("name", step_name step)];
     EvObserve "scaffolder_step_duration" [("name", step_name step); ("result", "ok")]].

Definition stepTrack_markFailed (step : TaskStep) : M (World := World) unit :=
  emit_all
    [EvCounterInc "scaffolder_step_error_count" [("name", step_name step)];
     EvObserve "scaffolder_step_duration" [("name", step_name step); ("result", "failed")]].

Definition stepTrack_skipFalsy (step : TaskStep) : M (World := World) unit :=
  emit (EvEmitLog ("Skipping step " +:+ step_id step
                   +:+ " because it's if condition was false")
          (Some (step_id step)) (Some "skipped")).

(** *** The step loop *)

Local Open Scope run_scope.

(** [this.render(input, context, renderTemplate)] at a call site, with the
    lines its reviver logs. *)
Definition do_render (site : RenderSite) (input : Value) (context : TemplateContext)
  : M (World := World) Value :=
  emit (EvRender site input context) ;;
  emit_all (map EvLoggerError (render_errors input context)) ;;
  lift (render input context).

(** [{ ...context, secrets }] *)
Definition with_secrets (context : TemplateContext) (secrets : gmap string string)
  : TemplateContext :=
  {| ctx_parameters := ctx_parameters context;
     ctx_steps := ctx_steps context;
     ctx_secrets := Some secrets;
     ctx_user := ctx_user context |}.

(** [context.steps[id] = { output }] *)
Definition set_step_output (context : TemplateContext) (id : string) (out : Value)
  : TemplateContext :=
  {| ctx_parameters := ctx_parameters context;
     ctx_steps := <[id := {| output := out |}]> (ctx_steps context);
     ctx_secrets := ctx_secrets context;
     ctx_user := ctx_user context |}.

(** [stepOutput[name] = value] *)
Fixpoint obj_set (name : string) (value : Value) (kvs : list (string * Value))
  : list (string * Value) :=
  match kvs with
  | [] => [(name, value)]
  | (k, x) :: kvs' =>
      if bool_decide (k = name) then (k, value) :: kvs' else (k, x) :: obj_set name value kvs'
  end.

Definition collect_outputs (calls : list (string * Value)) : Value :=
  VObject (fold_left (fun acc call => obj_set (fst call) (snd call) acc) calls []).

(** [arr.join(', ')] *)
Fixpoint join_comma (l : list string) : string :=
  match l with
  | [] => ""
  | [x] => x
  | x :: l' => x +:+ ", " +:+ join_comma l'
  end.

Definition task_secrets_or_empty (task : TaskContext) : gmap string string :=
  default ∅ (task_secrets task).

(** [task.isDryRun && !action.supportsDryRun] *)
Definition skips_for_dry_run (task : TaskContext) (action : TemplateAction) : bool :=
  default false (task_isDryRun task) && negb (default false (action_supportsDryRun action)).

(** [action.schema?.output] and [action.schema?.input] *)
Definition output_schema (action : TemplateAction) : option Schema :=
  match action_schema action with
  | Some sch => schema_output sch
  | None => None
  end.
Definition input_schema (action : TemplateAction) : option Schema :=
  match action_schema action with
  | Some sch => schema_input sch
  | None => None
  end.

(** The conditional check: [true] when the step is skipped by [continue]. *)
Definition check_if (step : TaskStep) (context : TemplateContext) : M (World := World) bool :=
  if js_truthy (step_if step) then
    ifResult <- do_render (SiteIf (step_id step)) (step_if step) context ;;
    if negb (isTruthy P ifResult) then
      stepTrack_skipFalsy step ;; ret true
    else ret false
  else ret false.

(** [(step.input && this.render(step.input, {...context, secrets}, ...)) ?? {}] *)
Definition step_input_value (task : TaskContext) (step : TaskStep) (context : TemplateContext)
  : M (World := World) Value :=
  rendered <- (if js_truthy (step_input step) then
                 do_render (SiteInput (step_id step)) (step_input step)
                   (with_secrets context (task_secrets_or_empty task))
               else ret (step_input step)) ;;
  ret (nullish_or rendered (VObject [])).

Definition check_input (action : TemplateAction) (input : Value) : M (World := World) unit :=
  match input_schema action with
  | Some sch =>
      let validateResult := validateJsonSchema P input sch in
      if negb (valid validateResult) then
        throw (InputError ("Invalid input passed to action " +:+ action_id action
                           +:+ ", " +:+ join_comma (errors validateResult)))
      else ret tt
  | None => ret tt
  end.

Definition tmp_prefix (workspacePath : string) (step : TaskStep) : string :=
  workspacePath +:+ "_step-" +:+ step_id step +:+ "-".

(** The arguments of the handler that the runner chooses. *)
Definition handler_args (task : TaskContext) (workspacePath : string) (input : Value)
  : HandlerArgs :=
  {| h_input := input;
     h_secrets := task_secrets_or_empty task;
     h_workspacePath := workspacePath;
     h_templateInfo := spec_templateInfo (task_spec task) |}.

(** [await action.handler({...})]: the world after it, the temporary
    directories it asked for, and its outputs unless it threw. *)
Definition call_handler (task : TaskContext) (workspacePath : string) (step : TaskStep)
    (action : TemplateAction) (input : Value)
  : M (World := World) (list string * Value) :=
  let args := handler_args task workspacePath input in
  fun w =>
    let '(run, w') := action_handler action args w in
    let tmpDirs := map (fun sfx => tmp_prefix workspacePath step +:+ sfx) (run_tmpSuffixes run) in
    (match run_thrown run with
     | Some err => Throw err
     | None => Normal (tmpDirs, collect_outputs (run_outputs run))
     end,
     w',
     EvHandler step args :: map EvMkdtemp tmpDirs).

(** The body of the loop, inside its [try]. *)
Definition step_body (task : TaskContext) (workspacePath : string) (step : TaskStep)
    (context : TemplateContext) : M (World := World) TemplateContext :=
  skipped <- check_if step context ;;
  if skipped : bool then ret context
  else
    emit (EvRegistryGet (step_action step)) ;;
    action <- lift (actionRegistry_get options (step_action step)) ;;
    if skips_for_dry_run task action then
      taskTrack_skipDryRun step action ;;
      ret (set_step_output context (step_id step)
             match output_schema action with
             | Some outputSchema => generateExampleOutput P outputSchema
             | None => VObject []
             end)
    else
      input <- step_input_value task step context ;;
      check_input action input ;;
      ran <- call_handler task workspacePath step action input ;;
      emit_all (map EvRemove (fst ran)) ;;
      stepTrack_markSuccessful step ;;
      ret (set_step_output context (step_id step) (snd ran)).

(** One iteration of [for (const step of task.spec.steps)]. *)
Definition run_step (task : TaskContext) (workspacePath : string) (step : TaskStep)
    (context : TemplateContext) : M (World := World) TemplateContext :=
  tracker_stepStart step ;;
  try_catch (step_body task workspacePath step context)
    (fun err =>
       taskTrack_markFailed task step err ;;
       stepTrack_markFailed step ;;
       throw err).

Fixpoint run_steps (task : TaskContext) (workspacePath : string) (steps : list TaskStep)
    (context : TemplateContext) : M (World := World) TemplateContext :=
  match steps with
  | [] => ret context
  | step :: rest =>
      context' <- run_step task workspacePath step context ;;
      run_steps task workspacePath rest context'
  end.

(** *** execute *)

Definition workspacePath_of (task : TaskContext) : string :=
  path_join P (workingDirectory options) (task_workspaceName task).

Definition initial_context (task : TaskContext) : TemplateContext :=
  {| ctx_parameters := spec_parameters (task_spec task);
     ctx_steps := ∅;
     ctx_secrets := None;
     ctx_user := spec_user (task_spec task) |}.

Definition execute (task : TaskContext) : M (World := World) WorkflowResponse :=
  if negb (isValidTaskSpec (task_spec task)) then
    throw (InputError "Wrong template version executed with the workflow engine")
  else
    let workspacePath := workspacePath_of task in
    try_finally
      (tracker_taskStart task ;;
       emit (EvEnsureDir workspacePath) ;;
       context <- run_steps task workspacePath (spec_steps (task_spec task))
                    (initial_context task) ;;
       output <- do_render SiteOutput (spec_output (task_spec task)) context ;;
       taskTrack_markSuccessful task ;;
       ret {| response_output := output |})
      (if bool_decide (workspacePath = "") then ret tt
       else emit (EvRemove workspacePath)).

(** *** What the loop decides, as functions of the context *)

(** The condition of the [continue] after the conditional check. *)
Definition skipped_by_if (step : TaskStep) (context : TemplateContext) : bool :=
  js_truthy (step_if step) &&
  match render (step_if step) context with
  | Normal ifResult => negb (isTruthy P ifResult)
  | Throw _ => false
  end.

(** The [input] an executed step hands to validation and to the handler. *)
Definition input_of (task : TaskContext) (step : TaskStep) (context : TemplateContext)
  : Completion Value :=
  cbind (if js_truthy (step_input step)
         then render (step_input step) (with_secrets context (task_secrets_or_empty task))
         else Normal (step_input step))
        (fun rendered => Normal (nullish_or rendered (VObject []))).

(** The three ways a step fails. *)
Inductive StepFails (task : TaskContext) (workspacePath : string) (step : TaskStep)
    (context : TemplateContext) (w : World) : Exn -> Prop :=
| resolution_throws err :
    skipped_by_if step context = false ->
    actionRegistry_get options (step_action step) = Throw err ->
    StepFails task workspacePath step context w err
| validation_throws action input inputSchema :
    skipped_by_if step context = false ->
    actionRegistry_get options (step_action step) = Normal action ->
    skips_for_dry_run task action = false ->
    input_of task step context = Normal input ->
    input_schema action = Some inputSchema ->
    valid (validateJsonSchema P input inputSchema) = false ->
    StepFails task workspacePath step context w
      (InputError ("Invalid input passed to action " +:+ action_id action +:+ ", "
                   +:+ join_comma (errors (validateJsonSchema P input inputSchema))))
| handler_throws action input err :
    skipped_by_if step context = false ->
    actionRegistry_get options (step_action step) = Normal action ->
    skips_for_dry_run task action = false ->
    input_of task step context = Normal input ->
    match input_schema action with
    | Some inputSchema => valid (validateJsonSchema P input inputSchema) = true
    | None => True
    end ->
    run_thrown (fst (action_handler action (handler_args task workspacePath input) w))
      = Some err ->
    StepFails task workspacePath step context w err.

(** *** Strings the engine leaves alone, and strings it renders to nothing *)

(** A string with no template expression: the parser sees no single
    expression in it and the renderer returns it as it is. *)
Definition expression_free (s : string) : Prop :=
  isSingleTemplateString s = Normal false /\
  forall context, renderTemplate P s context = Normal s.

(** The rendering of a string leaf yields the empty string: [templated] is
    [''] in the branch of the reviver that the leaf takes.  For a single
    template string it is the rendering of the rewritten string, and a
    [dump] of the empty string is the text of two quotes, not [''].  *)
Inductive renders_empty (context : TemplateContext) (s : string) : Prop :=
| whole_expression_empty :
    isSingleTemplateString s = Normal true ->
    renderTemplate P (wrap_dump s) context = Normal "" ->
    renders_empty context s
| mixed_text_empty :
    isSingleTemplateString s = Normal false ->
    renderTemplate P s context = Normal "" ->
    renders_empty context s
| fallback_empty ex :
    render_single s context = Throw ex ->
    renderTemplate P s context = Normal "" ->
    renders_empty context s.

End Runner.

Arguments Platform : clear implicits.
Arguments TemplateAction : clear implicits.
Arguments NunjucksWorkflowRunnerOptions : clear implicits.
Arguments HandlerRun : clear implicits.

(** ** The traces of the runner, written out *)

Section Traces.
Context {World Schema : Type}.
Variable P : Platform Schema.
Variable options : NunjucksWorkflowRunnerOptions World Schema.

Implicit Types (task : TaskContext) (step : TaskStep) (context : TemplateContext).
Implicit Types (w : World) (t : list Event).

(** The events of the two renderings of a step. *)
Definition if_trace step context : list Event :=
  if js_truthy (step_if step) then
    EvRender (SiteIf (step_id step)) (step_if step) context
    :: map EvLoggerError (render_errors P (step_if step) context)
  else [].

Definition input_trace task step context : list Event :=
  if js_truthy (step_input step) then
    EvRender (SiteInput (step_id step)) (step_input step)
      (with_secrets context (task_secrets_or_empty task))
    :: map EvLoggerError
         (render_errors P (step_input step) (with_secrets context (task_secrets_or_empty task)))
  else [].

(** The log lines and metrics of the tracker, as events. *)
Definition started step : Event :=
  EvEmitLog ("Beginning step " +:+ step_name step) (Some (step_id step)) (Some "processing").

Definition skipped_falsy step : Event :=
  EvEmitLog ("Skipping step " +:+ step_id step +:+ " because it's if condition was false")
    (Some (step_id step)) (Some "skipped").

Definition skipped_dry_run step (action : TemplateAction World Schema) : Event :=
  EvEmitLog ("Skipping because " +:+ action_id action +:+ " does not support dry-run")
    (Some (step_id step)) (Some "skipped").

Definition failed task step (err : Exn) : list Event :=
  [EvEmitLog (exn_stack err) (Some (step_id step)) (Some "failed");
   EvCounterInc "scaffolder_task_error_count"
     [("template", template_label task); ("invoker", invoker_label task)];
   EvObserve "scaffolder_task_duration"
     [("template", template_label task); ("result", "failed")];
   EvCounterInc "scaffolder_step_error_count" [("name", step_name step)];
   EvObserve "scaffolder_step_duration" [("name", step_name step); ("result", "failed")]].

Definition succeeded step : list Event :=
  [EvEmitLog ("Finished step " +:+ step_name step) (Some (step_id step)) (Some "completed");
   EvCounterInc "scaffolder_step_success_count" [("name", step_name step)];
   EvObserve "scaffolder_step_duration" [("name", step_name step); ("result", "ok")]].

(** The temporary directories a run of a handler asked for. *)
Definition tmp_dirs ws step (run : HandlerRun) : list string :=
  map (fun sfx => tmp_prefix ws step +:+ sfx) (run_tmpSuffixes run).

(** What the dry-run gate stores for a step. *)
Definition dry_run_output (action : TemplateAction World Schema) : Value :=
  match output_schema action with
  | Some outputSchema => generateExampleOutput P outputSchema
  | None => VObject []
  end.

(** The validation of the input, and what it throws. *)
Definition input_valid (action : TemplateAction World Schema) (input : Value) : bool :=
  match input_schema action with
  | Some inputSchema => valid (validateJsonSchema P input inputSchema)
  | None => true
  end.

Definition invalid_input (action : TemplateAction World Schema) (input : Value) : Exn :=
  match input_schema action with
  | Some inputSchema =>
      InputError ("Invalid input passed to action " +:+ action_id action +:+ ", "
                  +:+ join_comma (errors (validateJsonSchema P input inputSchema)))
  | None => InputError ""
  end.

(** One iteration, as a relation between the state before it and what it
    leaves: its completion, the world and its events. *)
Inductive StepRun task ws step context w
  : Completion TemplateContext * World * list Event -> Prop :=
| step_skipped :
    skipped_by_if P step context = true ->
    StepRun task ws step context w
      (Normal context, w, started step :: if_trace step context ++ [skipped_falsy step])
| step_unresolved err :
    skipped_by_if P step context = false ->
    actionRegistry_get options (step_action step) = Throw err ->
    StepRun task ws step context w
      (Throw err, w,
       started step :: (if_trace step context ++ [EvRegistryGet (step_action step)])
       ++ failed task step err)
| step_dry_run action :
    skipped_by_if P step context = false ->
    actionRegistry_get options (step_action step) = Normal action ->
    skips_for_dry_run task action = true ->
    StepRun task ws step context w
      (Normal (set_step_output context (step_id step) (dry_run_output action)), w,
       started step :: if_trace step context
       ++ [EvRegistryGet (step_action step); skipped_dry_run step action])
| step_invalid action input :
    skipped_by_if P step context = false ->
    actionRegistry_get options (step_action step) = Normal action ->
    skips_for_dry_run task action = false ->
    input_of P task step context = Normal input ->
    input_valid action input = false ->
    StepRun task ws step context w
      (Throw (invalid_input action input), w,
       started step
       :: (if_trace step context
           ++ EvRegistryGet (step_action step) :: input_trace task step context)
       ++ failed task step (invalid_input action input))
| step_handler_threw action input err :
    skipped_by_if P step context = false ->
    actionRegistry_get options (step_action step) = Normal action ->
    skips_for_dry_run task action = false ->
    input_of P task step context = Normal input ->
    input_valid action input = true ->
    run_thrown (fst (action_handler action (handler_args task ws input) w)) = Some err ->
    StepRun task ws step context w
      (Throw err, snd (action_handler action (handler_args task ws input) w),
       started step
       :: (if_trace step context ++ EvRegistryGet (step_action step)
           :: input_trace task step context
           ++ EvHandler step (handler_args task ws input)
           :: map EvMkdtemp
                (tmp_dirs ws step (fst (action_handler action (handler_args task ws input) w))))
       ++ failed task step err)
| step_success action input :
    skipped_by_if P step context = false ->
    actionRegistry_get options (step_action step) = Normal action ->
    skips_for_dry_run task action = false ->
    input_of P task step context = Normal input ->
    input_valid action input = true ->
    run_thrown (fst (action_handler action (handler_args task ws input) w)) = None ->
    StepRun task ws step context w
      (Normal (set_step_output context (step_id step)
                 (collect_outputs
                    (run_outputs (fst (action_handler action (handler_args task ws input) w))))),
       snd (action_handler action (handler_args task ws input) w),
       started step
       :: if_trace step context ++ EvRegistryGet (step_action step)
       :: input_trace task step context
       ++ EvHandler step (handler_args task ws input)
       :: map EvMkdtemp
            (tmp_dirs ws step (fst (action_handler action (handler_args task ws input) w)))
       ++ map EvRemove
            (tmp_dirs ws step (fst (action_handler action (handler_args task ws input) w)))
       ++ succeeded step).

(** The renderings an iteration can make. *)
Definition render_of_step task step context (x : RenderSite * TemplateContext) : Prop :=
  x = (SiteIf (step_id step), context) \/
  x = (SiteInput (step_id step), with_secrets context (task_secrets_or_empty task)).

(** The events of [execute] around the loop. *)
Definition task_started task : Event :=
  EvEmitLog ("Starting up task with "
             +:+ pretty (length (spec_steps (task_spec task))) +:+ " steps") None None.

Definition task_succeeded task : list Event :=
  [EvCounterInc "scaffolder_task_success_count"
     [("template", template_label task); ("invoker", invoker_label task)];
   EvObserve "scaffolder_task_duration"
     [("template", template_label task); ("result", "ok")]].

(** What follows the loop, inside the [try]. *)
Definition output_trace task (r : Completion TemplateContext) : list Event :=
  match r with
  | Normal context =>
      EvRender SiteOutput (spec_output (task_spec task)) context
      :: map EvLoggerError (render_errors P (spec_output (task_spec task)) context)
      ++ match render P (spec_output (task_spec task)) context with
         | Normal _ => task_succeeded task
         | Throw _ => []
         end
  | Throw _ => []
  end.

Definition response_of task (r : Completion TemplateContext) : Completion WorkflowResponse :=
  cbind r (fun context =>
    cbind (render P (spec_output (task_spec task)) context) (fun out =>
      Normal {| response_output := out |})).

(** The [finally] block. *)
Definition closing (ws : string) : list Event :=
  if bool_decide (ws = "") then [] else [EvRemove ws].

(** What a rendering may see of the secrets. *)
Definition secrets_at task (x : RenderSite * TemplateContext) : Prop :=
  match fst x with
  | SiteInput _ => ctx_secrets (snd x) = Some (task_secrets_or_empty task)
  | SiteIf _ | SiteOutput => ctx_secrets (snd x) = None
  end.


(** What the handler gets, in the order of the calls. *)
Definition handler_inputs t : list Value := map (fun call => h_input (snd call)) (handler_calls t).

End Traces.

(** ** The helper [isTruthy] *)

(** Modelled from the spec: [isTruthy] of [./helper], which is not among the
    sources.  The spec gives the rule in its words: "empty string, "false",
    absent/undefined, numeric zero, empty collection all coerce to false;
    everything else true".  The definition follows that rule as it is worded:
    the five kinds of value it lists are false, and a value of any other kind
    is true. *)
Definition helper_isTruthy (value : Value) : bool :=
  match value with
  | VUndefined => false
  | VNull | VBool _ => true
  | VNumber n => negb (n =? 0)%Z
  | VString s => negb (bool_decide (s = "") || bool_decide (s = "false"))
  | VArray xs => negb (bool_decide (xs = []))
  | VObject kvs => negb (bool_decide (kvs = []))
  end.

(** ** A reference platform

    A small instance of the collaborators, to run the runner on concrete
    tasks: templates are literal text and [${{ path }}] expressions, where a
    path is a dotted lookup from the context, optionally in parentheses and
    piped through [dump]. *)

Module Reference.

Definition quote : ascii := "034"%char.
Definition backslash : ascii := "092"%char.

(** *** JSON text *)

Fixpoint escape (s : string) : string :=
  match s with
  | "" => ""
  | String c s' =>
      if bool_decide (c = quote) || bool_decide (c = backslash)
      then String backslash (String c (escape s'))
      else String c (escape s')
  end.

Definition quoted (s : string) : string :=
  String quote (escape s) +:+ String quote "".

Fixpoint stringify (v : Value) : string :=
  match v with
  | VUndefined | VNull => "null"
  | VBool true => "true"
  | VBool false => "false"
  | VNumber n => pretty n
  | VString s => quoted s
  | VArray xs =>
      "[" +:+ (fix elems (l : list Value) : string :=
                 match l with
                 | [] => ""
                 | [x] => stringify x
                 | x :: l' => stringify x +:+ "," +:+ elems l'
                 end) xs +:+ "]"
  | VObject kvs =>
      "{" +:+ (fix props (l : list (string * Value)) : string :=
                 match l with
                 | [] => ""
                 | [(k, x)] => quoted k +:+ ":" +:+ stringify x
                 | (k, x) :: l' => quoted k +:+ ":" +:+ stringify x +:+ "," +:+ props l'
                 end) kvs +:+ "}"
  end.

(** The [dump] filter: [JSON.stringify], whose [undefined] is written as
    nothing. *)
Definition dump (v : Value) : string :=
  if is_undefined v then "" else stringify (json_copy v).

Definition is_space (c : ascii) : bool :=
  bool_decide (c = " "%char) || is_line_terminator c || bool_decide (c = "009"%char).

Fixpoint skip_ws (s : string) : string :=
  match s with
  | String c s' => if is_space c then skip_ws s' else s
  | "" => ""
  end.

Definition digit_of (c : ascii) : option Z :=
  let n := nat_of_ascii c in
  if bool_decide (48 <= n) && bool_decide (n <= 57) then Some (Z.of_nat (n - 48)) else None.

Fixpoint parse_digits (acc : Z) (s : string) : Z * string :=
  match s with
  | String c s' =>
      match digit_of c with
      | Some d => parse_digits (10 * acc + d) s'
      | None => (acc, s)
      end
  | "" => (acc, s)
  end.

Definition parse_number (s : string) : option (Value * string) :=
  match s with
  | String "-" (String c _ as s') =>
      match digit_of c with
      | Some _ => let '(n, r) := parse_digits 0 s' in Some (VNumber (- n), r)
      | None => None
      end
  | String c _ =>
      match digit_of c with
      | Some _ => let '(n, r) := parse_digits 0 s in Some (VNumber n, r)
      | None => None
      end
  | "" => None
  end.

(** The characters of a string literal after its opening quote. *)
Fixpoint parse_chars (s : string) : option (string * string) :=
  match s with
  | "" => None
  | String c s' =>
      if bool_decide (c = quote) then Some ("", s')
      else if bool_decide (c = backslash) then
        match s' with
        | String e s'' =>
            if bool_decide (e = quote) || bool_decide (e = backslash) then
              match parse_chars s'' with
              | Some (str, r) => Some (String e str, r)
              | None => None
              end
            else None
        | "" => None
        end
      else
        match parse_chars s' with
        | Some (str, r) => Some (String c str, r)
        | None => None
        end
  end.

Fixpoint parse_value (fuel : nat) (s : string) : option (Value * string) :=
  match fuel with
  | O => None
  | S fuel' =>
      let s := skip_ws s in
      if starts_with "null" s then Some (VNull, str_drop 4 s)
      else if starts_with "true" s then Some (VBool true, str_drop 4 s)
      else if starts_with "false" s then Some (VBool false, str_drop 5 s)
      else
        match s with
        | String c rest =>
            if bool_decide (c = quote) then
              match parse_chars rest with
              | Some (str, r) => Some (VString str, r)
              | None => None
              end
            else if bool_decide (c = "["%char) then
              match skip_ws rest with
              | String "]" r => Some (VArray [], r)
              | _ =>
                  match parse_elems fuel' rest with
                  | Some (xs, r) => Some (VArray xs, r)
                  | None => None
                  end
              end
            else if bool_decide (c = "{"%char) then
              match skip_ws rest with
              | String "}" r => Some (VObject [], r)
              | _ =>
                  match parse_props fuel' rest with
                  | Some (kvs, r) => Some (VObject kvs, r)
                  | None => None
                  end
              end
            else parse_number s
        | "" => None
        end
  end
with parse_elems (fuel : nat) (s : string) : option (list Value * string) :=
  match fuel with
  | O => None
  | S fuel' =>
      match parse_value fuel' s with
      | Some (x, r) =>
          match skip_ws r with
          | String "," r' =>
              match parse_elems fuel' r' with
              | Some (xs, r'') => Some (x :: xs, r'')
              | None => None
              end
          | String "]" r' => Some ([x], r')
          | _ => None
          end
      | None => None
      end
  end
with parse_props (fuel : nat) (s : string) : option (list (string * Value) * string) :=
  match fuel with
  | O => None
  | S fuel' =>
      match skip_ws s with
      | String c rest =>
          if bool_decide (c = quote) then
            match parse_chars rest with
            | Some (k, r) =>
                match skip_ws r with
                | String ":" r1 =>
                    match parse_value fuel' r1 with
                    | Some (x, r2) =>
                        match skip_ws r2 with
                        | String "," r3 =>
                            match parse_props fuel' r3 with
                            | Some (kvs, r4) => Some ((k, x) :: kvs, r4)
                            | None => None
                            end
                        | String "}" r3 => Some ([(k, x)], r3)
                        | _ => None
                        end
                    | None => None
                    end
                | _ => None
                end
            | None => None
            end
          else None
      | "" => None
      end
  end.

Definition parse_json (text : string) : Completion Value :=
  match parse_value (S (String.length text)) text with
  | Some (v, r) =>
      if bool_decide (skip_ws r = "") then Normal v
      else Throw (SyntaxError "Unexpected token in JSON")
  | None => Throw (SyntaxError "Unexpected token in JSON")
  end.

(** *** Templates *)

Inductive Segment :=
| Lit (text : string)
| Expr (src : string).

(** The text before and after the first occurrence of [pat]. *)
Fixpoint split_at (pat s : string) : option (string * string) :=
  if starts_with pat s then Some ("", str_drop (String.length pat) s)
  else
    match s with
    | "" => None
    | String c s' =>
        match split_at pat s' with
        | Some (before, after) => Some (String c before, after)
        | None => None
        end
    end.

Fixpoint segments (fuel : nat) (s : string) : Completion (list Segment) :=
  match fuel with
  | O => Normal []
  | S fuel' =>
      if bool_decide (s = "") then Normal []
      else
        match split_at "${{" s with
        | None => Normal [Lit s]
        | Some (before, after) =>
            match split_at "}}" after with
            | None => Throw (MkExn "Template render error" "expected variable end")
            | Some (src, rest) =>
                cbind (segments fuel' rest) (fun segs =>
                  Normal ((if bool_decide (before = "") then [] else [Lit before])
                          ++ Expr src :: segs))
            end
        end
  end.

Definition tokens (s : string) : Completion (list Segment) :=
  segments (S (String.length s)) s.

(** [Output] nodes, over a [TemplateData] or over the expression. *)
Definition node_of (seg : Segment) : Node :=
  match seg with
  | Lit _ => MkNode false (Some [MkNode true None])
  | Expr _ => MkNode false (Some [MkNode false None])
  end.

Definition nunjucks_parse (input : string) : Completion (list Node) :=
  cbind (tokens input) (fun segs => Normal (map node_of segs)).

Fixpoint remove_spaces (s : string) : string :=
  match s with
  | "" => ""
  | String c s' => if is_space c then remove_spaces s' else String c (remove_spaces s')
  end.

Definition strip_suffix (suffix s : string) : option string :=
  let n := String.length s - String.length suffix in
  if bool_decide (str_drop n s = suffix) && bool_decide (String.length suffix <= String.length s)
  then Some (str_take n s) else None.

Definition strip_parens (s : string) : string :=
  match s with
  | String "(" s' =>
      match strip_suffix ")" s' with
      | Some inner => inner
      | None => s
      end
  | _ => s
  end.

Fixpoint split_dots (cur s : string) : list string :=
  match s with
  | "" => [cur]
  | String c s' =>
      if bool_decide (c = "."%char) then cur :: split_dots "" s'
      else split_dots (cur +:+ String c "") s'
  end.

Definition is_ident_char (c : ascii) : bool :=
  let n := nat_of_ascii c in
  (bool_decide (48 <= n) && bool_decide (n <= 57))
  || (bool_decide (65 <= n) && bool_decide (n <= 90))
  || (bool_decide (97 <= n) && bool_decide (n <= 122))
  || bool_decide (n = 95) || bool_decide (n = 45).

Fixpoint is_ident (s : string) : bool :=
  match s with
  | "" => true
  | String c s' => is_ident_char c && is_ident s'
  end.

Definition steps_value (steps : gmap string StepEntry) : Value :=
  VObject (map (fun kv => (fst kv, VObject [("output", output (snd kv))])) (map_to_list steps)).

Definition secrets_value (secrets : option (gmap string string)) : Value :=
  match secrets with
  | Some m => VObject (map (fun kv => (fst kv, VString (snd kv))) (map_to_list m))
  | None => VUndefined
  end.

Definition lookup_variable (name : string) (context : TemplateContext) : Value :=
  if bool_decide (name = "parameters") then ctx_parameters context
  else if bool_decide (name = "steps") then steps_value (ctx_steps context)
  else if bool_decide (name = "secrets") then secrets_value (ctx_secrets context)
  else if bool_decide (name = "user") then ctx_user context
  else if bool_decide (name = "true") then VBool true
  else if bool_decide (name = "false") then VBool false
  else VUndefined.

Definition lookup_path (path : list string) (context : TemplateContext) : Value :=
  match path with
  | [] => VUndefined
  | name :: members => fold_left (fun v key => member key v) members (lookup_variable name context)
  end.

(** What a value prints as in the output of a template. *)
Definition to_text (v : Value) : string :=
  match v with
  | VUndefined | VNull => ""
  | VBool true => "true"
  | VBool false => "false"
  | VNumber n => pretty n
  | VString s => s
  | VArray _ => stringify v
  | VObject _ => "[object Object]"
  end.

Definition eval_expr (src : string) (context : TemplateContext) : Completion string :=
  let e := remove_spaces src in
  let '(e, dumped) := match strip_suffix "|dump" e with
                      | Some e' => (e', true)
                      | None => (e, false)
                      end in
  let path := split_dots "" (strip_parens e) in
  if forallb (fun x => is_ident x && negb (bool_decide (x = ""))) path then
    let v := lookup_path path context in
    Normal (if dumped then dump v else to_text v)
  else Throw (MkExn "Template render error" ("unexpected token in " +:+ src)).

Fixpoint render_segments (segs : list Segment) (context : TemplateContext)
  : Completion string :=
  match segs with
  | [] => Normal ""
  | Lit text :: segs' =>
      cbind (render_segments segs' context) (fun rest => Normal (text +:+ rest))
  | Expr src :: segs' =>
      cbind (eval_expr src context) (fun out =>
        cbind (render_segments segs' context) (fun rest => Normal (out +:+ rest)))
  end.

Definition nunjucks_render (template : string) (context : TemplateContext)
  : Completion string :=
  cbind (tokens template) (fun segs => render_segments segs context).

(** *** Schemas *)

Local Unset Elimination Schemes.
Inductive Schema : Type :=
| SString
| SNumber
| SBoolean
| SArray (items : Schema)
| SObject (properties : list (string * Schema)).
Local Set Elimination Schemes.

Fixpoint example_output (schema : Schema) : Value :=
  match schema with
  | SString => VString "<example>"
  | SNumber => VNumber 0
  | SBoolean => VBool false
  | SArray items => VArray [example_output items]
  | SObject properties =>
      VObject ((fix props (l : list (string * Schema)) : list (string * Value) :=
                  match l with
                  | [] => []
                  | (k, sch) :: l' => (k, example_output sch) :: props l'
                  end) properties)
  end.

(** A declared property that is present has the declared shape. *)
Fixpoint conforms (schema : Schema) (v : Value) : bool :=
  match schema, v with
  | SString, VString _ => true
  | SNumber, VNumber _ => true
  | SBoolean, VBool _ => true
  | SArray items, VArray xs => forallb (conforms items) xs
  | SObject properties, VObject kvs =>
      (fix props (l : list (string * Schema)) : bool :=
         match l with
         | [] => true
         | (k, sch) :: l' =>
             match assoc k kvs with
             | Some x => conforms sch x
             | None => true
             end && props l'
         end) properties
  | _, _ => false
  end.

Definition validate (input : Value) (schema : Schema) : ValidatorResult :=
  if conforms schema input
  then {| valid := true; errors := [] |}
  else {| valid := false; errors := ["instance does not match the schema"] |}.

Definition join_path (a b : string) : string := a +:+ "/" +:+ b.

Definition platform : Platform Schema :=
  {| parser_parse := nunjucks_parse;
     renderTemplate := nunjucks_render;
     JSON_parse := parse_json;
     isTruthy := helper_isTruthy;
     generateExampleOutput := example_output;
     validateJsonSchema := validate;
     path_join := join_path |}.

(** *** Actions and tasks *)

(** The world of the reference handlers: the actions that ran, in order. *)
Definition World : Type := list string.

Definition returning (id : string) (outs : HandlerArgs -> list (string * Value))
    (tmp : list string) : HandlerArgs -> World -> HandlerRun * World :=
  fun args w =>
    ({| run_outputs := outs args; run_tmpSuffixes := tmp; run_thrown := None |}, w ++ [id]).

Definition throwing (id : string) (err : Exn) : HandlerArgs -> World -> HandlerRun * World :=
  fun args w =>
    ({| run_outputs := [("partial", VBool true)]; run_tmpSuffixes := ["Zq81xY"];
        run_thrown := Some err |}, w ++ [id]).

Definition fetch_plain : TemplateAction World Schema :=
  {| action_id := "fetch:plain";
     action_supportsDryRun := None;
     action_schema := None;
     action_handler :=
       returning "fetch:plain" (fun _ => [("path", VString "./skeleton")]) ["a1b2c3"] |}.

Definition publish_github : TemplateAction World Schema :=
  {| action_id := "publish:github";
     action_supportsDryRun := Some false;
     action_schema :=
       Some {| schema_input := Some (SObject [("name", SString)]);
               schema_output := Some (SObject [("url", SString)]) |};
     action_handler :=
       returning "publish:github" (fun _ => [("url", VString "https://example.com/repo")]) [] |}.

Definition debug_log : TemplateAction World Schema :=
  {| action_id := "debug:log";
     action_supportsDryRun := Some true;
     action_schema := None;
     action_handler := returning "debug:log" (fun args => [("input", h_input args)]) [] |}.

Definition test_fail : TemplateAction World Schema :=
  {| action_id := "test:fail";
     action_supportsDryRun := None;
     action_schema := None;
     action_handler := throwing "test:fail" (MkExn "Error" "boom") |}.

Definition registry_get (actionId : string) : Completion (TemplateAction World Schema) :=
  match list_find (fun a => action_id a = actionId)
          [fetch_plain; publish_github; debug_log; test_fail] with
  | Some (_, a) => Normal a
  | None =>
      Throw (MkExn "NotFoundError"
               ("Template action with ID '" +:+ actionId +:+ "' is not registered."))
  end.

Definition options : NunjucksWorkflowRunnerOptions World Schema :=
  {| workingDirectory := "/tmp/scaffolder";
     actionRegistry_get := registry_get |}.

Definition step (id action : string) (input cond : Value) : TaskStep :=
  {| step_id := id; step_name := id; step_action := action;
     step_input := input; step_if := cond |}.

Definition task (steps : list TaskStep) (out : Value) (dry : option bool)
    (secrets : option (gmap string string)) : TaskContext :=
  {| task_spec :=
       {| spec_apiVersion := "scaffolder.backstage.io/v1beta3";
          spec_parameters := VObject [("count", VNumber 3); ("name", VString "demo");
                                      ("enabled", VBool false)];
          spec_steps := steps;
          spec_output := out;
          spec_user := VUndefined;
          spec_templateInfo := VUndefined |};
     task_secrets := secrets;
     task_isDryRun := dry;
     task_workspaceName := "task-1" |}.

Definition context (params : list (string * Value)) : TemplateContext :=
  {| ctx_parameters := VObject params;
     ctx_steps := ∅;
     ctx_secrets := None;
     ctx_user := VUndefined |}.

(** Three steps, the second guarded by a condition that renders to nothing
    and bound to an action that is not registered. *)
Definition fetch_step : TaskStep :=
  step "fetch" "fetch:plain" (VObject [("url", VString "./skeleton")]) VUndefined.

Definition guarded_step : TaskStep :=
  step "publish" "unregistered:action" VUndefined (VString "${{ parameters.publish }}").

Definition log_step : TaskStep :=
  step "log" "debug:log"
    (VObject [("message", VString "published ${{ steps.publish.output.url }}")]) VUndefined.

Definition guarded_task : TaskContext :=
  task [fetch_step; guarded_step; log_step]
    (VObject [("url", VString "${{ steps.publish.output.url }}")]) None None.

Definition workspace : string := "/tmp/scaffolder/task-1".

Definition after_fetch : TemplateContext :=
  set_step_output (initial_context guarded_task) "fetch"
    (VObject [("path", VString "./skeleton")]).

(** Three steps, the second of which fails. *)
Definition failing_step : TaskStep :=
  step "break" "test:fail" VUndefined (VString "${{ parameters.count }}").

Definition failing_task : TaskContext :=
  task [fetch_step; failing_step; log_step] (VObject []) None None.

(** A dry run of a step whose condition is true and whose action does not
    support dry runs. *)
Definition publish_step : TaskStep :=
  step "publish" "publish:github" (VObject [("name", VString "${{ parameters.name }}")])
    (VString "${{ parameters.count }}").

Definition dry_task : TaskContext :=
  task [publish_step] (VObject [("url", VString "${{ steps.publish.output.url }}")])
    (Some true) None.



(** A step whose input does not fit the input schema of its action. *)
Definition invalid_step : TaskStep :=
  step "publish" "publish:github" (VObject [("name", VNumber 3)]) VUndefined.

Definition invalid_task : TaskContext := task [invalid_step] (VObject []) None None.

(** A task whose spec has no [output]. *)
Definition no_output_task : TaskContext := task [fetch_step] VUndefined None None.

(** A step whose [if] is the empty string, bound to an action that is not
    registered; and one bound to an action that is. *)
Definition blank_if_step : TaskStep :=
  step "publish" "unregistered:action" VUndefined (VString "").

Definition blank_if_task : TaskContext :=
  task [fetch_step; blank_if_step; log_step] (VObject []) None None.

Definition blank_if_fetch : TaskStep :=
  step "fetch" "fetch:plain" (VObject [("url", VString "./skeleton")]) (VString "").

Definition blank_if_fetch_task : TaskContext := task [blank_if_fetch] (VObject []) None None.

(** Two steps with the id [publish]: the first runs, the second is skipped,
    and a third reads the output stored under that id. *)
Definition repeated_id_task : TaskContext :=
  task [step "publish" "publish:github" (VObject [("name", VString "demo")]) VUndefined;
        guarded_step; log_step]
    (VObject []) None None.



(** One template expression written over two lines. *)
Definition two_line_expression : string :=
  "${{ parameters.repo" +:+ String "010"%char "}}".

End Reference.

(** * Paging through Bitbucket ([BitbucketClient] and [pageIterator])

    The options of a listing are a JavaScript object with the optional
    numbers [limit] and [start].  [pageIterator] keeps a reference to the
    object it is given and assigns to its [start], so the objects live in a
    heap and an iterator holds an address. *)

Module Bitbucket.

(** A [ListOptions] object: its own properties in insertion order, a
    property holding [None] when its value is [undefined]. *)
Definition ListOptions : Type := list (string * option Z).

(** [options[key]] *)
Fixpoint get_prop (key : string) (o : ListOptions) : option Z :=
  match o with
  | [] => None
  | (k, v) :: o' => if bool_decide (k = key) then v else get_prop key o'
  end.

(** [options[key] = value] *)
Fixpoint set_prop (key : string) (value : option Z) (o : ListOptions) : ListOptions :=
  match o with
  | [] => [(key, value)]
  | (k, v) :: o' =>
      if bool_decide (k = key) then (k, value) :: o' else (k, v) :: set_prop key value o'
  end.

Record PagedResponse := {
  size : Z;
  limit : Z;
  start : Z;
  isLastPage : bool;
  values : list Value;
  nextPageStart : option Z;
}.

(** What [fetch] resolves to, as far as [pagedRequest] reads it. *)
Record Response := {
  ok : bool;
  status : Z;
  statusText : string;
  json : Completion PagedResponse;
}.

Section Client.
Context {World : Type}.

(** What the client calls and does not define. *)
Record Http := {
  (** what [new URL(endpoint)] throws, when it does *)
  URL_invalid : string -> option Exn;
  (** [request.toString()], for the endpoint and the search parameters appended *)
  URL_toString : string -> list (string * string) -> string;
  (** [fetch(url, getBitbucketRequestOptions(config))] *)
  fetch : string -> World -> Completion Response * World;
  (** JavaScript's [String(value)] of a number: the text that
      [searchParams.append] and a template literal make of it *)
  Number_toString : Z -> string;
}.

Variable http : Http.
(** [config.apiBaseUrl] *)
Variable apiBaseUrl : string.

(** The search parameters that the loop over [Object.keys(options)]
    appends. *)
Definition query_of (options : option ListOptions) : list (string * string) :=
  match options with
  | Some o =>
      omap (fun kv => match snd kv with
                      | Some n =>
                          if bool_decide (n = 0%Z) then None
                          else Some (fst kv, Number_toString http n)
                      | None => None
                      end) o
  | None => []
  end.

(** [pagedRequest]: its completion, the world after it and the URLs it
    fetched. *)
Definition pagedRequest (endpoint : string) (options : option ListOptions) (w : World)
  : Completion PagedResponse * World * list string :=
  match URL_invalid http endpoint with
  | Some err => (Throw err, w, [])
  | None =>
      let url := URL_toString http endpoint (query_of options) in
      match fetch http url w with
      | (Throw err, w') => (Throw err, w', [url])
      | (Normal response, w') =>
          if negb (ok response) then
            (Throw (MkExn "Error"
                      ("Unexpected response when fetching " +:+ url
                       +:+ ". Expected 200 but got " +:+ Number_toString http (status response)
                       +:+ " - " +:+ statusText response)),
             w', [url])
          else (json response, w', [url])
      end
  end.

Definition listProjects (options : option ListOptions) (w : World)
  : Completion PagedResponse * World * list string :=
  pagedRequest (apiBaseUrl +:+ "/projects") options w.

Definition listRepositories (projectKey : string) (options : option ListOptions) (w : World)
  : Completion PagedResponse * World * list string :=
  pagedRequest (apiBaseUrl +:+ "/projects/" +:+ projectKey +:+ "/repos") options w.

End Client.

Arguments Http : clear implicits.

(** ** pageIterator *)

Abbreviation Heap := (gmap nat ListOptions).

Definition object_at (h : Heap) (a : nat) : ListOptions := default [] (h !! a).

(** The variables of one iterator: the object [opts] refers to, and
    [finished]. *)
Record Iterator := {
  it_opts : nat;
  it_finished : bool;
}.

(** What the promise of [next()] settles to: resolved with
    [{ value, done }], or rejected with [{ value: undefined, done: true,
    error }]. *)
Inductive IteratorResult :=
| Resolved (value : option PagedResponse) (done : bool)
| Rejected (error : Exn).

Section PageIterator.
Context {World : Type}.

(** The first argument of [pageIterator]: it is handed the object [opts]
    refers to, and answers with a page or throws.  The last component lists
    the URLs it fetched. *)
Variable pagedRequest : ListOptions -> World -> Completion PagedResponse * World * list string.

(** [pageIterator(pagedRequest, options)[Symbol.asyncIterator]()], with
    [options] an address or [undefined]: [opts = options || { start: 0 }]. *)
Definition asyncIterator (options : option nat) (h : Heap) : Iterator * Heap :=
  match options with
  | Some a => ({| it_opts := a; it_finished := false |}, h)
  | None =>
      let a := fresh (dom h) in
      ({| it_opts := a; it_finished := false |}, <[a := [("start", Some 0%Z)]]> h)
  end.

(** [next()]: what it settles to, the iterator and the heap after it, the
    world, and the URLs fetched. *)
Definition next (it : Iterator) (h : Heap) (w : World)
  : IteratorResult * Iterator * Heap * World * list string :=
  if negb (it_finished it) then
    match pagedRequest (object_at h (it_opts it)) w with
    | (Normal response, w', urls) =>
        (Resolved (Some response) false,
         {| it_opts := it_opts it; it_finished := isLastPage response |},
         <[it_opts it := set_prop "start" (nextPageStart response) (object_at h (it_opts it))]> h,
         w', urls)
    | (Throw error, w', urls) => (Rejected error, it, h, w', urls)
    end
  else
    (Resolved None true,
     {| it_opts := it_opts it; it_finished := false |},
     <[it_opts it := set_prop "start" (Some 0%Z) (object_at h (it_opts it))]> h,
     w, []).

End PageIterator.

(** ** A server with three projects, two to a page *)

Definition page (from : Z) : PagedResponse :=
  {| size := if bool_decide (from = 0%Z) then 2 else 1;
     limit := 2;
     start := from;
     isLastPage := negb (bool_decide (from = 0%Z));
     values := if bool_decide (from = 0%Z) then [VString "alpha"; VString "beta"]
               else [VString "gamma"];
     nextPageStart := if bool_decide (from = 0%Z) then Some 2%Z else None |}.

(** The world is the list of the URLs fetched; the server answers with the
    page at [start], and with 503 for a URL with [limit=500].  The numbers
    sent to it are small, and are written in decimal digits. *)
Fixpoint join_amp (l : list string) : string :=
  match l with
  | [] => ""
  | [x] => x
  | x :: l' => x +:+ "&" +:+ join_amp l'
  end.

Definition url_of (endpoint : string) (query : list (string * string)) : string :=
  match query with
  | [] => endpoint
  | _ => endpoint +:+ "?" +:+ join_amp (map (fun kv => fst kv +:+ "=" +:+ snd kv) query)
  end.

Definition serve (url : string) (w : list string) : Completion Response * list string :=
  (Normal
     (if bool_decide (url = "https://bitbucket.example/rest/api/1.0/projects?limit=500") then
        {| ok := false; status := 503; statusText := "Service Unavailable";
           json := Throw (SyntaxError "Unexpected token < in JSON at position 0") |}
      else if bool_decide (url = "https://bitbucket.example/rest/api/1.0/projects?start=2") then
        {| ok := true; status := 200; statusText := "OK"; json := Normal (page 2) |}
      else
        {| ok := true; status := 200; statusText := "OK"; json := Normal (page 0) |}),
   w ++ [url]).

Definition server : Http (list string) :=
  {| URL_invalid := fun _ => None; URL_toString := url_of; fetch := serve;
     Number_toString := pretty |}.

Definition projects (o : ListOptions) (w : list string)
  : Completion PagedResponse * list string * list string :=
  listProjects server "https://bitbucket.example/rest/api/1.0" (Some o) w.

End Bitbucket.

(** * The version finders of [versions:bump] (bump.ts)

    [createStrictVersionFinder] and [createVersionFinder] return a function
    from a package name to the version to bump to.  The function of
    [createVersionFinder] keeps the versions it found in a map of its own,
    [found], which is threaded through the calls here. *)

Module Versions.

Record ManifestPackage := {
  name : string;
  version : string;
}.

(** [ReleaseManifest] and [YarnInfoInspectData], as far as the finders read
    them; a property that is absent is not in the map. *)
Record ReleaseManifest := { packages : list ManifestPackage }.

Record YarnInfoInspectData := {
  dist_tags : gmap string string;
  time : gmap string string;
}.

Inductive Event :=
| ConsoleLog (line : string)
| FetchInfo (packageName : string).

(** [new Map(releaseManifest.packages.map(p => [p.name, p.version]))] *)
Definition releasePackages (releaseManifest : ReleaseManifest) : gmap string string :=
  fold_left (fun m p => <[name p := version p]> m) (packages releaseManifest) ∅.

(** A string or [undefined], when it passes [if (x)]. *)
Definition truthy (x : option string) : option string :=
  match x with
  | Some s => if bool_decide (s = "") then None else Some s
  | None => None
  end.

Definition checking (packageName : string) : Event :=
  ConsoleLog ("Checking for updates of " +:+ packageName).

Definition NotFoundError (message : string) : Exn := MkExn "NotFoundError" message.
Definition Error (message : string) : Exn := MkExn "Error" message.

(** [createStrictVersionFinder({ releaseManifest })(name)] *)
Definition strictFindTargetVersion (releaseManifest : ReleaseManifest) (packageName : string)
  : Completion string * list Event :=
  (match truthy (releasePackages releaseManifest !! packageName) with
   | Some manifestVersion => Normal manifestVersion
   | None =>
       Throw (NotFoundError ("Package " +:+ packageName +:+ " not found in release manifest"))
   end,
   [checking packageName]).

Section VersionFinder.
Context {World : Type}.

(** The options of [createVersionFinder], and [new Date(s).getTime()],
    which is [None] where JavaScript has [NaN]. *)
Variable releaseLine : option string.
Variable packageInfoFetcher : string -> World -> Completion YarnInfoInspectData * World.
Variable releaseManifest : ReleaseManifest.
Variable Date_getTime : string -> option Z.

Definition distTag : string :=
  let releaseLine := default "latest" releaseLine in
  if bool_decide (releaseLine = "main") then "latest" else releaseLine.

(** [a > b] *)
Definition greater (a b : option Z) : bool :=
  match a, b with
  | Some x, Some y => bool_decide (y < x)%Z
  | _, _ => false
  end.

(** One call of [findTargetVersion]: its completion, [found] and the world
    after it, and what it logged and fetched. *)
Definition findTargetVersion (packageName : string) (found : gmap string string) (w : World)
  : Completion string * gmap string string * World * list Event :=
  match truthy (found !! packageName) with
  | Some existing => (Normal existing, found, w, [])
  | None =>
      match truthy (releasePackages releaseManifest !! packageName) with
      | Some manifestVersion => (Normal manifestVersion, found, w, [checking packageName])
      | None =>
          let events := [checking packageName; FetchInfo packageName] in
          match packageInfoFetcher packageName w with
          | (Throw err, w') => (Throw err, found, w', events)
          | (Normal info, w') =>
              match truthy (dist_tags info !! "latest") with
              | None =>
                  (Throw (Error ("No target 'latest' version found for " +:+ packageName)),
                   found, w', events)
              | Some latestVersion =>
                  match (if bool_decide (distTag = "latest") then None
                         else truthy (dist_tags info !! distTag)) with
                  | None =>
                      (Normal latestVersion, <[packageName := latestVersion]> found, w', events)
                  | Some taggedVersion =>
                      match truthy (time info !! latestVersion),
                            truthy (time info !! taggedVersion) with
                      | None, _ =>
                          (Throw (Error ("No time available for version '" +:+ latestVersion
                                         +:+ "' of " +:+ packageName)),
                           found, w', events)
                      | Some _, None =>
                          (Throw (Error ("No time available for version '" +:+ taggedVersion
                                         +:+ "' of " +:+ packageName)),
                           found, w', events)
                      | Some latestVersionDateStr, Some taggedVersionDateStr =>
                          if greater (Date_getTime latestVersionDateStr)
                               (Date_getTime taggedVersionDateStr)
                          then (Normal latestVersion,
                                <[packageName := latestVersion]> found, w', events)
                          else (Normal taggedVersion,
                                <[packageName := taggedVersion]> found, w', events)
                      end
                  end
              end
          end
      end
  end.

(** [found] and the world after calls of the finder for the names of a
    list, in order. *)
Fixpoint after_lookups (names : list string) (found : gmap string string) (w : World)
  : gmap string string * World :=
  match names with
  | [] => (found, w)
  | packageName :: rest =>
      let '(_, found', w', _) := findTargetVersion packageName found w in
      after_lookups rest found' w'
  end.

End VersionFinder.

(** ** A manifest and a registry *)

Definition manifest : ReleaseManifest :=
  {| packages := [ {| name := "@backstage/core"; version := "1.0.0" |};
                   {| name := "@backstage/cli"; version := "0.17.0" |};
                   {| name := "@backstage/core"; version := "1.0.1" |} ] |}.

(** The registry answers for every package with the same tags; the world is
    the list of the packages asked for. *)
Definition registry (packageName : string) (w : list string)
  : Completion YarnInfoInspectData * list string :=
  (Normal {| dist_tags := {["latest" := "2.1.0"; "next" := "2.2.0-next.1"]};
             time := {["2.1.0" := "1650000000000"; "2.2.0-next.1" := "1651000000000"]} |},
   w ++ [packageName]).

(** Dates written as milliseconds. *)
Definition millis (s : string) : option Z :=
  match s with
  | "" => None
  | _ => let '(n, rest) := Reference.parse_digits 0 s in
         if bool_decide (rest = "") then Some n else None
  end.

End Versions.

(** * Properties *)

(** ** The regular expression *)

Example wrap_dump_parameter :
  wrap_dump "${{ parameters.count }}" = "${{ (  parameters.count  ) | dump }}".
Proof. reflexivity. Qed.

Example wrap_dump_mixed :
  wrap_dump "a-${{ x }}-${{ y }}-b" = "a-${{ (  x }}-${{ y  ) | dump }}-b".
Proof. reflexivity. Qed.

Example wrap_dump_lines :
  wrap_dump ("${{ x }}" +:+ String "010"%char "${{ y }}")
  = "${{ (  x  ) | dump }}" +:+ String "010"%char "${{ (  y  ) | dump }}".
Proof. reflexivity. Qed.

Lemma starts_with_app (p s : string) : starts_with p (p +:+ s) = true.
Proof.
  induction p as [|c p IH]; simpl; [done|].
  rewrite bool_decide_eq_true_2 by done. exact IH.
Qed.

Lemma str_take_app (a b : string) : str_take (String.length a) (a +:+ b) = a.
Proof. induction a as [|c a IH]; simpl; [by destruct b | by rewrite IH]. Qed.

Lemma line_prefix_id (s : string) :
  line_prefix s = s <-> forallb (fun c => negb (is_line_terminator c)) (list_ascii_of_string s) = true.
Proof.
  induction s as [|c s IH]; simpl; [done|].
  destruct (is_line_terminator c); simpl.
  - split; [discriminate | done].
  - rewrite <- IH. split; [by intros [=] | by intros ->].
Qed.

Lemma last_close_end (e : string) (idx : nat) :
  1 <= idx + String.length e ->
  last_close (e +:+ "}}") idx = Some (idx + String.length e).
Proof.
  revert idx. induction e as [|c e IH]; intros idx Hle.
  - simpl in *. rewrite bool_decide_eq_true_2 by lia. simpl. f_equal. lia.
  - change (String c e +:+ "}}") with (String c (e +:+ "}}")).
    cbn [last_close]. rewrite IH by (simpl in *; lia). simpl. f_equal. lia.
Qed.

Lemma replace_from_skip_all (s : string) : replace_from (String.length s) s = "".
Proof. induction s as [|c s IH]; simpl; done. Qed.

(** A string that is one [${{ e }}], with [e] on one line, is rewritten to
    [${{ ( e ) | dump }}]. *)
Lemma wrap_dump_expression (e : string) :
  e <> "" ->
  forallb (fun c => negb (is_line_terminator c)) (list_ascii_of_string e) = true ->
  wrap_dump ("${{" +:+ e +:+ "}}") = "${{ ( " +:+ e +:+ " ) | dump }}".
Proof.
  intros Hne Hline.
  assert (Hrun : line_prefix (e +:+ "}}") = e +:+ "}}").
  { apply line_prefix_id.
    assert (Happ : forall a b, list_ascii_of_string (a +:+ b)
                              = list_ascii_of_string a ++ list_ascii_of_string b).
    { intros a b. induction a as [|c a IH]; simpl; [done | by rewrite IH]. }
    rewrite Happ, forallb_app, Hline. reflexivity. }
  unfold wrap_dump.
  change ("${{" +:+ e +:+ "}}") with (String "$" (String "{" (String "{" (e +:+ "}}")))).
  cbn [replace_from]. unfold match_here.
  change (starts_with "${{" (String "$" (String "{" (String "{" (e +:+ "}}"))))) with true.
  cbn iota. change (str_drop 3 (String "$" (String "{" (String "{" (e +:+ "}}")))))
    with (e +:+ "}}").
  rewrite Hrun. cbn zeta.
  rewrite last_close_end by (destruct e; [done | simpl; lia]).
  simpl Nat.add. rewrite str_take_app.
  replace (String.length e + 4) with (S (S (String.length e + 2))) by lia.
  change (replace_from (S (S (String.length e + 2))) (String "{" (String "{" (e +:+ "}}"))))
    with (replace_from (String.length e + 2) (e +:+ "}}")).
  replace (String.length e + 2) with (String.length (e +:+ "}}")).
  - rewrite replace_from_skip_all. reflexivity.
  - clear. induction e as [|c e IH]; simpl; [done | rewrite IH; done].
Qed.

(** ** Strings *)

Lemma str_app_cons (x : ascii) (a b : string) : String x a +:+ b = String x (a +:+ b).
Proof. reflexivity. Qed.

Lemma str_app_assoc (a b c : string) : (a +:+ b) +:+ c = a +:+ (b +:+ c).
Proof.
  induction a as [|x a IH]; [done|]. rewrite !str_app_cons. by rewrite IH.
Qed.

Lemma str_app_nil_r (a : string) : a +:+ "" = a.
Proof.
  induction a as [|x a IH]; [done|]. rewrite str_app_cons. by rewrite IH.
Qed.

Lemma str_app_length (a b : string) :
  String.length (a +:+ b) = String.length a + String.length b.
Proof.
  induction a as [|x a IH]; [done|]. rewrite str_app_cons. simpl. by rewrite IH.
Qed.

(** ** The walk over a value *)

Lemma internalize_object (r : Value -> Value) (kvs : list (string * Value)) :
  internalize r (VObject kvs) = r (VObject (kept_props (internalize r) kvs)).
Proof.
  simpl. do 2 f_equal.
  induction kvs as [|[k x] kvs IH]; simpl; [done|].
  destruct (is_undefined (internalize r x)); simpl; by rewrite IH.
Qed.

Lemma internalize_array (r : Value -> Value) (xs : list Value) :
  internalize r (VArray xs) = r (VArray (map (internalize r) xs)).
Proof. reflexivity. Qed.

Lemma is_json_array (xs : list Value) : is_json (VArray xs) <-> Forall is_json xs.
Proof.
  simpl. induction xs as [|x xs IH]; [by split; [constructor|]|].
  rewrite Forall_cons. tauto.
Qed.

Lemma is_json_object (kvs : list (string * Value)) :
  is_json (VObject kvs) <-> NoDup (map fst kvs) /\ Forall (fun kv => is_json (snd kv)) kvs.
Proof.
  simpl. apply and_iff_compat_l.
  induction kvs as [|kv kvs IH]; [by split; [constructor|]|].
  rewrite Forall_cons. tauto.
Qed.

Lemma is_json_defined (v : Value) : is_json v -> is_undefined v = false.
Proof. by destruct v. Qed.

(** [JSON.stringify] then [JSON.parse] copies a JSON tree. *)
Lemma json_copy_json (v : Value) : is_json v -> json_copy v = v.
Proof.
  induction v as [| | | | |xs IH|kvs IH] using Value_tree_ind; try done.
  - rewrite is_json_array. intros Hjs. simpl. f_equal.
    induction xs as [|x xs IHxs]; [done|].
    apply Forall_cons in IH as [Hx IH]. apply Forall_cons in Hjs as [Hjx Hjs].
    simpl. rewrite (is_json_defined x Hjx), Hx by done. f_equal. by apply IHxs.
  - rewrite is_json_object. intros [_ Hjs]. simpl. f_equal.
    induction kvs as [|[k x] kvs IHkvs]; [done|].
    apply Forall_cons in IH as [Hx IH]. apply Forall_cons in Hjs as [Hjx Hjs].
    simpl in *. rewrite (is_json_defined x Hjx), Hx by done. f_equal. by apply IHkvs.
Qed.

Lemma string_leaves_object (kvs : list (string * Value)) :
  string_leaves (VObject kvs) = concat (map (fun kv => string_leaves (snd kv)) kvs).
Proof.
  simpl. induction kvs as [|[k x] kvs IH]; simpl; [done | by rewrite IH].
Qed.

Lemma assoc_None (k : string) (kvs : list (string * Value)) :
  k ∉ map fst kvs -> assoc k kvs = None.
Proof.
  induction kvs as [|[k' x] kvs IH]; simpl; [done|].
  intros Hnotin. apply not_elem_of_cons in Hnotin as [Hne Hnotin].
  rewrite bool_decide_eq_false_2 by done. by apply IH.
Qed.

Lemma kept_props_keys (f : Value -> Value) (k : string) (kvs : list (string * Value)) :
  k ∉ map fst kvs -> k ∉ map fst (kept_props f kvs).
Proof.
  unfold kept_props. induction kvs as [|[k' x] kvs IH]; simpl; [done|].
  intros Hnotin. apply not_elem_of_cons in Hnotin as [Hne Hnotin].
  destruct (is_undefined (f x)); simpl; [by apply IH|].
  apply not_elem_of_cons. split; [done | by apply IH].
Qed.

Lemma assoc_kept_props (f : Value -> Value) (k : string) (kvs : list (string * Value)) :
  NoDup (map fst kvs) ->
  assoc k (kept_props f kvs)
  = match assoc k kvs with
    | Some x => if is_undefined (f x) then None else Some (f x)
    | None => None
    end.
Proof.
  induction kvs as [|[k' x] kvs IH]; intros Hnd; [done|].
  apply NoDup_cons in Hnd as [Hnotin Hnd]. specialize (IH Hnd).
  unfold kept_props in *. simpl in *. case_bool_decide as Hk.
  - subst k'. destruct (is_undefined (f x)) eqn:Hu; simpl.
    + (* the property is deleted, and no later one has its name *)
      apply assoc_None. by apply (kept_props_keys f).
    + by rewrite bool_decide_eq_true_2.
  - destruct (is_undefined (f x)) eqn:Hu; simpl; [done|].
    by rewrite bool_decide_eq_false_2.
Qed.

(** ** render *)

Section RenderFacts.
Context {Schema : Type}.
Variable P : Platform Schema.

Lemma render_defined (input : Value) (context : TemplateContext) :
  is_undefined input = false ->
  render P input context = Normal (internalize (reviver P context) (json_copy input)).
Proof. unfold render. by intros ->. Qed.

Lemma render_truthy (input : Value) (context : TemplateContext) :
  js_truthy input = true ->
  render P input context = Normal (internalize (reviver P context) (json_copy input)).
Proof. intros Ht. apply render_defined. by destruct input. Qed.

Lemma render_string (s : string) (context : TemplateContext) :
  render P (VString s) context = Normal (reviver P context (VString s)).
Proof. reflexivity. Qed.

Lemma reviver_whole (s templated : string) (parsed : Value) (context : TemplateContext) :
  isSingleTemplateString P s = Normal true ->
  renderTemplate P (wrap_dump s) context = Normal templated ->
  templated <> "" ->
  JSON_parse P templated = Normal parsed ->
  reviver P context (VString s) = parsed.
Proof.
  intros Hsingle Hrender Hne Hparse. unfold reviver, render_single.
  rewrite Hsingle. simpl. rewrite Hrender. simpl.
  rewrite bool_decide_eq_false_2 by done. by rewrite Hparse.
Qed.

Lemma reviver_mixed (s templated : string) (context : TemplateContext) :
  isSingleTemplateString P s = Normal false ->
  renderTemplate P s context = Normal templated ->
  templated <> "" ->
  reviver P context (VString s) = VString templated.
Proof.
  intros Hsingle Hrender Hne. unfold reviver, render_single, render_plain.
  rewrite Hsingle. simpl. rewrite Hrender.
  by rewrite bool_decide_eq_false_2.
Qed.

Lemma reviver_empty (s : string) (context : TemplateContext) :
  renders_empty P context s -> reviver P context (VString s) = VUndefined.
Proof.
  unfold reviver, render_single, render_plain.
  intros [Hsingle Hrender | Hsingle Hrender | ex Hthrow Hrender].
  - rewrite Hsingle. simpl. by rewrite Hrender.
  - rewrite Hsingle. simpl. by rewrite Hrender.
  - unfold render_single in Hthrow. rewrite Hthrow. by rewrite Hrender.
Qed.

Lemma reviver_container (v : Value) (context : TemplateContext) :
  (forall s, v <> VString s) -> reviver P context v = v.
Proof. intros Hv. destruct v; try done. by destruct (Hv s). Qed.

(** A JSON tree is walked as it is, and its containers stay. *)
Lemma render_json (input : Value) (context : TemplateContext) :
  is_json input ->
  render P input context = Normal (internalize (reviver P context) input).
Proof.
  intros Hjs. rewrite render_defined by by apply is_json_defined.
  by rewrite json_copy_json.
Qed.

Lemma tree_lookup_internalize (context : TemplateContext) (s : string) (p : list PathStep) :
  reviver P context (VString s) = VUndefined ->
  forall v, is_json v ->
    tree_lookup p v = Some (VString s) ->
    tree_lookup p (internalize (reviver P context) v) = None.
Proof.
  intros Hleaf. induction p as [|[k|i] p IH]; intros v Hjs Hget.
  - simpl in Hget. destruct (is_undefined v); [done|]. injection Hget as ->.
    change (internalize (reviver P context) (VString s)) with (reviver P context (VString s)).
    by rewrite Hleaf.
  - destruct v as [| | | | | |kvs]; try done.
    apply is_json_object in Hjs as [Hnd Hjs].
    rewrite internalize_object. simpl in *.
    rewrite assoc_kept_props by done.
    destruct (assoc k kvs) as [x|] eqn:Hk; [|done].
    destruct (is_undefined _); [done|]. apply IH; [|done].
    clear -Hk Hjs. induction kvs as [|[k' x'] kvs IHk]; [done|].
    apply Forall_cons in Hjs as [Hx Hjs]. simpl in Hk.
    case_bool_decide; [by injection Hk as <- | by apply IHk].
  - destruct v as [| | | | |xs|]; try done.
    apply is_json_array in Hjs.
    rewrite internalize_array. simpl in *.
    rewrite list_lookup_fmap.
    destruct (xs !! i) as [x|] eqn:Hi; [|done]. simpl.
    apply IH; [|done]. by eapply Forall_lookup_1.
Qed.

Lemma internalize_expression_free (context : TemplateContext) (v : Value) :
  is_json v ->
  Forall (fun s => expression_free P s /\ s <> "") (string_leaves v) ->
  internalize (reviver P context) v = v.
Proof.
  induction v as [| | | |s|xs IH|kvs IH] using Value_tree_ind; try done.
  - intros _ Hleaves. apply Forall_singleton in Hleaves as [[Hsingle Hrender] Hne].
    simpl. f_equal. by apply reviver_mixed.
  - rewrite is_json_array. intros Hjs Hleaves. rewrite internalize_array. simpl. f_equal.
    simpl in Hleaves.
    induction xs as [|x xs IHxs]; [done|].
    apply Forall_cons in IH as [Hx IH]. apply Forall_cons in Hjs as [Hjx Hjs].
    simpl in Hleaves. apply Forall_app in Hleaves as [Hlx Hlxs].
    simpl. rewrite Hx by done. f_equal. by apply IHxs.
  - rewrite is_json_object, string_leaves_object. intros [_ Hjs] Hleaves.
    rewrite internalize_object. simpl. f_equal.
    induction kvs as [|[k x] kvs IHkvs]; [done|].
    apply Forall_cons in IH as [Hx IH]. apply Forall_cons in Hjs as [Hjx Hjs].
    simpl in *. apply Forall_app in Hleaves as [Hlx Hlkvs].
    unfold kept_props in *. simpl.
    rewrite Hx by done. rewrite (is_json_defined x Hjx). simpl. f_equal. by apply IHkvs.
Qed.

(** A string that is one template expression on one line is rendered
    through the [dump] rewrite and the JSON text that comes back is parsed,
    so the string becomes the value that text denotes, of whatever type: for
    [${{ e }}] the engine is handed [${{ ( e ) | dump }}].  With an engine
    that evaluates [parameters.count] to 3, ["${{ parameters.count }}"]
    renders to the number 3, and the mixed text
    ["prefix-${{ parameters.count }}"] to the string ["prefix-3"]. *)
Lemma render_one_line_expression (context : TemplateContext) :
  (forall s templated parsed,
      isSingleTemplateString P s = Normal true ->
      renderTemplate P (wrap_dump s) context = Normal templated ->
      templated <> "" ->
      JSON_parse P templated = Normal parsed ->
      render P (VString s) context = Normal parsed) /\
  (forall e templated parsed,
      e <> "" ->
      forallb (fun c => negb (is_line_terminator c)) (list_ascii_of_string e) = true ->
      isSingleTemplateString P ("${{" +:+ e +:+ "}}") = Normal true ->
      renderTemplate P ("${{ ( " +:+ e +:+ " ) | dump }}") context = Normal templated ->
      templated <> "" ->
      JSON_parse P templated = Normal parsed ->
      render P (VString ("${{" +:+ e +:+ "}}")) context = Normal parsed) /\
  (isSingleTemplateString P "${{ parameters.count }}" = Normal true ->
   renderTemplate P "${{ (  parameters.count  ) | dump }}" context = Normal "3" ->
   JSON_parse P "3" = Normal (VNumber 3) ->
   render P (VString "${{ parameters.count }}") context = Normal (VNumber 3)) /\
  (isSingleTemplateString P "prefix-${{ parameters.count }}" = Normal false ->
   renderTemplate P "prefix-${{ parameters.count }}" context = Normal "prefix-3" ->
   render P (VString "prefix-${{ parameters.count }}") context = Normal (VString "prefix-3")).
Proof.
  split_and!.
  - intros s templated parsed Hsingle Hrender Hne Hparse.
    rewrite render_string. f_equal. by eapply reviver_whole.
  - intros e templated parsed He Hline Hsingle Hrender Hne Hparse.
    rewrite render_string. f_equal.
    apply (reviver_whole _ templated); try done.
    by rewrite wrap_dump_expression.
  - intros Hsingle Hrender Hparse.
    rewrite render_string. f_equal.
    by apply (reviver_whole _ "3").
  - intros Hsingle Hrender.
    rewrite render_string. f_equal.
    by apply reviver_mixed.
Qed.

(** C1.  A string leaf that is one template expression and that the [dump]
    rewrite leaves as it is, as it does an expression written over a line
    end, is rendered as plain template text: [JSON.parse] is tried on the
    text of its value, and when it rejects that text the leaf becomes a
    string holding the text, whatever the type of the value, and a line goes
    to the error log. *)
Theorem whole_expression_without_dump_is_text (context : TemplateContext)
    (k s text : string) (ex : Exn) :
  isSingleTemplateString P s = Normal true ->
  wrap_dump s = s ->
  renderTemplate P s context = Normal text ->
  text <> "" ->
  JSON_parse P text = Throw ex ->
  render P (VString s) context = Normal (VString text) /\
  render P (VObject [(k, VString s)]) context = Normal (VObject [(k, VString text)]) /\
  render_errors P (VString s) context
  = ["Failed to parse template string: " +:+ s +:+ " with error " +:+ exn_message ex].
Proof.
  intros Hsingle Hwrap Hrender Hne Hparse.
  assert (Hthrow : render_single P s context = Throw ex).
  { unfold render_single. rewrite Hsingle. simpl. rewrite Hwrap, Hrender. simpl.
    rewrite bool_decide_eq_false_2 by done. by rewrite Hparse. }
  assert (Hleaf : reviver P context (VString s) = VString text).
  { unfold reviver, render_plain. rewrite Hthrow, Hrender.
    by rewrite bool_decide_eq_false_2. }
  split_and!.
  - by rewrite render_string, Hleaf.
  - rewrite render_defined by done. simpl. unfold render_plain.
    rewrite Hthrow, Hrender. by rewrite bool_decide_eq_false_2.
  - unfold render_errors. simpl. unfold reviver_errors. by rewrite Hthrow.
Qed.

(** C7, amended.  A string leaf of a JSON tree for which the engine returns
    the empty string, for the dump-rewritten string when the leaf is a whole
    expression and for the leaf itself when it is mixed text, is not in the
    tree that [render] returns: nothing sits at its path. *)
Theorem render_drops_empty_leaf (input : Value) (context : TemplateContext)
    (p : list PathStep) (s : string) :
  is_json input ->
  tree_lookup p input = Some (VString s) ->
  renders_empty P context s ->
  exists out, render P input context = Normal out /\ tree_lookup p out = None.
Proof.
  intros Hjs Hget Hempty. eexists. split; [by apply render_json|].
  eapply tree_lookup_internalize; [|done..]. by apply reviver_empty.
Qed.

(** C8, amended.  A JSON tree whose strings hold no template expression and
    are not empty is rendered to itself. *)
Theorem render_expression_free_identity (input : Value) (context : TemplateContext) :
  is_json input ->
  Forall (fun s => expression_free P s /\ s <> "") (string_leaves input) ->
  render P input context = Normal input.
Proof.
  intros Hjs Hleaves. rewrite render_json by done.
  by rewrite internalize_expression_free.
Qed.

(** An empty string holds no template expression, and is dropped. *)
Lemma render_drops_empty_string (context : TemplateContext) (k : string) :
  expression_free P "" ->
  render P (VObject [(k, VString "")]) context = Normal (VObject []).
Proof.
  intros [Hsingle Hrender]. rewrite render_defined by done.
  simpl. unfold render_single, render_plain. rewrite Hsingle. simpl.
  by rewrite Hrender.
Qed.

(** *** The shape of what [render] returns *)

Lemma internalize_fixed (context : TemplateContext) (v : Value) :
  is_json v ->
  Forall (fun s => reviver P context (VString s) = VString s) (string_leaves v) ->
  internalize (reviver P context) v = v.
Proof.
  induction v as [| | | |s|xs IH|kvs IH] using Value_tree_ind; try done.
  - intros _ Hleaves. apply (Forall_singleton _ s) in Hleaves. exact Hleaves.
  - rewrite is_json_array. intros Hjs Hleaves. rewrite internalize_array. simpl. f_equal.
    simpl in Hleaves.
    induction xs as [|x xs IHxs]; [done|].
    apply Forall_cons in IH as [Hx IH]. apply Forall_cons in Hjs as [Hjx Hjs].
    simpl in Hleaves. apply Forall_app in Hleaves as [Hlx Hlxs].
    simpl. rewrite Hx by done. f_equal. by apply IHxs.
  - rewrite is_json_object, string_leaves_object. intros [_ Hjs] Hleaves.
    rewrite internalize_object. simpl. f_equal.
    induction kvs as [|[k x] kvs IHkvs]; [done|].
    apply Forall_cons in IH as [Hx IH]. apply Forall_cons in Hjs as [Hjx Hjs].
    simpl in *. apply Forall_app in Hleaves as [Hlx Hlkvs].
    unfold kept_props in *. simpl.
    rewrite Hx by done. rewrite (is_json_defined x Hjx). simpl. f_equal. by apply IHkvs.
Qed.

(** X14.  [render] does not fail when the template engine does: a JSON tree
    on whose strings the engine throws, on the string as it is and on the
    string with the [dump] rewrite, is returned as it is. *)
Theorem render_returns_input_when_engine_throws (input : Value) (context : TemplateContext) :
  is_json input ->
  Forall (fun s => (exists err, renderTemplate P s context = Throw err) /\
                   (exists err, renderTemplate P (wrap_dump s) context = Throw err))
    (string_leaves input) ->
  render P input context = Normal input.
Proof.
  intros Hjs Hleaves. rewrite render_json by done. f_equal.
  apply internalize_fixed; [done|].
  eapply Forall_impl; [exact Hleaves|].
  intros s [[err Hplain] [err' Hwrapped]].
  unfold reviver, render_single, render_plain.
  destruct (isSingleTemplateString P s) as [[]|]; cbn [cbind]; rewrite ?Hwrapped; cbn [cbind];
    by rewrite Hplain.
Qed.

Lemma kept_props_sublist (f : Value -> Value) (kvs : list (string * Value)) :
  sublist (map fst (kept_props f kvs)) (map fst kvs).
Proof.
  unfold kept_props. induction kvs as [|[k x] kvs IH]; simpl; [done|].
  destruct (is_undefined (f x)); simpl; [by apply sublist_cons | by apply sublist_skip].
Qed.

Lemma kept_props_elem (f : Value -> Value) (kvs : list (string * Value)) (k : string)
    (y : Value) :
  (k, y) ∈ kept_props f kvs -> is_undefined y = false /\ exists x, (k, x) ∈ kvs /\ f x = y.
Proof.
  unfold kept_props. intros ([k' x] & Hin & Hsome)%list_elem_of_omap. simpl in Hsome.
  destruct (is_undefined (f x)) eqn:Hu; [done|]. injection Hsome as -> <-.
  split; [done | by exists x].
Qed.

(** X15.  [render] works through a JSON tree node by node.  An array
    renders to an array of the same length whose elements are the renderings
    of its elements; an object renders to an object whose properties are
    among those of the input, in their order, each holding the rendering of
    what the input holds under its name, and none holding [undefined]; and
    [null], a boolean or a number renders to itself. *)
Theorem render_keeps_the_shape (context : TemplateContext) :
  (forall xs, is_json (VArray xs) ->
     exists ys, render P (VArray xs) context = Normal (VArray ys) /\
                Forall2 (fun x y => render P x context = Normal y) xs ys) /\
  (forall kvs, is_json (VObject kvs) ->
     exists kvs', render P (VObject kvs) context = Normal (VObject kvs') /\
                  sublist (map fst kvs') (map fst kvs) /\
                  forall k y, (k, y) ∈ kvs' ->
                              is_undefined y = false /\
                              exists x, (k, x) ∈ kvs /\ render P x context = Normal y) /\
  render P VNull context = Normal VNull /\
  (forall b, render P (VBool b) context = Normal (VBool b)) /\
  (forall n, render P (VNumber n) context = Normal (VNumber n)).
Proof.
  split_and!; try done.
  - intros xs Hjs. exists (map (internalize (reviver P context)) xs). split.
    + by rewrite render_json.
    + apply is_json_array in Hjs. apply Forall2_fmap_r, Forall_Forall2_diag.
      eapply Forall_impl; [exact Hjs|]. intros x Hx. by apply render_json.
  - intros kvs Hjs. exists (kept_props (internalize (reviver P context)) kvs). split_and!.
    + by rewrite render_json, internalize_object.
    + apply kept_props_sublist.
    + intros k y Hin. apply kept_props_elem in Hin as (Hdef & x & Hin & <-).
      split; [done|]. exists x. split; [done|]. apply render_json.
      apply is_json_object in Hjs as [_ Hjs].
      by apply (proj1 (Forall_forall _ _) Hjs (k, x)).
Qed.

(** X16.  When the attempt to render a string as one expression throws, in
    the parser, in the engine or in [JSON.parse], the error is logged once,
    with the string and the message of what was thrown, and the string is
    rendered as plain text. *)
Theorem failed_expression_falls_back_to_text (s templated : string) (ex : Exn)
    (context : TemplateContext) :
  render_single P s context = Throw ex ->
  renderTemplate P s context = Normal templated ->
  templated <> "" ->
  render P (VString s) context = Normal (VString templated) /\
  render_errors P (VString s) context
  = ["Failed to parse template string: " +:+ s +:+ " with error " +:+ exn_message ex].
Proof.
  intros Hsingle Hplain Hne. split.
  - rewrite render_string. unfold reviver, render_plain. rewrite Hsingle, Hplain.
    by rewrite bool_decide_eq_false_2.
  - unfold render_errors, reviver_errors. simpl. by rewrite Hsingle.
Qed.

End RenderFacts.

(** *** On the reference platform *)

Example render_one_line_expression_count :
  render Reference.platform (VString "${{ parameters.count }}")
    (Reference.context [("count", VNumber 3)]) = Normal (VNumber 3) /\
  render Reference.platform (VString "prefix-${{ parameters.count }}")
    (Reference.context [("count", VNumber 3)]) = Normal (VString "prefix-3").
Proof.
  destruct (render_one_line_expression Reference.platform
              (Reference.context [("count", VNumber 3)])) as (_ & _ & Hwhole & Hmixed).
  split; [apply Hwhole | apply Hmixed]; reflexivity.
Qed.

(** The expression [parameters.repo] written over two lines, where
    [parameters.repo] is an object: the leaf becomes the string
    ["[object Object]"]. *)
Lemma whole_expression_without_dump_is_text_witness :
  render Reference.platform (VString Reference.two_line_expression)
    (Reference.context [("repo", VObject [("owner", VString "acme")])])
  = Normal (VString "[object Object]") /\
  render Reference.platform (VObject [("repo", VString Reference.two_line_expression)])
    (Reference.context [("repo", VObject [("owner", VString "acme")])])
  = Normal (VObject [("repo", VString "[object Object]")]) /\
  render_errors Reference.platform (VString Reference.two_line_expression)
    (Reference.context [("repo", VObject [("owner", VString "acme")])])
  = ["Failed to parse template string: " +:+ Reference.two_line_expression +:+ " with error "
     +:+ exn_message (SyntaxError "Unexpected token in JSON")].
Proof.
  apply (whole_expression_without_dump_is_text Reference.platform
           (Reference.context [("repo", VObject [("owner", VString "acme")])])
           "repo" Reference.two_line_expression "[object Object]"
           (SyntaxError "Unexpected token in JSON")).
  - reflexivity.
  - reflexivity.
  - reflexivity.
  - discriminate.
  - reflexivity.
Defined.

Lemma render_drops_empty_leaf_witness :
  exists out,
    render Reference.platform
      (VObject [("name", VString "app"); ("description", VString "${{ parameters.description }}")])
      (Reference.context [("name", VString "app")]) = Normal out /\
    tree_lookup [Key "description"] out = None.
Proof.
  apply (render_drops_empty_leaf Reference.platform _ _ _ "${{ parameters.description }}").
  - simpl. split; [|done]. apply (bool_decide_unpack _). reflexivity.
  - reflexivity.
  - apply whole_expression_empty; reflexivity.
Defined.

Lemma render_expression_free_identity_witness :
  render Reference.platform
    (VObject [("name", VString "app"); ("replicas", VNumber 2);
              ("tags", VArray [VString "a"; VBool true; VNull])])
    (Reference.context []) =
  Normal (VObject [("name", VString "app"); ("replicas", VNumber 2);
                   ("tags", VArray [VString "a"; VBool true; VNull])]).
Proof.
  apply render_expression_free_identity.
  - simpl. split; [|done]. apply (bool_decide_unpack _). reflexivity.
  - repeat constructor; done.
Defined.

(** The tree [{ description: "" }] holds no template expression, and
    [render] returns [{}] for it. *)
Lemma render_expression_free_counterexample :
  let input := VObject [("description", VString "")] in
  is_json input /\
  Forall (expression_free Reference.platform) (string_leaves input) /\
  render Reference.platform input (Reference.context []) = Normal (VObject []) /\
  render Reference.platform input (Reference.context []) <> Normal input.
Proof.
  simpl. repeat split; try done.
  - apply (bool_decide_unpack _). reflexivity.
  - repeat constructor; done.
Qed.

(** ** The step loop *)

Section RunnerFacts.
Context {World Schema : Type}.
Variable P : Platform Schema.
Variable options : NunjucksWorkflowRunnerOptions World Schema.

Implicit Types (task : TaskContext) (step : TaskStep) (context : TemplateContext).
Implicit Types (w : World) (t : list Event).

Local Open Scope run_scope.

Local Abbreviation if_trace := (if_trace P).
Local Abbreviation input_trace := (input_trace P).
Local Abbreviation dry_run_output := (dry_run_output P).
Local Abbreviation input_valid := (input_valid P).
Local Abbreviation invalid_input := (invalid_input P).
Local Abbreviation StepRun := (StepRun P options).
Local Abbreviation output_trace := (output_trace P).
Local Abbreviation response_of := (response_of P).

Lemma bind_assoc {A B C} (m : M A) (f : A -> M B) (g : B -> M C) w :
  bind (World := World) (bind m f) g w = bind m (fun a => bind (f a) g) w.
Proof.
  unfold bind. destruct (m w) as [[[a|e] w1] t1]; [|done].
  destruct (f a w1) as [[[b|e] w2] t2]; [|done].
  destruct (g b w2) as [[r w3] t3]. by rewrite app_assoc.
Qed.

Lemma run_steps_app task ws (l1 l2 : list TaskStep) context w :
  run_steps P options task ws (l1 ++ l2) context w
  = bind (run_steps P options task ws l1 context) (run_steps P options task ws l2) w.
Proof.
  revert context w. induction l1 as [|step l1 IH]; intros context w.
  - simpl. unfold bind, ret.
    destruct (run_steps _ _ _ _ l2 context w) as [[r w'] t]. reflexivity.
  - simpl. rewrite bind_assoc. unfold bind at 1 2.
    destruct (run_step _ _ _ _ step context w) as [[[c|e] w1] t1]; [|done].
    by rewrite IH.
Qed.

Lemma handler_calls_app t1 t2 :
  handler_calls (t1 ++ t2) = handler_calls t1 ++ handler_calls t2.
Proof. unfold handler_calls. by rewrite omap_app. Qed.

Lemma handler_steps_app t1 t2 :
  handler_steps (t1 ++ t2) = handler_steps t1 ++ handler_steps t2.
Proof. unfold handler_steps. by rewrite handler_calls_app, map_app. Qed.

Lemma registry_gets_app t1 t2 :
  registry_gets (t1 ++ t2) = registry_gets t1 ++ registry_gets t2.
Proof. unfold registry_gets. by rewrite omap_app. Qed.

Lemma renders_app t1 t2 : renders (t1 ++ t2) = renders t1 ++ renders t2.
Proof. unfold renders. by rewrite omap_app. Qed.

Lemma handler_calls_logger (msgs : list string) :
  handler_calls (map EvLoggerError msgs) = [].
Proof. induction msgs; simpl; done. Qed.

Lemma registry_gets_logger (msgs : list string) :
  registry_gets (map EvLoggerError msgs) = [].
Proof. induction msgs; simpl; done. Qed.

Lemma renders_logger (msgs : list string) : renders (map EvLoggerError msgs) = [].
Proof. induction msgs; simpl; done. Qed.

Lemma handler_calls_mkdtemp (dirs : list string) :
  handler_calls (map EvMkdtemp dirs) = [].
Proof. induction dirs; simpl; done. Qed.

Lemma renders_mkdtemp (dirs : list string) : renders (map EvMkdtemp dirs) = [].
Proof. induction dirs; simpl; done. Qed.

Lemma handler_calls_remove (dirs : list string) :
  handler_calls (map EvRemove dirs) = [].
Proof. induction dirs; simpl; done. Qed.

Lemma renders_remove (dirs : list string) : renders (map EvRemove dirs) = [].
Proof. induction dirs; simpl; done. Qed.

Lemma registry_gets_mkdtemp (dirs : list string) : registry_gets (map EvMkdtemp dirs) = [].
Proof. induction dirs; simpl; done. Qed.

Lemma registry_gets_remove (dirs : list string) : registry_gets (map EvRemove dirs) = [].
Proof. induction dirs; simpl; done. Qed.

Create Rewrite HintDb trace.
Hint Rewrite handler_calls_app handler_steps_app registry_gets_app renders_app
  handler_calls_logger registry_gets_logger renders_logger
  handler_calls_mkdtemp renders_mkdtemp handler_calls_remove renders_remove
  registry_gets_mkdtemp registry_gets_remove @app_nil_r : trace.

Lemma do_render_run site (input : Value) context w :
  do_render P site input context w
  = (render P input context, w,
     EvRender site input context :: map EvLoggerError (render_errors P input context)).
Proof.
  unfold do_render, bind, emit, emit_all, lift. simpl. by rewrite app_nil_r.
Qed.

Lemma check_if_run step context w :
  check_if P step context w
  = (Normal (skipped_by_if P step context), w,
     if_trace step context
     ++ (if skipped_by_if P step context then [skipped_falsy step] else [])).
Proof.
  unfold check_if, skipped_by_if, if_trace.
  destruct (js_truthy (step_if step)) eqn:Hif; [|done]. simpl.
  unfold bind. rewrite do_render_run, render_truthy by done.
  destruct (isTruthy P _); simpl; by rewrite ?app_nil_r.
Qed.

Lemma input_of_normal task step context :
  exists input, input_of P task step context = Normal input.
Proof.
  unfold input_of. destruct (js_truthy (step_input step)) eqn:Hin; [|by eexists].
  rewrite render_truthy by done. by eexists.
Qed.

Lemma step_input_value_run task step context w :
  step_input_value P task step context w
  = (input_of P task step context, w, input_trace task step context).
Proof.
  unfold step_input_value, input_of, input_trace, bind.
  destruct (js_truthy (step_input step)) eqn:Hin; [|done].
  rewrite do_render_run. destruct (render P _ _); simpl; by rewrite ?app_nil_r.
Qed.

Lemma check_input_run (action : TemplateAction World Schema) (input : Value) w :
  check_input P action input w
  = (if input_valid action input then Normal tt else Throw (invalid_input action input), w, []).
Proof.
  unfold check_input, input_valid, invalid_input.
  destruct (input_schema action) as [sch|]; [|done].
  by destruct (valid _).
Qed.

Lemma call_handler_run task ws step (action : TemplateAction World Schema) (input : Value) w :
  call_handler task ws step action input w
  = let run := fst (action_handler action (handler_args task ws input) w) in
    (match run_thrown run with
     | Some err => Throw err
     | None => Normal (tmp_dirs ws step run, collect_outputs (run_outputs run))
     end,
     snd (action_handler action (handler_args task ws input) w),
     EvHandler step (handler_args task ws input) :: map EvMkdtemp (tmp_dirs ws step run)).
Proof. unfold call_handler. by destruct (action_handler _ _ _). Qed.

(** *** The six ways through one iteration *)

Ltac run_open :=
  unfold run_step, step_body, try_catch, tracker_stepStart, taskTrack_markFailed,
    stepTrack_markFailed, taskTrack_skipDryRun, stepTrack_markSuccessful.

Ltac run_simpl :=
  repeat first
    [ rewrite check_if_run
    | rewrite step_input_value_run
    | rewrite check_input_run
    | rewrite call_handler_run
    | progress unfold bind, emit, emit_all, lift, ret, throw
    | progress cbn beta iota zeta ].

Lemma run_step_skipped task ws step context w :
  skipped_by_if P step context = true ->
  run_step P options task ws step context w
  = (Normal context, w, started step :: if_trace step context ++ [skipped_falsy step]).
Proof.
  intros Hskip. run_open. run_simpl. rewrite Hskip. run_simpl.
  by rewrite app_nil_r.
Qed.

Lemma run_step_unresolved task ws step context w err :
  skipped_by_if P step context = false ->
  actionRegistry_get options (step_action step) = Throw err ->
  run_step P options task ws step context w
  = (Throw err, w,
     started step :: (if_trace step context ++ [EvRegistryGet (step_action step)])
     ++ failed task step err).
Proof.
  intros Hskip Hget. run_open. run_simpl. rewrite Hskip. run_simpl.
  rewrite Hget. run_simpl. by rewrite !app_nil_r.
Qed.

Lemma run_step_dry_run task ws step context w action :
  skipped_by_if P step context = false ->
  actionRegistry_get options (step_action step) = Normal action ->
  skips_for_dry_run task action = true ->
  run_step P options task ws step context w
  = (Normal (set_step_output context (step_id step) (dry_run_output action)), w,
     started step :: if_trace step context
     ++ [EvRegistryGet (step_action step); skipped_dry_run step action]).
Proof.
  intros Hskip Hget Hdry. run_open. run_simpl. rewrite Hskip. run_simpl.
  rewrite Hget. run_simpl. rewrite Hdry. run_simpl. by rewrite !app_nil_r.
Qed.

Lemma run_step_invalid task ws step context w action input :
  skipped_by_if P step context = false ->
  actionRegistry_get options (step_action step) = Normal action ->
  skips_for_dry_run task action = false ->
  input_of P task step context = Normal input ->
  input_valid action input = false ->
  run_step P options task ws step context w
  = (Throw (invalid_input action input), w,
     started step
     :: (if_trace step context ++ EvRegistryGet (step_action step) :: input_trace task step context)
     ++ failed task step (invalid_input action input)).
Proof.
  intros Hskip Hget Hdry Hin Hvalid. run_open. run_simpl. rewrite Hskip. run_simpl.
  rewrite Hget. run_simpl. rewrite Hdry. run_simpl. rewrite Hin. run_simpl.
  rewrite Hvalid. run_simpl. by rewrite !app_nil_r.
Qed.

Lemma run_step_handler_threw task ws step context w action input err :
  skipped_by_if P step context = false ->
  actionRegistry_get options (step_action step) = Normal action ->
  skips_for_dry_run task action = false ->
  input_of P task step context = Normal input ->
  input_valid action input = true ->
  run_thrown (fst (action_handler action (handler_args task ws input) w)) = Some err ->
  run_step P options task ws step context w
  = (Throw err, snd (action_handler action (handler_args task ws input) w),
     started step
     :: (if_trace step context ++ EvRegistryGet (step_action step)
         :: input_trace task step context
         ++ EvHandler step (handler_args task ws input)
         :: map EvMkdtemp
              (tmp_dirs ws step (fst (action_handler action (handler_args task ws input) w))))
     ++ failed task step err).
Proof.
  intros Hskip Hget Hdry Hin Hvalid Hthrown. run_open. run_simpl. rewrite Hskip. run_simpl.
  rewrite Hget. run_simpl. rewrite Hdry. run_simpl. rewrite Hin. run_simpl.
  rewrite Hvalid. run_simpl. rewrite Hthrown. run_simpl. by rewrite !app_nil_r.
Qed.

Lemma run_step_success task ws step context w action input :
  skipped_by_if P step context = false ->
  actionRegistry_get options (step_action step) = Normal action ->
  skips_for_dry_run task action = false ->
  input_of P task step context = Normal input ->
  input_valid action input = true ->
  run_thrown (fst (action_handler action (handler_args task ws input) w)) = None ->
  run_step P options task ws step context w
  = (Normal (set_step_output context (step_id step)
               (collect_outputs
                  (run_outputs (fst (action_handler action (handler_args task ws input) w))))),
     snd (action_handler action (handler_args task ws input) w),
     started step
     :: if_trace step context ++ EvRegistryGet (step_action step)
     :: input_trace task step context
     ++ EvHandler step (handler_args task ws input)
     :: map EvMkdtemp
          (tmp_dirs ws step (fst (action_handler action (handler_args task ws input) w)))
     ++ map EvRemove
          (tmp_dirs ws step (fst (action_handler action (handler_args task ws input) w)))
     ++ succeeded step).
Proof.
  intros Hskip Hget Hdry Hin Hvalid Hthrown. run_open. run_simpl. rewrite Hskip. run_simpl.
  rewrite Hget. run_simpl. rewrite Hdry. run_simpl. rewrite Hin. run_simpl.
  rewrite Hvalid. run_simpl. rewrite Hthrown. run_simpl. by rewrite !app_nil_r.
Qed.

Lemma run_step_outcome task ws step context w :
  StepRun task ws step context w (run_step P options task ws step context w).
Proof.
  destruct (skipped_by_if P step context) eqn:Hskip.
  { rewrite run_step_skipped by done. by constructor. }
  destruct (actionRegistry_get options (step_action step)) as [action|err] eqn:Hget.
  2: { erewrite run_step_unresolved by done. by constructor. }
  destruct (skips_for_dry_run task action) eqn:Hdry.
  { erewrite run_step_dry_run by done. by econstructor. }
  destruct (input_of_normal task step context) as [input Hin].
  destruct (input_valid action input) eqn:Hvalid.
  2: { erewrite run_step_invalid by done. by econstructor. }
  destruct (run_thrown (fst (action_handler action (handler_args task ws input) w)))
    as [err|] eqn:Hthrown.
  - erewrite run_step_handler_threw by done. by econstructor.
  - erewrite run_step_success by done. by econstructor.
Qed.

(** *** What every iteration keeps *)

Lemma renders_if_trace step context :
  renders (if_trace step context)
  = if js_truthy (step_if step) then [(SiteIf (step_id step), context)] else [].
Proof.
  unfold if_trace. destruct (js_truthy _); [|done]. cbn. by rewrite renders_logger.
Qed.

Lemma renders_input_trace task step context :
  renders (input_trace task step context)
  = if js_truthy (step_input step)
    then [(SiteInput (step_id step), with_secrets context (task_secrets_or_empty task))]
    else [].
Proof.
  unfold input_trace. destruct (js_truthy _); [|done]. cbn. by rewrite renders_logger.
Qed.

Lemma handler_calls_if_trace step context : handler_calls (if_trace step context) = [].
Proof.
  unfold if_trace. destruct (js_truthy _); [|done]. cbn. by rewrite handler_calls_logger.
Qed.

Lemma handler_calls_input_trace task step context :
  handler_calls (input_trace task step context) = [].
Proof.
  unfold input_trace. destruct (js_truthy _); [|done]. cbn. by rewrite handler_calls_logger.
Qed.

Lemma registry_gets_if_trace step context : registry_gets (if_trace step context) = [].
Proof.
  unfold if_trace. destruct (js_truthy _); [|done]. cbn. by rewrite registry_gets_logger.
Qed.

Lemma registry_gets_input_trace task step context :
  registry_gets (input_trace task step context) = [].
Proof.
  unfold input_trace. destruct (js_truthy _); [|done]. cbn. by rewrite registry_gets_logger.
Qed.

Hint Rewrite renders_if_trace renders_input_trace handler_calls_if_trace
  handler_calls_input_trace registry_gets_if_trace registry_gets_input_trace : trace.

Lemma renders_cons (ev : Event) t :
  renders (ev :: t)
  = match ev with EvRender site _ c => [(site, c)] | _ => [] end ++ renders t.
Proof. by destruct ev. Qed.

Lemma handler_calls_cons (ev : Event) t :
  handler_calls (ev :: t)
  = match ev with EvHandler step args => [(step, args)] | _ => [] end ++ handler_calls t.
Proof. by destruct ev. Qed.

Lemma registry_gets_cons (ev : Event) t :
  registry_gets (ev :: t)
  = match ev with EvRegistryGet a => [a] | _ => [] end ++ registry_gets t.
Proof. by destruct ev. Qed.

Lemma renders_nil : renders [] = [].
Proof. reflexivity. Qed.
Lemma handler_calls_nil : handler_calls [] = [].
Proof. reflexivity. Qed.
Lemma registry_gets_nil : registry_gets [] = [].
Proof. reflexivity. Qed.

Hint Rewrite renders_cons handler_calls_cons registry_gets_cons
  renders_nil handler_calls_nil registry_gets_nil : trace.

(** The projections of a trace that is written out. *)
Ltac trace_simpl :=
  unfold handler_steps, started, skipped_falsy, skipped_dry_run, failed, succeeded;
  cbn [fst snd]; autorewrite with trace; cbn [app map fst snd].

Lemma run_step_keeps task ws step context w r w' t :
  run_step P options task ws step context w = (r, w', t) ->
  Forall (render_of_step task step context) (renders t) /\
  (handler_steps t = [] \/ handler_steps t = [step]) /\
  (forall c, r = Normal c ->
             c = context \/ exists out, c = set_step_output context (step_id step) out).
Proof.
  intros Hrun. pose proof (run_step_outcome task ws step context w) as Hout.
  rewrite Hrun in Hout. inversion Hout; subst; clear Hout.
  all: trace_simpl.
  all: split_and!;
    [ repeat (destruct (js_truthy _)); cbn [app];
      repeat apply Forall_cons_2; try apply Forall_nil_2; unfold render_of_step; auto
    | auto
    | intros c [= <-]; eauto ].
Qed.

(** An invariant of the context, and what it gives for every rendering. *)
Lemma run_steps_invariant task ws (Inv : TemplateContext -> Prop)
    (Q : RenderSite * TemplateContext -> Prop) (l : list TaskStep) :
  (forall step context, step ∈ l -> Inv context ->
     Q (SiteIf (step_id step), context) /\
     Q (SiteInput (step_id step), with_secrets context (task_secrets_or_empty task)) /\
     forall out, Inv (set_step_output context (step_id step) out)) ->
  forall context w r w' t,
    Inv context ->
    run_steps P options task ws l context w = (r, w', t) ->
    Forall Q (renders t) /\ forall c, r = Normal c -> Inv c.
Proof.
  induction l as [|step l IH]; intros Hstep context w r w' t Hinv Hrun.
  - injection Hrun as <- <- <-. split; [constructor | by intros c [= <-]].
  - simpl in Hrun. unfold bind in Hrun.
    destruct (run_step P options task ws step context w) as [[r1 w1] t1] eqn:Hrun1.
    apply run_step_keeps in Hrun1 as (Hrend & _ & Hctx).
    destruct (Hstep step context) as (Hif & Hin & Hset); [by left | done |].
    assert (Hq1 : Forall Q (renders t1)).
    { eapply Forall_impl; [exact Hrend|]. by intros x [-> | ->]. }
    destruct r1 as [c1|e1].
    + destruct (run_steps P options task ws l c1 w1) as [[r2 w2] t2] eqn:Hrun2.
      injection Hrun as <- <- <-.
      apply IH in Hrun2 as [Hq2 Hr2].
      * rewrite renders_app, Forall_app. done.
      * intros step' context' Hin'. apply Hstep. by right.
      * destruct (Hctx c1 eq_refl) as [-> | [out ->]]; [done | apply Hset].
    + injection Hrun as <- <- <-. split; [done | by intros c [=]].
Qed.

(** Handlers run for steps of the list, in its order, at most once each. *)
Lemma run_steps_handlers task ws (l : list TaskStep) context w r w' t :
  run_steps P options task ws l context w = (r, w', t) ->
  sublist (handler_steps t) l.
Proof.
  revert context w r w' t.
  induction l as [|step l IH]; intros context w r w' t Hrun.
  - by injection Hrun as <- <- <-.
  - simpl in Hrun. unfold bind in Hrun.
    destruct (run_step P options task ws step context w) as [[r1 w1] t1] eqn:Hrun1.
    apply run_step_keeps in Hrun1 as (_ & Hh & _).
    destruct r1 as [c1|e1].
    + destruct (run_steps P options task ws l c1 w1) as [[r2 w2] t2] eqn:Hrun2.
      injection Hrun as <- <- <-. apply IH in Hrun2.
      rewrite handler_steps_app.
      destruct Hh as [-> | ->]; simpl; [by apply sublist_cons | by apply sublist_skip].
    + injection Hrun as <- <- <-.
      destruct Hh as [-> | ->]; [apply sublist_nil_l|].
      apply sublist_skip, sublist_nil_l.
Qed.

(** *** execute *)

Lemma execute_run task w :
  isValidTaskSpec (task_spec task) = true ->
  execute P options task w
  = let ws := workspacePath_of P options task in
    let '(r, w', t) := run_steps P options task ws (spec_steps (task_spec task))
                         (initial_context task) w in
    (response_of task r, w',
     task_started task :: EvEnsureDir ws :: t ++ output_trace task r ++ closing ws).
Proof.
  intros Hvalid. unfold execute. rewrite Hvalid. cbn [negb].
  unfold try_finally, tracker_taskStart, taskTrack_markSuccessful, closing,
    response_of, output_trace.
  run_simpl.
  unfold task_started, task_succeeded.
  destruct (run_steps P options task _ _ _ w) as [[[context|err] w1] t1];
    run_simpl; cbn [cbind].
  - rewrite do_render_run.
    destruct (render P (spec_output (task_spec task)) context) as [out|err];
      case_bool_decide; run_simpl; cbn [cbind app];
      repeat (rewrite <- app_assoc || rewrite <- app_comm_cons || rewrite app_nil_r);
      reflexivity.
  - case_bool_decide; run_simpl; cbn [app]; by rewrite ?app_nil_r.
Qed.

Lemma execute_invalid task w :
  isValidTaskSpec (task_spec task) = false ->
  execute P options task w
  = (Throw (InputError "Wrong template version executed with the workflow engine"), w, []).
Proof. intros Hvalid. unfold execute. by rewrite Hvalid. Qed.

Lemma renders_output_trace task (r : Completion TemplateContext) :
  renders (output_trace task r)
  = match r with Normal context => [(SiteOutput, context)] | Throw _ => [] end.
Proof.
  unfold output_trace. destruct r as [context|err]; [|done].
  destruct (render P _ context); trace_simpl; unfold task_succeeded; by trace_simpl.
Qed.

Lemma handler_calls_output_trace task (r : Completion TemplateContext) :
  handler_calls (output_trace task r) = [].
Proof.
  unfold output_trace. destruct r as [context|err]; [|done].
  destruct (render P _ context); trace_simpl; unfold task_succeeded; by trace_simpl.
Qed.

Lemma renders_closing ws : renders (closing ws) = [].
Proof. unfold closing. by case_bool_decide. Qed.

Lemma handler_calls_closing ws : handler_calls (closing ws) = [].
Proof. unfold closing. by case_bool_decide. Qed.

Hint Rewrite renders_output_trace handler_calls_output_trace renders_closing
  handler_calls_closing : trace.

(** C3.  In every run of [execute], every rendering of a step's [if] and the
    rendering of the task's output get a context without [secrets]; the
    renderings of step inputs, and only they, get the task's secrets. *)
Theorem secrets_only_for_step_input task w :
  Forall (secrets_at task) (renders (snd (execute P options task w))).
Proof.
  destruct (isValidTaskSpec (task_spec task)) eqn:Hvalid.
  2: { rewrite execute_invalid by done. constructor. }
  rewrite execute_run by done. cbn zeta.
  destruct (run_steps P options task _ _ _ w) as [[r w'] t] eqn:Hrun.
  apply (run_steps_invariant task _ (fun c => ctx_secrets c = None) (secrets_at task))
    in Hrun as [Hrend Hfinal]; [| |done].
  - cbn [snd]. unfold task_started. trace_simpl. rewrite Forall_app. split; [done|].
    destruct r as [context|err]; rewrite ?app_nil_r; [|constructor].
    apply Forall_singleton. by apply Hfinal.
  - intros step context _ Hnone. by split_and!.
Qed.

(** *** Steps that the conditional check skips *)

Lemma skipped_by_if_true step context (ifResult : Value) :
  js_truthy (step_if step) = true ->
  render P (step_if step) context = Normal ifResult ->
  isTruthy P ifResult = false ->
  skipped_by_if P step context = true.
Proof. intros Hif Hrender Hfalsy. unfold skipped_by_if. by rewrite Hif, Hrender, Hfalsy. Qed.

(** An [if] that is falsy as written ([false], the empty string) is taken
    for an absent one: it is not rendered and the step is not skipped. *)
Lemma falsy_literal_if_not_checked step context :
  js_truthy (step_if step) = false -> skipped_by_if P step context = false.
Proof. intros Hif. unfold skipped_by_if. by rewrite Hif. Qed.

Lemma run_steps_cons task ws step (rest : list TaskStep) context w :
  run_steps P options task ws (step :: rest) context w
  = match run_step P options task ws step context w with
    | (Normal context', w1, t1) =>
        let '(r, w2, t2) := run_steps P options task ws rest context' w1 in (r, w2, t1 ++ t2)
    | (Throw err, w1, t1) => (Throw err, w1, t1)
    end.
Proof. reflexivity. Qed.

(** When the loop renders the [if] of a step and the result is falsy, the
    step ends before [actionRegistry.get] is called: its events hold no
    registry access, whatever the registry would answer for its action (also
    a throw), and the loop goes on with the next step in the same context. *)
Lemma rendered_falsy_condition_skips_registry task ws step (rest : list TaskStep) context w
    (ifResult : Value) :
  js_truthy (step_if step) = true ->
  render P (step_if step) context = Normal ifResult ->
  isTruthy P ifResult = false ->
  exists t,
    run_step P options task ws step context w = (Normal context, w, t) /\
    registry_gets t = [] /\
    run_steps P options task ws (step :: rest) context w
    = (let '(r, w', t') := run_steps P options task ws rest context w in (r, w', t ++ t')).
Proof.
  intros Hif Hrender Hfalsy.
  pose proof (skipped_by_if_true step context ifResult Hif Hrender Hfalsy) as Hskip.
  eexists. split; [by apply run_step_skipped|]. split.
  - by trace_simpl.
  - rewrite run_steps_cons, run_step_skipped by done. reflexivity.
Qed.

(** C9.  A step whose [if] is falsy as it is written (the empty string,
    [false], zero), and renders to a falsy value, is not skipped: the loop
    does not render the condition and asks the registry for the action of
    the step, and when the registry throws for it, the step, the loop and
    [execute] end with that throw. *)
Theorem unrendered_condition_reaches_the_registry task w (pre post : list TaskStep) step
    context w1 t1 (ifResult : Value) (err : Exn) :
  isValidTaskSpec (task_spec task) = true ->
  workspacePath_of P options task <> "" ->
  spec_steps (task_spec task) = pre ++ step :: post ->
  run_steps P options task (workspacePath_of P options task) pre (initial_context task) w
  = (Normal context, w1, t1) ->
  is_undefined (step_if step) = false ->
  js_truthy (step_if step) = false ->
  render P (step_if step) context = Normal ifResult ->
  isTruthy P ifResult = false ->
  actionRegistry_get options (step_action step) = Throw err ->
  exists t,
    run_step P options task (workspacePath_of P options task) step context w1
    = (Throw err, w1, t) /\
    registry_gets t = [step_action step] /\
    renders t = [] /\
    exists t', execute P options task w = (Throw err, w1, t').
Proof.
  intros Hvalid Hws Hsteps Hpre _ Hif _ _ Hget.
  set (ws := workspacePath_of P options task) in *.
  pose proof (falsy_literal_if_not_checked step context Hif) as Hskip.
  assert (Hnone : if_trace step context = []).
  { unfold if_trace. by rewrite Hif. }
  eexists. split; [by apply run_step_unresolved|].
  rewrite Hnone. split_and!.
  - by trace_simpl.
  - by trace_simpl.
  - eexists. rewrite execute_run by done. cbn zeta. fold ws.
    rewrite Hsteps, run_steps_app. unfold bind at 1. rewrite Hpre.
    rewrite run_steps_cons, (run_step_unresolved task ws step context w1 err) by done.
    unfold closing.
    by rewrite bool_decide_eq_false_2.
Qed.

(** C2, amended.  When the loop renders the [if] of a step and the result is
    falsy, the iteration leaves the context as it found it; and when no
    other step of the task has the id of the step, the context has no entry
    for the step, and no context that the task ever renders against (for a
    later step or for the output) has an entry under that id: the lookup in
    the steps gives [None].  The rendering does not throw on such a lookup:
    [render] returns normally for every input but [undefined], and what a
    reference to the missing entry renders to is left to the engine. *)
Theorem skipped_step_leaves_no_entry task w (pre post : list TaskStep) step context w1 t1
    (ifResult : Value) :
  spec_steps (task_spec task) = pre ++ step :: post ->
  step_id step ∉ map step_id (pre ++ post) ->
  run_steps P options task (workspacePath_of P options task) pre (initial_context task) w
  = (Normal context, w1, t1) ->
  js_truthy (step_if step) = true ->
  render P (step_if step) context = Normal ifResult ->
  isTruthy P ifResult = false ->
  fst (fst (run_step P options task (workspacePath_of P options task) step context w1))
  = Normal context /\
  ctx_steps context !! step_id step = None /\
  Forall (fun x => ctx_steps (snd x) !! step_id step = None)
    (renders (snd (execute P options task w))) /\
  (forall input c, is_undefined input = false -> exists out, render P input c = Normal out).
Proof.
  intros Hsteps Hother Hpre Hif Hrender Hfalsy.
  pose proof (skipped_by_if_true step context ifResult Hif Hrender Hfalsy) as Hskip.
  set (ws := workspacePath_of P options task) in *.
  set (i := step_id step) in *.
  rewrite map_app, elem_of_app in Hother.
  assert (Hpre_notin : i ∉ map step_id pre) by tauto.
  assert (Hpost_ne : i ∉ map step_id post) by tauto.
  assert (Hkeep : forall l,
             i ∉ map step_id l ->
             forall c w0 r w' t,
               ctx_steps c !! i = None ->
               run_steps P options task ws l c w0 = (r, w', t) ->
               Forall (fun x => ctx_steps (snd x) !! i = None) (renders t) /\
               forall c', r = Normal c' -> ctx_steps c' !! i = None).
  { intros l Hl c w0 r w' t Hnone Hrun.
    eapply (run_steps_invariant task ws (fun c => ctx_steps c !! i = None)); [|done..].
    intros s c0 Hs Hc0. split_and!; [done..|].
    intros out. simpl. rewrite lookup_insert_ne; [done|].
    intros Heq. apply Hl. rewrite <- Heq. apply list_elem_of_fmap. by exists s. }
  assert (Hinit : ctx_steps (initial_context task) !! i = None) by apply lookup_empty.
  destruct (Hkeep pre Hpre_notin _ _ _ _ _ Hinit Hpre) as [Hrend_pre Hctx].
  specialize (Hctx context eq_refl).
  rewrite run_step_skipped by done. split_and!; [done..| |].
  2: { intros input c Hdef. eexists. by apply render_defined. }
  destruct (isValidTaskSpec (task_spec task)) eqn:Hvalid.
  2: { rewrite execute_invalid by done. constructor. }
  rewrite execute_run by done. cbn zeta. fold ws.
  rewrite Hsteps, run_steps_app. unfold bind at 1. rewrite Hpre.
  rewrite run_steps_cons, run_step_skipped by done.
  destruct (run_steps P options task ws post context w1) as [[r w'] t] eqn:Hpost.
  destruct (Hkeep post Hpost_ne _ _ _ _ _ Hctx Hpost) as [Hrend_post Hfinal].
  cbn [snd]. unfold task_started. trace_simpl.
  rewrite !Forall_app. split_and!; [done| |done|].
  - destruct (js_truthy (step_if step)); repeat constructor; done.
  - destruct r as [c|err]; [|constructor]. apply Forall_singleton. by apply Hfinal.
Qed.

(** *** Dry runs *)

(** C6.  In a dry run, a step that reaches its action, where the action does
    not support dry runs, calls no handler: the entry of the step is set to
    the example generated from the output schema of the action, if it has
    one, and to the empty object otherwise, and the loop goes on with the
    next step.  The example conforms to the schema whenever the generator
    keeps its contract for that schema, that the example it makes conforms. *)
Theorem dry_run_stores_example task ws step (rest : list TaskStep) context w
    (action : TemplateAction World Schema) (conforms : Schema -> Value -> Prop) :
  task_isDryRun task = Some true ->
  skipped_by_if P step context = false ->
  actionRegistry_get options (step_action step) = Normal action ->
  default false (action_supportsDryRun action) = false ->
  (forall outputSchema,
      output_schema action = Some outputSchema ->
      conforms outputSchema (generateExampleOutput P outputSchema)) ->
  let stored := match output_schema action with
                | Some outputSchema => generateExampleOutput P outputSchema
                | None => VObject []
                end in
  let context' := set_step_output context (step_id step) stored in
  exists t,
    run_step P options task ws step context w = (Normal context', w, t) /\
    handler_calls t = [] /\
    ctx_steps context' !! step_id step = Some {| output := stored |} /\
    (forall outputSchema, output_schema action = Some outputSchema ->
                          conforms outputSchema stored) /\
    run_steps P options task ws (step :: rest) context w
    = (let '(r, w', t') := run_steps P options task ws rest context' w in (r, w', t ++ t')).
Proof.
  intros Hdry Hskip Hget Hsupport Hcontract stored context'.
  assert (Hgate : skips_for_dry_run task action = true).
  { unfold skips_for_dry_run. by rewrite Hdry, Hsupport. }
  eexists. split; [by apply run_step_dry_run|]. split_and!.
  - by trace_simpl.
  - apply lookup_insert_eq.
  - intros outputSchema Hsch. subst stored. rewrite Hsch. by apply Hcontract.
  - by erewrite run_steps_cons, run_step_dry_run.
Qed.

(** *** The input of a step *)




(** *** Failures *)

Lemma step_fails_throws task ws step context w err :
  StepFails P options task ws step context w err ->
  exists w' t, run_step P options task ws step context w = (Throw err, w', t).
Proof.
  intros [err' Hskip Hget
         | action input inputSchema Hskip Hget Hdry Hin Hsch Hvalid
         | action input err' Hskip Hget Hdry Hin Hvalid Hthrown].
  - do 2 eexists. by apply run_step_unresolved.
  - do 2 eexists.
    rewrite (run_step_invalid task ws step context w action input); try done.
    + unfold invalid_input. by rewrite Hsch.
    + unfold input_valid. by rewrite Hsch.
  - do 2 eexists. apply (run_step_handler_threw _ _ _ _ _ action input); try done.
    unfold input_valid. by destruct (input_schema action).
Qed.

(** A step throws only in one of the three ways. *)
Lemma step_throws_fails task ws step context w w' t err :
  run_step P options task ws step context w = (Throw err, w', t) ->
  StepFails P options task ws step context w err.
Proof.
  intros Hrun. pose proof (run_step_outcome task ws step context w) as Hout.
  rewrite Hrun in Hout.
  inversion Hout as [ | err' Hskip Hget | | action input Hskip Hget Hdry Hin Hvalid
                    | action input err' Hskip Hget Hdry Hin Hvalid Hthrown | ]; subst.
  - by apply resolution_throws.
  - unfold input_valid in Hvalid. unfold invalid_input.
    destruct (input_schema action) as [inputSchema|] eqn:Hsch; [|done].
    by eapply validation_throws.
  - eapply handler_throws; try done.
    unfold input_valid in Hvalid. by destruct (input_schema action).
Qed.

(** C4.  When a step fails, by a throw of the registry, of the validation of
    its input or of its handler, after the steps before it ran without
    failure, [execute] throws what the step threw, the handlers called are
    among those of the steps up to the failing one, in order (none of a later
    step), and the last thing [execute] does is to remove the workspace
    directory.  ([path.join] never returns the empty string.) *)
Theorem first_failure_aborts task w (pre post : list TaskStep) step context w1 t1 err :
  isValidTaskSpec (task_spec task) = true ->
  workspacePath_of P options task <> "" ->
  spec_steps (task_spec task) = pre ++ step :: post ->
  run_steps P options task (workspacePath_of P options task) pre (initial_context task) w
  = (Normal context, w1, t1) ->
  StepFails P options task (workspacePath_of P options task) step context w1 err ->
  exists w' t,
    execute P options task w = (Throw err, w', t) /\
    sublist (handler_steps t) (pre ++ [step]) /\
    last t = Some (EvRemove (workspacePath_of P options task)).
Proof.
  intros Hvalid Hws Hsteps Hpre Hfails.
  set (ws := workspacePath_of P options task) in *.
  destruct (step_fails_throws task ws step context w1 err Hfails) as (w' & ts & Hstep).
  exists w', (task_started task :: EvEnsureDir ws :: (t1 ++ ts) ++ [] ++ [EvRemove ws]).
  split_and!.
  - rewrite execute_run by done. cbn zeta. fold ws.
    rewrite Hsteps, run_steps_app. unfold bind at 1. rewrite Hpre.
    rewrite run_steps_cons, Hstep. unfold closing.
    by rewrite bool_decide_eq_false_2.
  - unfold task_started. trace_simpl. rewrite map_app.
    apply sublist_app.
    + by apply run_steps_handlers in Hpre.
    + apply run_step_keeps in Hstep as (_ & [Hh | Hh] & _); unfold handler_steps in Hh;
        rewrite Hh; [apply sublist_nil_l | done].
  - rewrite !app_comm_cons, !app_assoc. apply last_snoc.
Qed.

(** *** The conditional check and the handler *)



(** *** Directories, statuses and counters *)

Lemma omap_events_none {A B} (f : Event -> option A) (g : B -> Event) (l : list B) :
  (forall x, f (g x) = None) -> omap f (map g l) = [].
Proof. intros Hf. induction l as [|x l IH]; simpl; [done | by rewrite Hf]. Qed.

Lemma omap_events_all {A} (f : Event -> option A) (g : A -> Event) (l : list A) :
  (forall x, f (g x) = Some x) -> omap f (map g l) = l.
Proof. intros Hf. induction l as [|x l IH]; simpl; [done | rewrite Hf; by f_equal]. Qed.

Lemma omap_if_trace {A} (f : Event -> option A) step context :
  (forall site v c, f (EvRender site v c) = None) ->
  (forall m, f (EvLoggerError m) = None) ->
  omap f (if_trace step context) = [].
Proof.
  intros Hrender Hlog. unfold if_trace. destruct (js_truthy _); [|done].
  simpl. rewrite Hrender. by apply omap_events_none.
Qed.

Lemma omap_input_trace {A} (f : Event -> option A) task step context :
  (forall site v c, f (EvRender site v c) = None) ->
  (forall m, f (EvLoggerError m) = None) ->
  omap f (input_trace task step context) = [].
Proof.
  intros Hrender Hlog. unfold input_trace. destruct (js_truthy _); [|done].
  simpl. rewrite Hrender. by apply omap_events_none.
Qed.

(** The projection of a trace that is written out, for a projection that
    looks at no rendering and at no line of the logger. *)
Ltac proj_simpl :=
  unfold count_incs, created_dirs, ensured_dirs, removed_paths, step_statuses, counter_incs,
    started, skipped_falsy, skipped_dry_run, failed, succeeded;
  repeat first
    [ rewrite omap_app
    | rewrite omap_if_trace by (intros; reflexivity)
    | rewrite omap_input_trace by (intros; reflexivity)
    | rewrite omap_events_all by (intros; reflexivity)
    | rewrite omap_events_none by (intros; reflexivity)
    | progress cbn [omap list_omap app fst snd] ].

Lemma run_step_dirs task ws step context w :
  removed_paths (snd (run_step P options task ws step context w))
  = match fst (fst (run_step P options task ws step context w)) with
    | Normal _ => created_dirs (snd (run_step P options task ws step context w))
    | Throw _ => []
    end.
Proof. destruct (run_step_outcome task ws step context w); by proj_simpl. Qed.

Lemma run_steps_dirs task ws (l : list TaskStep) context w :
  removed_paths (snd (run_steps P options task ws l context w))
    `prefix_of` created_dirs (snd (run_steps P options task ws l context w)) /\
  (forall c, fst (fst (run_steps P options task ws l context w)) = Normal c ->
             removed_paths (snd (run_steps P options task ws l context w))
             = created_dirs (snd (run_steps P options task ws l context w))).
Proof.
  revert context w. induction l as [|step l IH]; intros context w; [done|].
  rewrite run_steps_cons.
  pose proof (run_step_dirs task ws step context w) as Hstep.
  destruct (run_step P options task ws step context w) as [[[c1|e1] w1] t1]; cbn [fst snd] in *.
  - specialize (IH c1 w1).
    destruct (run_steps P options task ws l c1 w1) as [[r2 w2] t2]. cbn [fst snd] in *.
    destruct IH as [Hpre Heq].
    unfold removed_paths, created_dirs in *. rewrite !omap_app, Hstep.
    split; [by apply prefix_app | intros c Hc; f_equal; by eapply Heq].
  - rewrite Hstep. split; [apply prefix_nil | done].
Qed.

Lemma omap_output_trace {A} (f : Event -> option A) task (r : Completion TemplateContext) :
  (forall site v c, f (EvRender site v c) = None) ->
  (forall m, f (EvLoggerError m) = None) ->
  (forall m labels, f (EvCounterInc m labels) = None) ->
  (forall m labels, f (EvObserve m labels) = None) ->
  omap f (output_trace task r) = [].
Proof.
  intros Hrender Hlog Hinc Hobs. unfold output_trace. destruct r as [context|err]; [|done].
  cbn [omap list_omap]. rewrite Hrender, omap_app, omap_events_none by done.
  destruct (render P _ context); [|done]. unfold task_succeeded. simpl. by rewrite Hinc, Hobs.
Qed.

(** X1.  In a run of [execute] on a task of the supported version, with a
    workspace path that is not empty, what [fs.remove] is called on is first
    temporary directories, in the order in which [createTemporaryDirectory]
    made them, and last the workspace: all of those made, when [execute]
    returns, and a prefix of them when it throws. *)
Theorem temporary_directories_removed task w :
  isValidTaskSpec (task_spec task) = true ->
  workspacePath_of P options task <> "" ->
  exists removed,
    removed_paths (snd (execute P options task w))
    = removed ++ [workspacePath_of P options task] /\
    removed `prefix_of` created_dirs (snd (execute P options task w)) /\
    (forall response,
        fst (fst (execute P options task w)) = Normal response ->
        removed = created_dirs (snd (execute P options task w))).
Proof.
  intros Hvalid Hws. rewrite execute_run by done. cbn zeta.
  set (ws := workspacePath_of P options task) in *.
  pose proof (run_steps_dirs task ws (spec_steps (task_spec task)) (initial_context task) w)
    as [Hpre Heq].
  destruct (run_steps P options task ws _ _ w) as [[r w'] t]. cbn [fst snd] in *.
  exists (removed_paths t).
  assert (Hclose : closing ws = [EvRemove ws]).
  { unfold closing. by rewrite bool_decide_eq_false_2. }
  rewrite Hclose. unfold task_started, removed_paths, created_dirs in *.
  cbn [omap list_omap]. rewrite !omap_app, !omap_output_trace by done.
  cbn [omap list_omap app]. rewrite !app_nil_r. split_and!; [done..|].
  intros response Hresp. destruct r as [c|err]; [by eapply Heq | done].
Qed.

(** *** The statuses of the steps *)

Lemma run_step_statuses task ws step context w :
  exists status,
    step_statuses (snd (run_step P options task ws step context w))
    = [(step_id step, "processing"); (step_id step, status)] /\
    match fst (fst (run_step P options task ws step context w)) with
    | Normal _ => status = "skipped" \/ status = "completed"
    | Throw _ => status = "failed"
    end.
Proof.
  destruct (run_step_outcome task ws step context w); proj_simpl;
    eexists; (split; [reflexivity | cbn [fst]; auto]).
Qed.

(** X2.  The step loop logs, for each step it gets to and in the order of
    the steps, the status [processing] and then exactly one of [skipped],
    [completed] and [failed]: for every step of the list when the loop ends
    normally, none of them [failed]; and when it throws, for the steps up to
    the one that threw, whose status is [failed] and the last one logged. *)
Theorem steps_report_their_progress task ws (l : list TaskStep) context w :
  exists terminal : list string,
    step_statuses (snd (run_steps P options task ws l context w))
    = concat (zip_with (fun step status =>
                          [(step_id step, "processing"); (step_id step, status)])
                l terminal) /\
    match fst (fst (run_steps P options task ws l context w)) with
    | Normal _ =>
        length terminal = length l /\
        Forall (fun status => status = "skipped" \/ status = "completed") terminal
    | Throw _ =>
        exists ok,
          terminal = ok ++ ["failed"] /\ length ok < length l /\
          Forall (fun status => status = "skipped" \/ status = "completed") ok
    end.
Proof.
  revert context w. induction l as [|step l IH]; intros context w.
  { exists []. by split_and!. }
  rewrite run_steps_cons.
  destruct (run_step_statuses task ws step context w) as (status & Hst & Hstatus).
  destruct (run_step P options task ws step context w) as [[[c1|e1] w1] t1]; cbn [fst snd] in *.
  - destruct (IH c1 w1) as (terminal & Hrest & Hterminal).
    destruct (run_steps P options task ws l c1 w1) as [[r2 w2] t2]. cbn [fst snd] in *.
    exists (status :: terminal). split.
    + unfold step_statuses in *. rewrite omap_app, Hst, Hrest. reflexivity.
    + destruct r2 as [c2|e2].
      * destruct Hterminal as [Hlen Hall]. split; [simpl; by rewrite Hlen | by constructor].
      * destruct Hterminal as (ok & -> & Hlen & Hall).
        exists (status :: ok). split_and!; [done | simpl; lia | by constructor].
  - subst status. exists ["failed"]. split.
    + rewrite Hst. simpl. by destruct l.
    + exists []. split_and!; [done | simpl; lia | constructor].
Qed.

(** *** The counters *)

Lemma count_incs_app (metric : string) t1 t2 :
  count_incs metric (t1 ++ t2) = count_incs metric t1 + count_incs metric t2.
Proof. unfold count_incs, counter_incs. by rewrite omap_app, filter_app, length_app. Qed.

Lemma step_statuses_app t1 t2 : step_statuses (t1 ++ t2) = step_statuses t1 ++ step_statuses t2.
Proof. unfold step_statuses. by rewrite omap_app. Qed.

Lemma count_status_app (status : string) t1 t2 :
  count_status status (t1 ++ t2) = count_status status t1 + count_status status t2.
Proof. unfold count_status. by rewrite step_statuses_app, filter_app, length_app. Qed.

Lemma run_step_counters task ws step context w :
  let t := snd (run_step P options task ws step context w) in
  count_incs "scaffolder_task_success_count" t = 0 /\
  count_incs "scaffolder_task_error_count" t = count_status "failed" t /\
  count_incs "scaffolder_step_error_count" t = count_status "failed" t /\
  count_incs "scaffolder_step_success_count" t = count_status "completed" t /\
  count_status "failed" t
  = match fst (fst (run_step P options task ws step context w)) with
    | Normal _ => 0
    | Throw _ => 1
    end.
Proof.
  cbn zeta. unfold count_status.
  destruct (run_step_outcome task ws step context w); proj_simpl; by vm_compute.
Qed.

Lemma run_steps_counters task ws (l : list TaskStep) context w :
  let t := snd (run_steps P options task ws l context w) in
  count_incs "scaffolder_task_success_count" t = 0 /\
  count_incs "scaffolder_task_error_count" t = count_status "failed" t /\
  count_incs "scaffolder_step_error_count" t = count_status "failed" t /\
  count_incs "scaffolder_step_success_count" t = count_status "completed" t /\
  count_status "failed" t
  = match fst (fst (run_steps P options task ws l context w)) with
    | Normal _ => 0
    | Throw _ => 1
    end.
Proof.
  cbn zeta. revert context w. induction l as [|step l IH]; intros context w; [done|].
  rewrite run_steps_cons.
  pose proof (run_step_counters task ws step context w) as Hstep. cbn zeta in Hstep.
  destruct (run_step P options task ws step context w) as [[[c1|e1] w1] t1];
    cbn [fst snd] in *; [|done].
  specialize (IH c1 w1).
  destruct (run_steps P options task ws l c1 w1) as [[r2 w2] t2]. cbn [fst snd] in *.
  rewrite !count_incs_app, !count_status_app.
  destruct Hstep as (-> & -> & -> & -> & ->), IH as (-> & -> & -> & -> & ->). done.
Qed.

Lemma count_incs_closing (metric : string) ws : count_incs metric (closing ws) = 0.
Proof. unfold closing. by case_bool_decide. Qed.

Lemma count_status_closing (status : string) ws : count_status status (closing ws) = 0.
Proof. unfold closing. by case_bool_decide. Qed.

(** X3.  In every run of [execute] the counter of succeeded tasks is
    incremented once when [execute] returns and not at all when it throws;
    the counters of failed tasks and of failed steps are incremented once for
    each status [failed] that is logged, which is at most once; the counter
    of succeeded steps once for each status [completed]; and a run never
    increments both the counter of succeeded and that of failed tasks. *)
Theorem task_counters task w :
  let t := snd (execute P options task w) in
  count_incs "scaffolder_task_success_count" t
  = match fst (fst (execute P options task w)) with Normal _ => 1 | Throw _ => 0 end /\
  count_incs "scaffolder_task_error_count" t = count_status "failed" t /\
  count_incs "scaffolder_step_error_count" t = count_status "failed" t /\
  count_incs "scaffolder_step_success_count" t = count_status "completed" t /\
  count_status "failed" t <= 1 /\
  count_incs "scaffolder_task_success_count" t + count_incs "scaffolder_task_error_count" t <= 1.
Proof.
  cbn zeta. destruct (isValidTaskSpec (task_spec task)) eqn:Hvalid.
  2: { rewrite execute_invalid by done. cbn. split_and!; try done; lia. }
  rewrite execute_run by done. cbn zeta.
  set (ws := workspacePath_of P options task).
  pose proof (run_steps_counters task ws (spec_steps (task_spec task)) (initial_context task) w)
    as Hloop. cbn zeta in Hloop.
  destruct (run_steps P options task ws _ _ w) as [[r w'] t]. cbn [fst snd] in *.
  destruct Hloop as (Hs & He & Hse & Hss & Hfailed).
  assert (Hrest :
    forall metric,
      count_incs metric (task_started task :: EvEnsureDir ws :: t ++ output_trace task r
                         ++ closing ws)
      = count_incs metric t + count_incs metric (output_trace task r)).
  { intros metric.
    change (count_incs metric (task_started task :: EvEnsureDir ws :: t ++ output_trace task r
                               ++ closing ws))
      with (count_incs metric (t ++ output_trace task r ++ closing ws)).
    rewrite !count_incs_app, count_incs_closing. lia. }
  assert (Hstat :
    forall status,
      count_status status (task_started task :: EvEnsureDir ws :: t ++ output_trace task r
                           ++ closing ws)
      = count_status status t).
  { intros status.
    change (count_status status (task_started task :: EvEnsureDir ws :: t ++ output_trace task r
                                 ++ closing ws))
      with (count_status status (t ++ output_trace task r ++ closing ws)).
    rewrite !count_status_app, count_status_closing.
    unfold count_status at 2. unfold step_statuses.
    rewrite omap_output_trace by done. simpl. lia. }
  rewrite !Hrest, !Hstat, Hs, He, Hse, Hss.
  assert (Hout :
    forall metric,
      count_incs metric (output_trace task r)
      = match response_of task r with
        | Normal _ => if bool_decide (metric = "scaffolder_task_success_count") then 1 else 0
        | Throw _ => 0
        end).
  { intros metric. unfold output_trace, response_of, count_incs, counter_incs.
    destruct r as [c|err]; [|done]. cbn [cbind omap list_omap].
    rewrite omap_app, omap_events_none by done.
    destruct (render P _ c); [|done]. cbn [cbind app omap list_omap task_succeeded].
    rewrite filter_cons, filter_nil.
    destruct (decide _) as [<-|Hne];
      [by rewrite bool_decide_eq_true_2 | by rewrite bool_decide_eq_false_2]. }
  rewrite !Hout. destruct r as [c|err]; cbn [response_of cbind] in *.
  - destruct (render P _ c); cbn [cbind]; rewrite Hfailed; split_and!; try done; cbn; lia.
  - rewrite Hfailed. split_and!; try done; cbn; lia.
Qed.

(** *** The handlers that run, and what they are given *)

Lemma run_step_registry task ws step context w :
  registry_gets (snd (run_step P options task ws step context w)) = [] \/
  registry_gets (snd (run_step P options task ws step context w)) = [step_action step].
Proof. destruct (run_step_outcome task ws step context w); trace_simpl; auto. Qed.

Lemma run_steps_registry task ws (l : list TaskStep) context w :
  sublist (registry_gets (snd (run_steps P options task ws l context w))) (map step_action l).
Proof.
  revert context w. induction l as [|step l IH]; intros context w; [done|].
  rewrite run_steps_cons.
  pose proof (run_step_registry task ws step context w) as Hstep.
  destruct (run_step P options task ws step context w) as [[[c1|e1] w1] t1]; cbn [fst snd] in *.
  - specialize (IH c1 w1).
    destruct (run_steps P options task ws l c1 w1) as [[r2 w2] t2]. cbn [fst snd] in *.
    rewrite registry_gets_app.
    destruct Hstep as [-> | ->]; simpl; [by apply sublist_cons | by apply sublist_skip].
  - destruct Hstep as [-> | ->]; simpl; [apply sublist_nil_l|].
    apply sublist_skip, sublist_nil_l.
Qed.

Lemma registry_gets_output_trace task (r : Completion TemplateContext) :
  registry_gets (output_trace task r) = [].
Proof. by apply omap_output_trace. Qed.

Lemma registry_gets_closing ws : registry_gets (closing ws) = [].
Proof. unfold closing. by case_bool_decide. Qed.

(** X4.  In every run of [execute], the handlers that are called are those
    of steps of the task, in the order of the steps and at most once for a
    step, and so are the actions looked up in the registry. *)
Theorem handlers_follow_the_steps task w :
  sublist (handler_steps (snd (execute P options task w))) (spec_steps (task_spec task)) /\
  sublist (registry_gets (snd (execute P options task w)))
    (map step_action (spec_steps (task_spec task))).
Proof.
  destruct (isValidTaskSpec (task_spec task)) eqn:Hvalid.
  2: { rewrite execute_invalid by done. split; apply sublist_nil_l. }
  rewrite execute_run by done. cbn zeta.
  set (ws := workspacePath_of P options task).
  pose proof (run_steps_registry task ws (spec_steps (task_spec task)) (initial_context task) w)
    as Hreg.
  destruct (run_steps P options task ws _ _ w) as [[r w'] t] eqn:Hrun. cbn [snd] in *.
  apply run_steps_handlers in Hrun.
  unfold task_started. trace_simpl.
  rewrite registry_gets_output_trace, registry_gets_closing, !app_nil_r. done.
Qed.

Lemma run_step_calls task ws step context w :
  Forall (fun call => exists input, call = (step, handler_args task ws input))
    (handler_calls (snd (run_step P options task ws step context w))).
Proof.
  destruct (run_step_outcome task ws step context w); trace_simpl;
    repeat constructor; by eexists.
Qed.

Lemma run_steps_calls task ws (l : list TaskStep) context w :
  Forall (fun call => exists input, snd call = handler_args task ws input)
    (handler_calls (snd (run_steps P options task ws l context w))).
Proof.
  revert context w. induction l as [|step l IH]; intros context w; [constructor|].
  rewrite run_steps_cons.
  pose proof (run_step_calls task ws step context w) as Hstep.
  assert (Hargs : Forall (fun call => exists input, snd call = handler_args task ws input)
                    (handler_calls (snd (run_step P options task ws step context w)))).
  { eapply Forall_impl; [exact Hstep|]. intros call [input ->]. by exists input. }
  destruct (run_step P options task ws step context w) as [[[c1|e1] w1] t1];
    cbn [fst snd] in *; [|done].
  specialize (IH c1 w1).
  destruct (run_steps P options task ws l c1 w1) as [[r2 w2] t2]. cbn [fst snd] in *.
  rewrite handler_calls_app. by apply Forall_app.
Qed.

(** X5.  Every handler that [execute] calls is given the secrets of the task
    (none when the task has none), the workspace path of the task and the
    [templateInfo] of its spec. *)
Theorem handlers_get_the_task_environment task w :
  Forall (fun call =>
            h_secrets (snd call) = task_secrets_or_empty task /\
            h_workspacePath (snd call) = workspacePath_of P options task /\
            h_templateInfo (snd call) = spec_templateInfo (task_spec task))
    (handler_calls (snd (execute P options task w))).
Proof.
  destruct (isValidTaskSpec (task_spec task)) eqn:Hvalid.
  2: { rewrite execute_invalid by done. constructor. }
  rewrite execute_run by done. cbn zeta.
  set (ws := workspacePath_of P options task).
  pose proof (run_steps_calls task ws (spec_steps (task_spec task)) (initial_context task) w)
    as Hcalls.
  destruct (run_steps P options task ws _ _ w) as [[r w'] t]. cbn [snd] in *.
  unfold task_started. trace_simpl. rewrite ?app_nil_r.
  eapply Forall_impl; [exact Hcalls|]. by intros call [input ->].
Qed.

(** *** The contexts of the renderings *)

(** X6.  Every rendering that [execute] makes, of a condition, of an input
    or of the output, sees the parameters and the user of the task's spec,
    and entries of [steps] under ids of steps of the task only. *)
Theorem renderings_see_the_task_data task w :
  Forall (fun x =>
            ctx_parameters (snd x) = spec_parameters (task_spec task) /\
            ctx_user (snd x) = spec_user (task_spec task) /\
            forall id, is_Some (ctx_steps (snd x) !! id) ->
                       id ∈ map step_id (spec_steps (task_spec task)))
    (renders (snd (execute P options task w))).
Proof.
  destruct (isValidTaskSpec (task_spec task)) eqn:Hvalid.
  2: { rewrite execute_invalid by done. constructor. }
  rewrite execute_run by done. cbn zeta.
  destruct (run_steps P options task _ _ _ w) as [[r w'] t] eqn:Hrun.
  apply (run_steps_invariant task _
           (fun c => ctx_parameters c = spec_parameters (task_spec task) /\
                     ctx_user c = spec_user (task_spec task) /\
                     forall id, is_Some (ctx_steps c !! id) ->
                                id ∈ map step_id (spec_steps (task_spec task)))
           (fun x => ctx_parameters (snd x) = spec_parameters (task_spec task) /\
                     ctx_user (snd x) = spec_user (task_spec task) /\
                     forall id, is_Some (ctx_steps (snd x) !! id) ->
                                id ∈ map step_id (spec_steps (task_spec task))))
    in Hrun as [Hrend Hfinal].
  - cbn [snd]. unfold task_started. trace_simpl. rewrite Forall_app. split; [done|].
    destruct r as [context|err]; rewrite ?app_nil_r; [|constructor].
    apply Forall_singleton. by apply Hfinal.
  - intros step context Hin (Hparams & Huser & Hsteps). split_and!; try done.
    intros out. simpl. split_and!; try done.
    intros id. destruct (decide (id = step_id step)) as [->|Hne].
    + intros _. apply list_elem_of_fmap. by exists step.
    + rewrite lookup_insert_ne by done. apply Hsteps.
  - simpl. split_and!; try done. intros id. rewrite lookup_empty. by intros [? ?].
Qed.

(** X7.  The steps of a list leave alone the entries of [steps] under ids
    that are not theirs: every rendering of the loop over the list sees,
    under such an id, what the context held when the loop began, and so does
    the context that the loop ends with. *)
Theorem entry_kept_by_other_steps task ws (l : list TaskStep) context w (id : string) :
  id ∉ map step_id l ->
  Forall (fun x => ctx_steps (snd x) !! id = ctx_steps context !! id)
    (renders (snd (run_steps P options task ws l context w))) /\
  forall c, fst (fst (run_steps P options task ws l context w)) = Normal c ->
            ctx_steps c !! id = ctx_steps context !! id.
Proof.
  intros Hid.
  destruct (run_steps P options task ws l context w) as [[r w'] t] eqn:Hrun. cbn [fst snd].
  eapply (run_steps_invariant task ws
            (fun c => ctx_steps c !! id = ctx_steps context !! id)); [|done..].
  intros step c Hin Hc. split_and!; [done..|].
  intros out. simpl. rewrite lookup_insert_ne; [done|].
  intros Heq. apply Hid. rewrite <- Heq. apply list_elem_of_fmap. by exists step.
Qed.

(** *** Dry runs of actions that do not support them *)

Lemma run_steps_dry task ws (l : list TaskStep) context w :
  task_isDryRun task = Some true ->
  Forall (fun step => match actionRegistry_get options (step_action step) with
                      | Normal action => default false (action_supportsDryRun action) = false
                      | Throw _ => True
                      end) l ->
  handler_calls (snd (run_steps P options task ws l context w)) = [] /\
  created_dirs (snd (run_steps P options task ws l context w)) = [] /\
  snd (fst (run_steps P options task ws l context w)) = w.
Proof.
  intros Hdry Hall. revert context w.
  induction Hall as [|step l Hstep Hall IH]; intros context w; [done|].
  rewrite run_steps_cons.
  assert (Hone : handler_calls (snd (run_step P options task ws step context w)) = [] /\
                 created_dirs (snd (run_step P options task ws step context w)) = [] /\
                 snd (fst (run_step P options task ws step context w)) = w).
  { destruct (run_step_outcome task ws step context w).
    1-3: by (split_and!; [by trace_simpl | by proj_simpl | done]).
    all: exfalso;
      match goal with
      | Hget : actionRegistry_get _ _ = Normal ?a, Hgate : skips_for_dry_run _ ?a = false |- _ =>
          rewrite Hget in Hstep; unfold skips_for_dry_run in Hgate;
          rewrite Hdry, Hstep in Hgate; discriminate Hgate
      end. }
  destruct (run_step P options task ws step context w) as [[[c1|e1] w1] t1];
    cbn [fst snd] in *; [|done].
  destruct Hone as (Hcalls & Hdirs & ->).
  specialize (IH c1 w).
  destruct (run_steps P options task ws l c1 w) as [[r2 w2] t2]. cbn [fst snd] in *.
  destruct IH as (Hcalls2 & Hdirs2 & ->).
  unfold created_dirs in *. rewrite handler_calls_app, omap_app, Hcalls, Hcalls2, Hdirs, Hdirs2.
  done.
Qed.

(** X8.  In a dry run of a task in which no step is bound to an action that
    supports dry runs, [execute] calls no handler, makes no temporary
    directory and leaves the world as it found it. *)
Theorem dry_run_without_support_calls_no_handler task w :
  task_isDryRun task = Some true ->
  Forall (fun step => match actionRegistry_get options (step_action step) with
                      | Normal action => default false (action_supportsDryRun action) = false
                      | Throw _ => True
                      end) (spec_steps (task_spec task)) ->
  handler_calls (snd (execute P options task w)) = [] /\
  created_dirs (snd (execute P options task w)) = [] /\
  snd (fst (execute P options task w)) = w.
Proof.
  intros Hdry Hall.
  destruct (isValidTaskSpec (task_spec task)) eqn:Hvalid.
  2: { by rewrite execute_invalid. }
  rewrite execute_run by done. cbn zeta.
  set (ws := workspacePath_of P options task).
  pose proof (run_steps_dry task ws _ (initial_context task) w Hdry Hall) as Hloop.
  destruct (run_steps P options task ws _ _ w) as [[r w'] t]. cbn [fst snd] in *.
  destruct Hloop as (Hcalls & Hdirs & ->). split_and!; [|..|done].
  - unfold task_started. trace_simpl. by rewrite Hcalls.
  - unfold created_dirs in *. unfold task_started. cbn [omap list_omap].
    rewrite !omap_app, Hdirs, omap_output_trace by done.
    unfold closing. by case_bool_decide.
Qed.

(** *** What it takes for a handler to run *)

(** X9.  The handler of a step is called only when the conditional check
    did not skip the step, the registry returned an action for it, the
    dry-run gate let it through and the input that it is called with is the
    rendered input of the step and passed the validation against the input
    schema of the action. *)
Theorem handler_runs_only_when_permitted task ws step context w
    (call : TaskStep * HandlerArgs) :
  call ∈ handler_calls (snd (run_step P options task ws step context w)) ->
  fst call = step /\
  snd call = handler_args task ws (h_input (snd call)) /\
  skipped_by_if P step context = false /\
  exists action,
    actionRegistry_get options (step_action step) = Normal action /\
    skips_for_dry_run task action = false /\
    input_of P task step context = Normal (h_input (snd call)) /\
    input_valid action (h_input (snd call)) = true.
Proof.
  destruct (run_step_outcome task ws step context w); trace_simpl; intros Hin.
  1-4: by apply elem_of_nil in Hin.
  all: apply list_elem_of_singleton in Hin as ->; split_and!; try done; by eexists.
Qed.

(** *** Input that fails the validation *)

Lemma join_comma_contains (l : list string) (e : string) :
  e ∈ l -> exists pre post, join_comma l = pre +:+ e +:+ post.
Proof.
  induction l as [|x l IH]; intros Hin; [by apply elem_of_nil in Hin|].
  apply elem_of_cons in Hin as [-> | Hin].
  - destruct l as [|y l].
    + exists "", "". simpl. by rewrite str_app_nil_r.
    + by exists "", (", " +:+ join_comma (y :: l)).
  - destruct (IH Hin) as (pre & post & Heq). destruct l as [|y l]; [by apply elem_of_nil in Hin|].
    exists (x +:+ ", " +:+ pre), post.
    change (join_comma (x :: y :: l)) with (x +:+ ", " +:+ join_comma (y :: l)).
    by rewrite Heq, !str_app_assoc.
Qed.

(** X10.  When the rendered input of a step fails the validation against
    the input schema of its action, the step throws an [InputError] whose
    message names the action and holds every error of the validator; the
    handler is not called, no temporary directory is made and the world is
    as before the step. *)
Theorem invalid_input_stops_the_step task ws step context w
    (action : TemplateAction World Schema) (input : Value) (inputSchema : Schema) :
  skipped_by_if P step context = false ->
  actionRegistry_get options (step_action step) = Normal action ->
  skips_for_dry_run task action = false ->
  input_of P task step context = Normal input ->
  input_schema action = Some inputSchema ->
  valid (validateJsonSchema P input inputSchema) = false ->
  exists message t,
    run_step P options task ws step context w = (Throw (InputError message), w, t) /\
    handler_calls t = [] /\
    created_dirs t = [] /\
    Forall (fun e => exists pre post, message = pre +:+ e +:+ post)
      (action_id action :: errors (validateJsonSchema P input inputSchema)).
Proof.
  intros Hskip Hget Hgate Hin Hsch Hvalid.
  assert (Hinvalid : input_valid action input = false).
  { unfold input_valid. by rewrite Hsch. }
  do 2 eexists. split_and!.
  - rewrite (run_step_invalid task ws step context w action input) by done.
    unfold invalid_input. rewrite Hsch. reflexivity.
  - by trace_simpl.
  - by proj_simpl.
  - constructor.
    + by exists "Invalid input passed to action ",
        (", " +:+ join_comma (errors (validateJsonSchema P input inputSchema))).
    + apply Forall_forall. intros e He.
      destruct (join_comma_contains _ e He) as (pre & post & ->).
      exists ("Invalid input passed to action " +:+ action_id action +:+ ", " +:+ pre), post.
      by rewrite !str_app_assoc.
Qed.

(** *** The workspace *)

Lemma tmp_dir_not_workspace ws step (sfx : string) : tmp_prefix ws step +:+ sfx <> ws.
Proof.
  intros Heq. apply (f_equal String.length) in Heq.
  unfold tmp_prefix in Heq. rewrite !str_app_length in Heq. simpl in Heq. lia.
Qed.

Lemma run_step_removed task ws step context w :
  Forall (fun p => p <> ws) (removed_paths (snd (run_step P options task ws step context w))) /\
  ensured_dirs (snd (run_step P options task ws step context w)) = [].
Proof.
  destruct (run_step_outcome task ws step context w); proj_simpl; split; try done.
  rewrite app_nil_r. unfold tmp_dirs. apply Forall_forall.
  intros p (sfx & -> & _)%list_elem_of_fmap. apply tmp_dir_not_workspace.
Qed.

Lemma run_steps_removed task ws (l : list TaskStep) context w :
  Forall (fun p => p <> ws) (removed_paths (snd (run_steps P options task ws l context w))) /\
  ensured_dirs (snd (run_steps P options task ws l context w)) = [].
Proof.
  revert context w. induction l as [|step l IH]; intros context w; [by split|].
  rewrite run_steps_cons.
  pose proof (run_step_removed task ws step context w) as Hstep.
  destruct (run_step P options task ws step context w) as [[[c1|e1] w1] t1];
    cbn [fst snd] in *; [|done].
  specialize (IH c1 w1).
  destruct (run_steps P options task ws l c1 w1) as [[r2 w2] t2]. cbn [fst snd] in *.
  destruct Hstep as [Hrm1 Hen1], IH as [Hrm2 Hen2].
  unfold removed_paths, ensured_dirs in *. rewrite !omap_app, Hen1, Hen2.
  split; [by apply Forall_app | done].
Qed.

(** X11.  A run of [execute] on a task of the supported version, with a
    workspace path that is not empty, logs the start of the task, makes sure
    of the workspace directory, and ends, whether it returns or throws, by
    removing that directory; in between no directory is made sure of and the
    workspace is not removed. *)
Theorem workspace_made_first_and_removed_last task w :
  isValidTaskSpec (task_spec task) = true ->
  workspacePath_of P options task <> "" ->
  exists between,
    snd (execute P options task w)
    = task_started task :: EvEnsureDir (workspacePath_of P options task)
      :: between ++ [EvRemove (workspacePath_of P options task)] /\
    ensured_dirs between = [] /\
    workspacePath_of P options task ∉ removed_paths between.
Proof.
  intros Hvalid Hws. rewrite execute_run by done. cbn zeta.
  set (ws := workspacePath_of P options task) in *.
  pose proof (run_steps_removed task ws (spec_steps (task_spec task)) (initial_context task) w)
    as [Hrm Hen].
  destruct (run_steps P options task ws _ _ w) as [[r w'] t]. cbn [fst snd] in *.
  exists (t ++ output_trace task r). split_and!.
  - unfold closing. rewrite bool_decide_eq_false_2 by done. by rewrite app_assoc.
  - unfold ensured_dirs in *. by rewrite omap_app, Hen, omap_output_trace.
  - unfold removed_paths in *. rewrite omap_app, omap_output_trace, app_nil_r by done.
    intros Hin. by apply (proj1 (Forall_forall _ _) Hrm ws).
Qed.

(** *** Tasks of another version, and tasks without output *)

(** X12.  [execute] does nothing at all, and throws an [InputError], exactly
    when the [apiVersion] of the task's spec is not the supported one: the
    trace of a run is empty if and only if the version check fails, and then
    the world is the one the run started in. *)
Theorem wrong_version_has_no_effect task w :
  (snd (execute P options task w) = [] <-> isValidTaskSpec (task_spec task) = false) /\
  (isValidTaskSpec (task_spec task) = false ->
   execute P options task w
   = (Throw (InputError "Wrong template version executed with the workflow engine"), w, [])).
Proof.
  split; [|apply execute_invalid].
  destruct (isValidTaskSpec (task_spec task)) eqn:Hvalid.
  - rewrite execute_run by done. cbn zeta.
    destruct (run_steps P options task _ _ _ w) as [[r w'] t]. by split.
  - by rewrite execute_invalid.
Qed.

Lemma count_incs_around (metric : string) task ws t (r : Completion TemplateContext) :
  count_incs metric (task_started task :: EvEnsureDir ws :: t ++ output_trace task r
                     ++ closing ws)
  = count_incs metric t + count_incs metric (output_trace task r).
Proof.
  change (count_incs metric (task_started task :: EvEnsureDir ws :: t ++ output_trace task r
                             ++ closing ws))
    with (count_incs metric (t ++ output_trace task r ++ closing ws)).
  rewrite !count_incs_app, count_incs_closing. lia.
Qed.

Lemma step_statuses_around task ws t (r : Completion TemplateContext) :
  step_statuses (task_started task :: EvEnsureDir ws :: t ++ output_trace task r ++ closing ws)
  = step_statuses t.
Proof.
  change (step_statuses (task_started task :: EvEnsureDir ws :: t ++ output_trace task r
                         ++ closing ws))
    with (step_statuses (t ++ output_trace task r ++ closing ws)).
  rewrite !step_statuses_app. unfold step_statuses at 2.
  rewrite omap_output_trace by done. unfold closing. case_bool_decide; by rewrite app_nil_r.
Qed.

(** X13.  When the spec of a task has no [output], [execute] throws a
    [SyntaxError] after the loop over the steps has run to its end: the
    handlers called and the world left are those of the loop, no step is
    reported as failed, and neither the counter of succeeded tasks nor that
    of failed tasks is incremented. *)
Theorem undefined_output_throws_after_the_steps task w context w' t :
  isValidTaskSpec (task_spec task) = true ->
  spec_output (task_spec task) = VUndefined ->
  run_steps P options task (workspacePath_of P options task) (spec_steps (task_spec task))
    (initial_context task) w = (Normal context, w', t) ->
  exists err t',
    execute P options task w = (Throw err, w', t') /\
    exn_name err = "SyntaxError" /\
    handler_calls t' = handler_calls t /\
    step_statuses t' = step_statuses t /\
    count_status "failed" t' = 0 /\
    count_incs "scaffolder_task_success_count" t' = 0 /\
    count_incs "scaffolder_task_error_count" t' = 0.
Proof.
  intros Hvalid Hout Hrun.
  pose proof (run_steps_counters task (workspacePath_of P options task)
                (spec_steps (task_spec task)) (initial_context task) w)
    as Hc. cbn zeta in Hc. rewrite Hrun in Hc. cbn [fst snd] in Hc.
  destruct Hc as (Hs & He & _ & _ & Hfailed).
  do 2 eexists. split; [|split_and!].
  - rewrite execute_run by done. cbn zeta. rewrite Hrun.
    unfold response_of, render. rewrite Hout. cbn [is_undefined cbind]. reflexivity.
  - reflexivity.
  - unfold task_started. by trace_simpl.
  - apply step_statuses_around.
  - unfold count_status. by rewrite step_statuses_around.
  - rewrite count_incs_around, Hs. unfold output_trace, render. by rewrite Hout.
  - rewrite count_incs_around, He, Hfailed. unfold output_trace, render. by rewrite Hout.
Qed.

(** *** What a step that ran leaves in the context *)

(** X20.  When the handler of a step was called and the step ended
    normally, the context after the step holds, under the id of the step,
    the outputs that the handler reported in this call, and under every
    other id what it held before; parameters, user and secrets are as
    before. *)
Theorem successful_step_stores_its_outputs task ws step context w (args : HandlerArgs)
    (context' : TemplateContext) :
  (step, args) ∈ handler_calls (snd (run_step P options task ws step context w)) ->
  fst (fst (run_step P options task ws step context w)) = Normal context' ->
  exists action,
    actionRegistry_get options (step_action step) = Normal action /\
    ctx_steps context' !! step_id step
    = Some {| output := collect_outputs (run_outputs (fst (action_handler action args w))) |} /\
    (forall id, id <> step_id step -> ctx_steps context' !! id = ctx_steps context !! id) /\
    ctx_parameters context' = ctx_parameters context /\
    ctx_user context' = ctx_user context /\
    ctx_secrets context' = ctx_secrets context.
Proof.
  destruct (run_step_outcome task ws step context w); trace_simpl; intros Hin Hnormal.
  1-4: by apply elem_of_nil in Hin.
  - discriminate Hnormal.
  - apply list_elem_of_singleton in Hin as [= ->]. injection Hnormal as <-.
    eexists. split_and!; try done.
    + apply lookup_insert_eq.
    + intros id Hne. simpl. by rewrite lookup_insert_ne.
Qed.

(** *** A condition that is falsy as written *)

(** X30.  A step whose [if] is absent or falsy as it is written in the
    spec (the boolean [false], the empty string, zero, [null]) is not
    skipped: its condition is not rendered, the only rendering the step can
    make is that of its input, and the step goes on to look up its action in
    the registry. *)
Theorem falsy_literal_condition_runs_the_step task ws step context w :
  js_truthy (step_if step) = false ->
  registry_gets (snd (run_step P options task ws step context w)) = [step_action step] /\
  Forall (fun x => fst x = SiteInput (step_id step))
    (renders (snd (run_step P options task ws step context w))).
Proof.
  intros Hif. pose proof (falsy_literal_if_not_checked step context Hif) as Hskip.
  assert (Hnone : if_trace step context = []).
  { unfold if_trace. by rewrite Hif. }
  destruct (run_step_outcome task ws step context w); [congruence|..].
  all: rewrite Hnone; split; [by trace_simpl | trace_simpl].
  all: destruct (js_truthy (step_input step)); by repeat constructor.
Qed.

End RunnerFacts.

(** *** On the reference platform *)

(** The contexts of the three renderings of a task with one step. *)
Example execute_render_contexts :
  renders (snd (execute Reference.platform Reference.options
                  (Reference.task [Reference.publish_step]
                     (VObject [("url", VString "${{ steps.publish.output.url }}")])
                     None (Some {["token" := "s3cr3t"]})) []))
  = [(SiteIf "publish", initial_context Reference.dry_task);
     (SiteInput "publish",
      with_secrets (initial_context Reference.dry_task) {["token" := "s3cr3t"]});
     (SiteOutput,
      set_step_output (initial_context Reference.dry_task) "publish"
        (VObject [("url", VString "https://example.com/repo")]))].
Proof. vm_compute. reflexivity. Qed.

Example rendered_falsy_condition_skips_unregistered :
  exists t,
    run_step Reference.platform Reference.options Reference.guarded_task Reference.workspace
      Reference.guarded_step Reference.after_fetch ["fetch:plain"]
    = (Normal Reference.after_fetch, ["fetch:plain"], t) /\
    registry_gets t = [] /\
    run_steps Reference.platform Reference.options Reference.guarded_task Reference.workspace
      [Reference.guarded_step; Reference.log_step] Reference.after_fetch ["fetch:plain"]
    = (let '(r, w', t') :=
         run_steps Reference.platform Reference.options Reference.guarded_task
           Reference.workspace [Reference.log_step] Reference.after_fetch ["fetch:plain"] in
       (r, w', t ++ t')).
Proof.
  apply (rendered_falsy_condition_skips_registry Reference.platform Reference.options
           Reference.guarded_task Reference.workspace Reference.guarded_step
           [Reference.log_step] Reference.after_fetch ["fetch:plain"] VUndefined);
    reflexivity.
Qed.

(** The step [publish] of the task has the condition [""] and an action
    that is not registered: the task ends with the error of the registry. *)
Lemma unrendered_condition_reaches_the_registry_witness :
  exists t,
    run_step Reference.platform Reference.options Reference.blank_if_task Reference.workspace
      Reference.blank_if_step Reference.after_fetch ["fetch:plain"]
    = (Throw (MkExn "NotFoundError"
                "Template action with ID 'unregistered:action' is not registered."),
       ["fetch:plain"], t) /\
    registry_gets t = ["unregistered:action"] /\
    renders t = [] /\
    exists t',
      execute Reference.platform Reference.options Reference.blank_if_task []
      = (Throw (MkExn "NotFoundError"
                  "Template action with ID 'unregistered:action' is not registered."),
         ["fetch:plain"], t').
Proof.
  eapply (unrendered_condition_reaches_the_registry Reference.platform Reference.options
            Reference.blank_if_task [] [Reference.fetch_step] [Reference.log_step]
            Reference.blank_if_step Reference.after_fetch ["fetch:plain"] _ VUndefined).
  - reflexivity.
  - discriminate.
  - reflexivity.
  - reflexivity.
  - reflexivity.
  - reflexivity.
  - reflexivity.
  - reflexivity.
  - reflexivity.
Defined.

Lemma skipped_step_leaves_no_entry_witness :
  fst (fst (run_step Reference.platform Reference.options Reference.guarded_task
              Reference.workspace Reference.guarded_step Reference.after_fetch
              ["fetch:plain"]))
  = Normal Reference.after_fetch /\
  ctx_steps Reference.after_fetch !! "publish" = None /\
  Forall (fun x => ctx_steps (snd x) !! "publish" = None)
    (renders (snd (execute Reference.platform Reference.options Reference.guarded_task []))) /\
  (forall input c,
      is_undefined input = false -> exists out, render Reference.platform input c = Normal out).
Proof.
  eapply (skipped_step_leaves_no_entry Reference.platform Reference.options
            Reference.guarded_task [] [Reference.fetch_step] [Reference.log_step]
            Reference.guarded_step Reference.after_fetch ["fetch:plain"] _ VUndefined).
  - reflexivity.
  - apply (bool_decide_unpack _). reflexivity.
  - reflexivity.
  - reflexivity.
  - reflexivity.
  - reflexivity.
Defined.

Lemma first_failure_aborts_witness :
  exists w' t,
    execute Reference.platform Reference.options Reference.failing_task []
    = (Throw (MkExn "Error" "boom"), w', t) /\
    sublist (handler_steps t) ([Reference.fetch_step] ++ [Reference.failing_step]) /\
    last t = Some (EvRemove Reference.workspace).
Proof.
  eapply (first_failure_aborts Reference.platform Reference.options Reference.failing_task
            [] [Reference.fetch_step] [Reference.log_step] Reference.failing_step).
  - reflexivity.
  - discriminate.
  - reflexivity.
  - reflexivity.
  - apply (handler_throws _ _ _ _ _ _ _ Reference.test_fail (VObject [])); reflexivity.
Defined.

Lemma dry_run_stores_example_witness :
  exists t,
    run_step Reference.platform Reference.options Reference.dry_task Reference.workspace
      Reference.publish_step (initial_context Reference.dry_task) []
    = (Normal (set_step_output (initial_context Reference.dry_task) "publish"
                 (VObject [("url", VString "<example>")])), [], t) /\
    handler_calls t = [] /\
    Reference.conforms (Reference.SObject [("url", Reference.SString)])
      (VObject [("url", VString "<example>")]) = true.
Proof.
  destruct (dry_run_stores_example Reference.platform Reference.options Reference.dry_task
              Reference.workspace Reference.publish_step [] (initial_context Reference.dry_task)
              [] Reference.publish_github (fun sch v => Reference.conforms sch v = true))
    as (t & Hrun & Hcalls & _ & Hconforms & _).
  - reflexivity.
  - reflexivity.
  - reflexivity.
  - reflexivity.
  - intros outputSchema [= <-]. reflexivity.
  - exists t. split; [exact Hrun|]. split; [exact Hcalls|].
    apply (Hconforms (Reference.SObject [("url", Reference.SString)])). reflexivity.
Defined.



(** Where the claim of the skipped step fails.  The condition [""] of a
    step renders to [undefined], which is falsy, and the step runs and gets
    its entry.  In the task whose step [publish] is skipped, the step [log]
    refers to the output of [publish]: the task completes, and the handler
    of [log] is given the message with nothing in the place of the
    reference.  And when an earlier step has the id of the skipped step, the
    later step reads the entry of that step. *)
Lemma skipped_step_entry_counterexample :
  (render Reference.platform (step_if Reference.blank_if_fetch)
     (initial_context Reference.blank_if_fetch_task) = Normal VUndefined /\
   isTruthy Reference.platform VUndefined = false /\
   last (renders (snd (execute Reference.platform Reference.options
                         Reference.blank_if_fetch_task [])))
   = Some (SiteOutput,
           set_step_output (initial_context Reference.blank_if_fetch_task) "fetch"
             (VObject [("path", VString "./skeleton")]))) /\
  (render Reference.platform (step_if Reference.guarded_step) Reference.after_fetch
   = Normal VUndefined /\
   fst (fst (execute Reference.platform Reference.options Reference.guarded_task []))
   = Normal {| response_output := VObject [] |} /\
   handler_inputs (snd (execute Reference.platform Reference.options Reference.guarded_task []))
   = [VObject [("url", VString "./skeleton")];
      VObject [("message", VString "published ")]]) /\
  (handler_steps
     (snd (execute Reference.platform Reference.options Reference.repeated_id_task []))
   = [Reference.step "publish" "publish:github" (VObject [("name", VString "demo")]) VUndefined;
      Reference.log_step] /\
   handler_inputs
     (snd (execute Reference.platform Reference.options Reference.repeated_id_task []))
   = [VObject [("name", VString "demo")];
      VObject [("message", VString "published https://example.com/repo")]]).
Proof. repeat split; vm_compute; reflexivity. Qed.

(** A whole expression whose value is the empty string: the text the engine
    makes of the leaf is empty, the leaf renders to the empty string, and it
    is in the tree that [render] returns. *)
Lemma empty_whole_expression_counterexample :
  let input := VObject [("description", VString "${{ parameters.description }}")] in
  let context := Reference.context [("description", VString "")] in
  is_json input /\
  tree_lookup [Key "description"] input = Some (VString "${{ parameters.description }}") /\
  isSingleTemplateString Reference.platform "${{ parameters.description }}" = Normal true /\
  renderTemplate Reference.platform "${{ parameters.description }}" context = Normal "" /\
  render Reference.platform (VString "${{ parameters.description }}") context
  = Normal (VString "") /\
  exists out,
    render Reference.platform input context = Normal out /\
    tree_lookup [Key "description"] out = Some (VString "").
Proof.
  intros input context. split.
  { simpl. split; [|done]. apply (bool_decide_unpack _). reflexivity. }
  do 4 (split; [reflexivity|]). eexists. split; reflexivity.
Qed.



(** *** Corner cases, on the reference platform *)

(** A whole expression whose value is the empty string is dumped as two
    quotes and stays, as the empty string. *)
Example whole_expression_empty_value_stays :
  render Reference.platform (VObject [("description", VString "${{ parameters.description }}")])
    (Reference.context [("description", VString "")])
  = Normal (VObject [("description", VString "")]).
Proof. reflexivity. Qed.

(** A whole expression keeps the type of an object. *)
Example whole_expression_object :
  render Reference.platform (VString "${{ parameters.repo }}")
    (Reference.context [("repo", VObject [("owner", VString "acme"); ("private", VBool true)])])
  = Normal (VObject [("owner", VString "acme"); ("private", VBool true)]).
Proof. reflexivity. Qed.

(** The pattern does not match across a line end: such an expression is
    handed to the engine as it is. *)
Example wrap_dump_across_lines :
  wrap_dump ("${{ parameters.count" +:+ String "010"%char "}}")
  = "${{ parameters.count" +:+ String "010"%char "}}".
Proof. reflexivity. Qed.

(** *** Directories, handlers and contexts, on the reference platform *)

Lemma temporary_directories_removed_witness :
  exists removed,
    removed_paths (snd (execute Reference.platform Reference.options Reference.guarded_task []))
    = removed ++ [Reference.workspace] /\
    removed `prefix_of`
      created_dirs (snd (execute Reference.platform Reference.options Reference.guarded_task []))
    /\
    (forall response,
        fst (fst (execute Reference.platform Reference.options Reference.guarded_task []))
        = Normal response ->
        removed
        = created_dirs
            (snd (execute Reference.platform Reference.options Reference.guarded_task []))).
Proof.
  apply (temporary_directories_removed Reference.platform Reference.options
           Reference.guarded_task []); [reflexivity | discriminate].
Defined.

(** The directory that the handler of a failing step made stays. *)
Example failed_step_leaves_its_directory :
  created_dirs (snd (execute Reference.platform Reference.options Reference.failing_task []))
  = ["/tmp/scaffolder/task-1_step-fetch-a1b2c3"; "/tmp/scaffolder/task-1_step-break-Zq81xY"] /\
  removed_paths (snd (execute Reference.platform Reference.options Reference.failing_task []))
  = ["/tmp/scaffolder/task-1_step-fetch-a1b2c3"; "/tmp/scaffolder/task-1"].
Proof. split; reflexivity. Qed.

Lemma entry_kept_by_other_steps_witness :
  Forall (fun x => ctx_steps (snd x) !! "fetch" = ctx_steps Reference.after_fetch !! "fetch")
    (renders (snd (run_steps Reference.platform Reference.options Reference.guarded_task
                     Reference.workspace [Reference.guarded_step; Reference.log_step]
                     Reference.after_fetch ["fetch:plain"]))) /\
  forall c,
    fst (fst (run_steps Reference.platform Reference.options Reference.guarded_task
                Reference.workspace [Reference.guarded_step; Reference.log_step]
                Reference.after_fetch ["fetch:plain"])) = Normal c ->
    ctx_steps c !! "fetch" = ctx_steps Reference.after_fetch !! "fetch".
Proof.
  apply (entry_kept_by_other_steps Reference.platform Reference.options Reference.guarded_task
           Reference.workspace [Reference.guarded_step; Reference.log_step]
           Reference.after_fetch ["fetch:plain"] "fetch").
  apply (bool_decide_unpack _). reflexivity.
Defined.

Lemma dry_run_without_support_calls_no_handler_witness :
  handler_calls (snd (execute Reference.platform Reference.options Reference.dry_task [])) = [] /\
  created_dirs (snd (execute Reference.platform Reference.options Reference.dry_task [])) = [] /\
  snd (fst (execute Reference.platform Reference.options Reference.dry_task [])) = [].
Proof.
  apply (dry_run_without_support_calls_no_handler Reference.platform Reference.options
           Reference.dry_task []).
  - reflexivity.
  - constructor; [reflexivity | constructor].
Defined.

Lemma handler_runs_only_when_permitted_witness :
  skipped_by_if Reference.platform Reference.fetch_step (initial_context Reference.guarded_task)
  = false /\
  exists action,
    Reference.registry_get "fetch:plain" = Normal action /\
    skips_for_dry_run Reference.guarded_task action = false /\
    input_of Reference.platform Reference.guarded_task Reference.fetch_step
      (initial_context Reference.guarded_task)
    = Normal (VObject [("url", VString "./skeleton")]) /\
    input_valid Reference.platform action (VObject [("url", VString "./skeleton")]) = true.
Proof.
  destruct (handler_runs_only_when_permitted Reference.platform Reference.options
              Reference.guarded_task Reference.workspace Reference.fetch_step
              (initial_context Reference.guarded_task) []
              (Reference.fetch_step,
               handler_args Reference.guarded_task Reference.workspace
                 (VObject [("url", VString "./skeleton")])))
    as (_ & _ & Hskip & Hrest).
  - left.
  - split; [exact Hskip | exact Hrest].
Defined.

Lemma invalid_input_stops_the_step_witness :
  exists message t,
    run_step Reference.platform Reference.options Reference.invalid_task Reference.workspace
      Reference.invalid_step (initial_context Reference.invalid_task) []
    = (Throw (InputError message), [], t) /\
    handler_calls t = [] /\
    created_dirs t = [] /\
    Forall (fun e => exists pre post, message = pre +:+ e +:+ post)
      ["publish:github"; "instance does not match the schema"].
Proof.
  apply (invalid_input_stops_the_step Reference.platform Reference.options
           Reference.invalid_task Reference.workspace Reference.invalid_step
           (initial_context Reference.invalid_task) [] Reference.publish_github
           (VObject [("name", VNumber 3)]) (Reference.SObject [("name", Reference.SString)]));
    reflexivity.
Defined.

Lemma workspace_made_first_and_removed_last_witness :
  exists between,
    snd (execute Reference.platform Reference.options Reference.failing_task [])
    = task_started Reference.failing_task :: EvEnsureDir Reference.workspace
      :: between ++ [EvRemove Reference.workspace] /\
    ensured_dirs between = [] /\
    Reference.workspace ∉ removed_paths between.
Proof.
  apply (workspace_made_first_and_removed_last Reference.platform Reference.options
           Reference.failing_task []); [reflexivity | discriminate].
Defined.

Lemma undefined_output_throws_after_the_steps_witness :
  exists err t',
    execute Reference.platform Reference.options Reference.no_output_task []
    = (Throw err, ["fetch:plain"], t') /\
    exn_name err = "SyntaxError" /\
    handler_steps t' = [Reference.fetch_step] /\
    step_statuses t' = [("fetch", "processing"); ("fetch", "completed")].
Proof.
  destruct (undefined_output_throws_after_the_steps Reference.platform Reference.options
              Reference.no_output_task []
              (set_step_output (initial_context Reference.no_output_task) "fetch"
                 (VObject [("path", VString "./skeleton")]))
              ["fetch:plain"]
              (snd (run_steps Reference.platform Reference.options Reference.no_output_task
                      Reference.workspace [Reference.fetch_step]
                      (initial_context Reference.no_output_task) [])))
    as (err & t' & Hexec & Hname & Hcalls & Hstat & _).
  - reflexivity.
  - reflexivity.
  - reflexivity.
  - exists err, t'. split; [exact Hexec|]. split; [exact Hname|].
    split; [unfold handler_steps; by rewrite Hcalls | by rewrite Hstat].
Defined.

(** *** Rendering when the engine or the parse fails, on the reference platform *)

Lemma render_returns_input_when_engine_throws_witness :
  render Reference.platform
    (VObject [("run", VString "echo ${{ parameters.name"); ("retries", VNumber 2)])
    (Reference.context [("name", VString "demo")])
  = Normal (VObject [("run", VString "echo ${{ parameters.name"); ("retries", VNumber 2)]).
Proof.
  apply render_returns_input_when_engine_throws.
  - simpl. split; [|done]. apply (bool_decide_unpack _). reflexivity.
  - repeat constructor; eexists; reflexivity.
Defined.

(** An expression that is written over two lines is not rewritten; what it
    renders to is not JSON text, which is logged, and it is rendered as
    text. *)
Lemma failed_expression_falls_back_to_text_witness :
  render Reference.platform (VString ("${{ parameters.name" +:+ String "010"%char "}}"))
    (Reference.context [("name", VString "demo")]) = Normal (VString "demo") /\
  render_errors Reference.platform (VString ("${{ parameters.name" +:+ String "010"%char "}}"))
    (Reference.context [("name", VString "demo")])
  = ["Failed to parse template string: "
     +:+ ("${{ parameters.name" +:+ String "010"%char "}}")
     +:+ " with error " +:+ "Unexpected token in JSON"].
Proof.
  apply (failed_expression_falls_back_to_text Reference.platform
           ("${{ parameters.name" +:+ String "010"%char "}}") "demo"
           (SyntaxError "Unexpected token in JSON")
           (Reference.context [("name", VString "demo")]));
    [reflexivity | reflexivity | discriminate].
Defined.

(** ** The log stream of a step *)

Lemma trim_start_head (s : string) (c : ascii) (s' : string) :
  trim_start s = String c s' -> is_white_space c = false.
Proof.
  induction s as [|a s IH]; simpl; [done|].
  destruct (is_white_space a) eqn:Ha; [done|]. by intros [= <- <-].
Qed.

Lemma trim_end_head (c : ascii) (s : string) :
  is_white_space c = false -> trim_end (String c s) = String c (trim_end s).
Proof. intros Hc. simpl. by rewrite Hc. Qed.

Lemma trim_end_last (s : string) (c : ascii) :
  last (list_ascii_of_string (trim_end s)) = Some c -> is_white_space c = false.
Proof.
  induction s as [|a s IH]; simpl; [done|].
  destruct (is_white_space a && bool_decide (trim_end s = "")) eqn:Hcut; [done|].
  simpl. destruct (trim_end s) as [|b r] eqn:Hrest.
  - simpl. intros [= <-]. rewrite bool_decide_eq_true_2 in Hcut by done.
    by destruct (is_white_space a).
  - exact IH.
Qed.

Lemma trim_end_idem (s : string) : trim_end (trim_end s) = trim_end s.
Proof.
  induction s as [|a s IH]; simpl; [done|].
  destruct (is_white_space a && bool_decide (trim_end s = "")) eqn:Hcut; [done|].
  simpl. by rewrite IH, Hcut.
Qed.

Lemma trim_start_blank (s : string) :
  forallb is_white_space (list_ascii_of_string s) = true -> trim_start s = "".
Proof.
  induction s as [|a s IH]; simpl; [done|].
  intros [Ha Hs]%andb_true_iff. rewrite Ha. by apply IH.
Qed.

Lemma trim_head (s : string) (c : ascii) (s' : string) :
  trim s = String c s' -> is_white_space c = false.
Proof.
  unfold trim. destruct (trim_start s) as [|a r] eqn:Hstart; [done|].
  pose proof (trim_start_head s a r Hstart) as Ha.
  rewrite trim_end_head by done. by intros [= <- _].
Qed.

Lemma trim_idem (s : string) : trim (trim s) = trim s.
Proof.
  unfold trim at 1. destruct (trim s) as [|c r] eqn:Htrim; [done|].
  pose proof (trim_head s c r Htrim) as Hc.
  simpl trim_start. rewrite Hc, <- Htrim. unfold trim. apply trim_end_idem.
Qed.

Lemma trim_start_split (s : string) :
  exists before,
    s = before +:+ trim_start s /\
    forallb is_white_space (list_ascii_of_string before) = true.
Proof.
  induction s as [|a s (before & Hs & Hblank)]; [by exists ""|].
  simpl. destruct (is_white_space a) eqn:Ha.
  - exists (String a before). rewrite str_app_cons, <- Hs. simpl. by rewrite Ha.
  - by exists "".
Qed.

Lemma trim_end_split (s : string) :
  exists after,
    s = trim_end s +:+ after /\
    forallb is_white_space (list_ascii_of_string after) = true.
Proof.
  induction s as [|a s (after & Hs & Hblank)]; [by exists ""|].
  simpl. destruct (is_white_space a && bool_decide (trim_end s = "")) eqn:Hcut.
  - apply andb_true_iff in Hcut as [Ha Hrest%bool_decide_eq_true].
    rewrite Hrest in Hs. change ("" +:+ after) with after in Hs. subst after.
    exists (String a s). split; [done|]. simpl. by rewrite Ha.
  - exists after. by rewrite str_app_cons, <- Hs.
Qed.

(** X17.  The listener of the log stream of a step takes the white space off
    both ends of a chunk: the chunk is the trimmed text between two runs of
    white space, and the trimmed text neither starts nor ends with white
    space.  When the trimmed text has at least two characters the listener
    emits one log line, which is that text, tagged with the id of the step
    and with no status; when it has fewer, as for a chunk of white space
    only, the listener emits nothing. *)
Theorem stream_logs_trimmed_lines (step : TaskStep) (data : string) :
  (exists before after,
      data = before +:+ trim data +:+ after /\
      forallb is_white_space (list_ascii_of_string before) = true /\
      forallb is_white_space (list_ascii_of_string after) = true) /\
  (forall c, head (list_ascii_of_string (trim data)) = Some c -> is_white_space c = false) /\
  (forall c, last (list_ascii_of_string (trim data)) = Some c -> is_white_space c = false) /\
  (2 <= String.length (trim data) ->
   stream_on_data step data = [EvEmitLog (trim data) (Some (step_id step)) None]) /\
  (String.length (trim data) <= 1 -> stream_on_data step data = []) /\
  (forallb is_white_space (list_ascii_of_string data) = true -> stream_on_data step data = []) /\
  length (stream_on_data step data) <= 1 /\
  step_statuses (stream_on_data step data) = [].
Proof.
  unfold stream_on_data. cbn zeta. split_and!.
  - destruct (trim_start_split data) as (before & Hdata & Hbefore).
    destruct (trim_end_split (trim_start data)) as (after & Hstart & Hafter).
    exists before, after. split; [|done]. unfold trim. by rewrite <- Hstart.
  - intros c Hhead. destruct (trim data) as [|a r] eqn:Htrim; [done|].
    injection Hhead as <-. by eapply trim_head.
  - intros c. unfold trim. apply trim_end_last.
  - intros Hlen. rewrite bool_decide_eq_true_2; [done | lia].
  - intros Hlen. rewrite bool_decide_eq_false_2; [done | lia].
  - intros Hblank. unfold trim. by rewrite trim_start_blank.
  - case_bool_decide; simpl; lia.
  - by case_bool_decide.
Qed.

(** A progress dot between line ends is dropped, and a line is logged
    without the line end. *)
Example stream_on_data_chunks :
  stream_on_data Reference.fetch_step (String "010"%char ("." +:+ String "010"%char "")) = [] /\
  stream_on_data Reference.fetch_step ("  info: fetched " +:+ String "010"%char "")
  = [EvEmitLog "info: fetched" (Some "fetch") None].
Proof. split; reflexivity. Qed.

(** ** The rewrite of the expressions, line by line *)

Lemma starts_with_prefix (p s : string) : starts_with p s = String.prefix p s.
Proof.
  revert s. induction p as [|a p IH]; intros s; [by destruct s|].
  destruct s as [|b s]; [done|]. simpl.
  destruct (ascii_dec a b) as [->|Hne].
  - rewrite bool_decide_eq_true_2 by done. apply IH.
  - by rewrite bool_decide_eq_false_2.
Qed.

Lemma starts_with_length (p s : string) :
  starts_with p s = true -> String.length p <= String.length s.
Proof.
  revert s. induction p as [|a p IH]; intros s; simpl; [lia|].
  destruct s as [|b s]; [done|]. intros [_ Hs]%andb_true_iff. apply IH in Hs. simpl. lia.
Qed.

Lemma match_here_no_opening (s : string) : starts_with "${{" s = false -> match_here s = None.
Proof. unfold match_here. by intros ->. Qed.

(** X18.  A string in which [${{] does not occur is not changed by the
    [dump] rewrite. *)
Theorem wrap_dump_without_expression (s : string) :
  index 0 "${{" s = None -> wrap_dump s = s.
Proof.
  unfold wrap_dump. induction s as [|c s IH]; [done|].
  intros Hindex. cbn [index] in Hindex. rewrite <- starts_with_prefix in Hindex.
  destruct (starts_with "${{" (String c s)) eqn:Hstart; [done|].
  destruct (index 0 "${{" s) eqn:Hrest; [done|].
  cbn [replace_from]. rewrite match_here_no_opening by done. by rewrite IH.
Qed.

Lemma line_terminator_not_opening (c : ascii) :
  is_line_terminator c = true -> c <> "$"%char /\ c <> "{"%char.
Proof.
  unfold is_line_terminator. intros [Hc | Hc]%orb_true_iff;
    apply bool_decide_eq_true in Hc; by subst.
Qed.

Lemma starts_with_line (s b : string) (c : ascii) :
  is_line_terminator c = true ->
  starts_with "${{" (s +:+ String c b) = starts_with "${{" s.
Proof.
  intros [Hd Hb]%line_terminator_not_opening.
  destruct s as [|x1 [|x2 [|x3 s]]]; simpl;
    rewrite ?(bool_decide_eq_false_2 ("$"%char = c)), ?(bool_decide_eq_false_2 ("{"%char = c))
      by done;
    by repeat (destruct (bool_decide _)).
Qed.

Lemma line_prefix_line (u b : string) (c : ascii) :
  is_line_terminator c = true -> line_prefix (u +:+ String c b) = line_prefix u.
Proof.
  intros Hc. induction u as [|x u IH]; [simpl; by rewrite Hc|].
  rewrite str_app_cons. simpl. by rewrite IH.
Qed.

Lemma str_drop_app (s r : string) :
  starts_with "${{" s = true -> str_drop 3 (s +:+ r) = str_drop 3 s +:+ r.
Proof. destruct s as [|x1 [|x2 [|x3 s]]]; simpl; try done; by rewrite ?andb_false_r. Qed.

Lemma match_here_line (s b : string) (c : ascii) :
  is_line_terminator c = true -> match_here (s +:+ String c b) = match_here s.
Proof.
  intros Hc. unfold match_here. rewrite starts_with_line by done.
  destruct (starts_with "${{" s) eqn:Hstart; [|done].
  by rewrite str_drop_app, line_prefix_line.
Qed.

Lemma last_close_bounds (run : string) (idx k : nat) :
  last_close run idx = Some k -> idx <= k /\ k + 2 <= idx + String.length run.
Proof.
  revert idx. induction run as [|x run IH]; intros idx; [done|].
  cbn [last_close]. destruct (last_close run (S idx)) as [k'|] eqn:Hlater.
  - intros [= <-]. apply IH in Hlater. simpl. lia.
  - destruct (bool_decide (1 <= idx) && starts_with "}}" (String x run)) eqn:Hhere; [|done].
    intros [= <-]. apply andb_true_iff in Hhere as [_ Hhere].
    apply starts_with_length in Hhere. simpl in *. lia.
Qed.

Lemma str_take_length (k : nat) (s : string) :
  k <= String.length s -> String.length (str_take k s) = k.
Proof.
  revert k. induction s as [|x s IH]; intros [|k]; simpl; try done; try lia.
  intros Hk. rewrite IH; lia.
Qed.

Lemma line_prefix_length (s : string) : String.length (line_prefix s) <= String.length s.
Proof.
  induction s as [|x s IH]; simpl; [done|]. destruct (is_line_terminator x); simpl; lia.
Qed.

Lemma str_drop_length (s : string) :
  starts_with "${{" s = true -> String.length (str_drop 3 s) + 3 = String.length s.
Proof. destruct s as [|x1 [|x2 [|x3 s]]]; simpl; try done; rewrite ?andb_false_r; try done; lia. Qed.

Lemma match_here_length (s g : string) :
  match_here s = Some g -> String.length g + 5 <= String.length s.
Proof.
  unfold match_here. destruct (starts_with "${{" s) eqn:Hstart; [|done].
  pose proof (line_prefix_length (str_drop 3 s)) as Hrun.
  pose proof (str_drop_length s Hstart) as Hdrop.
  cbn zeta. set (run := line_prefix (str_drop 3 s)) in *.
  destruct (last_close run 0) as [k|] eqn:Hclose; [|done].
  intros [= <-]. apply last_close_bounds in Hclose as [_ Hk].
  rewrite str_take_length; lia.
Qed.

Lemma replace_from_line (a b : string) (c : ascii) (k : nat) :
  is_line_terminator c = true ->
  k <= String.length a ->
  replace_from k (a +:+ String c b) = replace_from k a +:+ String c (replace_from 0 b).
Proof.
  intros Hc. revert k. induction a as [|x a IH]; intros k Hk.
  - assert (k = 0) as -> by (simpl in Hk; lia).
    change ("" +:+ String c b) with (String c b). cbn [replace_from].
    rewrite match_here_no_opening; [done|].
    apply line_terminator_not_opening in Hc as [Hd _]. simpl.
    by rewrite (bool_decide_eq_false_2 ("$"%char = c)).
  - destruct k as [|k].
    + rewrite str_app_cons. cbn [replace_from]. rewrite <- str_app_cons, match_here_line by done.
      destruct (match_here (String x a)) as [g|] eqn:Hmatch.
      * apply match_here_length in Hmatch. rewrite IH by (simpl in Hmatch; lia).
        by rewrite !str_app_assoc.
      * rewrite IH by lia. by rewrite str_app_cons.
    + rewrite str_app_cons. cbn [replace_from]. apply IH. simpl in Hk. lia.
Qed.

(** X19.  The [dump] rewrite does not reach across a line end: a string of
    two parts with a line feed or a carriage return between them is
    rewritten part by part. *)
Theorem wrap_dump_line_by_line (a b : string) (c : ascii) :
  is_line_terminator c = true ->
  wrap_dump (a +:+ String c b) = wrap_dump a +:+ String c (wrap_dump b).
Proof. intros Hc. unfold wrap_dump. apply replace_from_line; [done | lia]. Qed.

Lemma wrap_dump_without_expression_witness :
  wrap_dump "name: demo }} {{ $ {" = "name: demo }} {{ $ {".
Proof. apply wrap_dump_without_expression. reflexivity. Defined.

Lemma wrap_dump_line_by_line_witness :
  wrap_dump ("a: ${{ x }}" +:+ String "010"%char "b: ${{ y }}")
  = wrap_dump "a: ${{ x }}" +:+ String "010"%char (wrap_dump "b: ${{ y }}").
Proof. apply wrap_dump_line_by_line. reflexivity. Defined.

Lemma successful_step_stores_its_outputs_witness :
  exists action,
    Reference.registry_get "fetch:plain" = Normal action /\
    ctx_steps Reference.after_fetch !! "fetch"
    = Some {| output :=
                collect_outputs
                  (run_outputs
                     (fst (action_handler action
                             (handler_args Reference.guarded_task Reference.workspace
                                (VObject [("url", VString "./skeleton")])) []))) |}.
Proof.
  destruct (successful_step_stores_its_outputs Reference.platform Reference.options
              Reference.guarded_task Reference.workspace Reference.fetch_step
              (initial_context Reference.guarded_task) []
              (handler_args Reference.guarded_task Reference.workspace
                 (VObject [("url", VString "./skeleton")]))
              Reference.after_fetch)
    as (action & Hget & Hentry & _).
  - left.
  - reflexivity.
  - exists action. split; [exact Hget | exact Hentry].
Defined.

(** ** The outputs of a handler *)

Lemma obj_set_assoc (name k : string) (value : Value) (kvs : list (string * Value)) :
  assoc k (obj_set name value kvs) = if bool_decide (k = name) then Some value else assoc k kvs.
Proof.
  induction kvs as [|[k0 x] kvs IH]; simpl.
  - rewrite (bool_decide_ext (name = k) (k = name)) by done. by case_bool_decide.
  - destruct (bool_decide (k0 = name)) eqn:Hk0; simpl.
    + apply bool_decide_eq_true in Hk0 as ->.
      rewrite (bool_decide_ext (name = k) (k = name)) by done. by case_bool_decide.
    + apply bool_decide_eq_false in Hk0. rewrite IH.
      repeat case_bool_decide; congruence.
Qed.

Lemma obj_set_keys (name : string) (value : Value) (kvs : list (string * Value)) :
  map fst (obj_set name value kvs)
  = if bool_decide (name ∈ map fst kvs) then map fst kvs else map fst kvs ++ [name].
Proof.
  induction kvs as [|[k0 x] kvs IH]; simpl; [done|].
  destruct (bool_decide (k0 = name)) eqn:Hk0; simpl.
  - apply bool_decide_eq_true in Hk0 as ->. rewrite bool_decide_eq_true_2; [done | by left].
  - apply bool_decide_eq_false in Hk0. rewrite IH.
    case_bool_decide as Hin.
    + rewrite bool_decide_eq_true_2; [done | by right].
    + rewrite bool_decide_eq_false_2; [done|].
      intros [Heq | Hin']%elem_of_cons; [congruence | done].
Qed.

Lemma obj_set_NoDup (name : string) (value : Value) (kvs : list (string * Value)) :
  NoDup (map fst kvs) -> NoDup (map fst (obj_set name value kvs)).
Proof.
  intros Hnd. rewrite obj_set_keys. case_bool_decide as Hin; [done|].
  apply NoDup_app. split_and!; [done | | apply NoDup_singleton].
  intros k Hk ->%list_elem_of_singleton. done.
Qed.

(** The object built by the calls of [output], from what it holds so far. *)
Lemma fold_outputs (calls : list (string * Value)) (acc : list (string * Value)) :
  let kvs := fold_left (fun acc call => obj_set (fst call) (snd call) acc) calls acc in
  (NoDup (map fst acc) -> NoDup (map fst kvs)) /\
  (forall name,
      assoc name kvs
      = match last (omap (fun call => if bool_decide (fst call = name)
                                      then Some (snd call) else None) calls) with
        | Some value => Some value
        | None => assoc name acc
        end) /\
  (forall name, name ∈ map fst kvs <-> name ∈ map fst acc \/ name ∈ map fst calls).
Proof.
  cbn zeta. revert acc. induction calls as [|[k v] calls IH]; intros acc.
  - simpl. split_and!; [done..|]. intros name. rewrite elem_of_nil. tauto.
  - simpl. destruct (IH (obj_set k v acc)) as (Hnd & Hassoc & Hkeys). split_and!.
    + intros Hacc. by apply Hnd, obj_set_NoDup.
    + intros name. rewrite Hassoc, obj_set_assoc.
      rewrite (bool_decide_ext (k = name) (name = k)) by done.
      case_bool_decide; [|done]. rewrite last_cons. by destruct (last _).
    + intros name. rewrite Hkeys, obj_set_keys, elem_of_cons.
      case_bool_decide as Hin.
      * split; [tauto|]. intros [? | [-> | ?]]; tauto.
      * rewrite elem_of_app, list_elem_of_singleton. tauto.
Qed.

(** X21.  The outputs of a step are an object with one property for each
    name that the handler called [output] with, holding the value of the last
    call with that name. *)
Theorem outputs_hold_the_last_value (calls : list (string * Value)) :
  exists kvs,
    collect_outputs calls = VObject kvs /\
    NoDup (map fst kvs) /\
    (forall name, name ∈ map fst kvs <-> name ∈ map fst calls) /\
    (forall name,
        assoc name kvs
        = last (omap (fun call => if bool_decide (fst call = name)
                                  then Some (snd call) else None) calls)).
Proof.
  eexists. split; [reflexivity|].
  destruct (fold_outputs calls []) as (Hnd & Hassoc & Hkeys). split_and!.
  - apply Hnd. constructor.
  - intros name. rewrite Hkeys. simpl. rewrite elem_of_nil. tauto.
  - intros name. rewrite Hassoc. by destruct (last _).
Qed.

Example outputs_written_twice :
  collect_outputs [("url", VString "a"); ("id", VNumber 1); ("url", VString "b")]
  = VObject [("url", VString "b"); ("id", VNumber 1)].
Proof. reflexivity. Qed.

(** * Paging through Bitbucket *)

Section PageIteratorFacts.
Context {World : Type}.
Variable request :
  Bitbucket.ListOptions -> World -> Completion Bitbucket.PagedResponse * World * list string.

Import Bitbucket.

Lemma get_set_prop (key k : string) (value : option Z) (o : ListOptions) :
  get_prop k (set_prop key value o) = if bool_decide (k = key) then value else get_prop k o.
Proof.
  induction o as [|[k0 v] o IH]; simpl.
  - rewrite (bool_decide_ext (key = k) (k = key)) by done. by case_bool_decide.
  - destruct (bool_decide (k0 = key)) eqn:Hk0; simpl.
    + apply bool_decide_eq_true in Hk0 as ->.
      rewrite (bool_decide_ext (key = k) (k = key)) by done. by case_bool_decide.
    + apply bool_decide_eq_false in Hk0. rewrite IH.
      repeat case_bool_decide; congruence.
Qed.

Lemma object_at_insert (h : Heap) (a : nat) (o : ListOptions) :
  object_at (<[a := o]> h) a = o.
Proof. unfold object_at. by rewrite lookup_insert_eq. Qed.

(** X22.  An iterator made for an options object works on that object and
    not on a copy: a call of [next] that gets a page assigns the page's
    [nextPageStart] to the [start] of the caller's object, leaving its other
    properties and all other objects alone, and an iterator made afterwards
    for the same object makes its first request with the object as the
    earlier iterator left it. *)
Theorem next_advances_the_shared_options (a : nat) (h : Heap) (w w' : World)
    (response : PagedResponse) (urls : list string) :
  request (object_at h a) w = (Normal response, w', urls) ->
  exists it' h',
    next request (fst (asyncIterator (Some a) h)) h w
    = (Resolved (Some response) false, it', h', w', urls) /\
    it_finished it' = isLastPage response /\
    get_prop "start" (object_at h' a) = nextPageStart response /\
    (forall key, key <> "start" ->
                 get_prop key (object_at h' a) = get_prop key (object_at h a)) /\
    (forall b, b <> a -> h' !! b = h !! b) /\
    asyncIterator (Some a) h' = ({| it_opts := a; it_finished := false |}, h') /\
    forall w2,
      snd (next request (fst (asyncIterator (Some a) h')) h' w2)
      = snd (request (set_prop "start" (nextPageStart response) (object_at h a)) w2).
Proof.
  intros Hpage. do 2 eexists. split_and!.
  - unfold next. simpl. rewrite Hpage. reflexivity.
  - done.
  - by rewrite object_at_insert, get_set_prop.
  - intros key Hkey. rewrite object_at_insert, get_set_prop. by rewrite bool_decide_eq_false_2.
  - intros b Hb. by rewrite lookup_insert_ne.
  - done.
  - intros w2. unfold next. simpl. rewrite object_at_insert.
    by destruct (request _ w2) as [[[r|e] w3] u].
Qed.

(** X23.  The last page is delivered like every other page, with [done]
    false; it is the call of [next] after it that reports [done], without a
    request, and that call rewinds the iterator: [start] is set to 0,
    whatever the options began with, the other properties stay, and the
    iterator is no longer finished. *)
Theorem done_follows_the_last_page (it : Iterator) (h : Heap) (w w' : World)
    (response : PagedResponse) (urls : list string) :
  it_finished it = false ->
  request (object_at h (it_opts it)) w = (Normal response, w', urls) ->
  isLastPage response = true ->
  exists it1 h1 it2 h2,
    next request it h w = (Resolved (Some response) false, it1, h1, w', urls) /\
    next request it1 h1 w' = (Resolved None true, it2, h2, w', []) /\
    it2 = {| it_opts := it_opts it; it_finished := false |} /\
    get_prop "start" (object_at h2 (it_opts it)) = Some 0%Z /\
    (forall key, key <> "start" ->
                 get_prop key (object_at h2 (it_opts it)) = get_prop key (object_at h (it_opts it))).
Proof.
  intros Hfresh Hpage Hlast. do 4 eexists. split_and!.
  - unfold next. rewrite Hfresh. simpl. rewrite Hpage. reflexivity.
  - unfold next. simpl. rewrite Hlast. reflexivity.
  - done.
  - by rewrite object_at_insert, get_set_prop.
  - intros key Hkey. rewrite !object_at_insert, !get_set_prop.
    by rewrite bool_decide_eq_false_2.
Qed.

End PageIteratorFacts.

Section ClientFacts.
Context {World : Type}.
Variable http : Bitbucket.Http World.
Variable apiBaseUrl : string.

Import Bitbucket.

(** X24.  The search parameters of a request are the properties of the
    options that hold a number other than zero, in the order of the object,
    each with the text that JavaScript makes of its number, and nothing else:
    a property that holds zero or [undefined] is not sent, and every other
    one is.  [pagedRequest] fetches the endpoint with exactly these
    parameters; so an iterator made without options, whose object is
    [{ start: 0 }], makes its first request to the bare endpoint. *)
Theorem only_nonzero_options_are_sent (o : ListOptions) (endpoint : string) (h : Heap)
    (w : World) :
  query_of http (Some o)
  = map (fun kv => (fst kv, Number_toString http (default 0%Z (snd kv))))
      (filter (fun kv => snd kv <> None /\ snd kv <> Some 0%Z) o) /\
  (forall key text,
      (key, text) ∈ query_of http (Some o) <->
      exists n, n <> 0%Z /\ (key, Some n) ∈ o /\ text = Number_toString http n) /\
  query_of http None = [] /\
  (forall options,
      URL_invalid http endpoint = None ->
      snd (pagedRequest http endpoint options w)
      = [URL_toString http endpoint (query_of http options)]) /\
  query_of http (Some [("start", Some 0%Z)]) = [] /\
  (URL_invalid http (apiBaseUrl +:+ "/projects") = None ->
   snd (next (fun o => listProjects http apiBaseUrl (Some o))
          (fst (asyncIterator None h)) (snd (asyncIterator None h)) w)
   = [URL_toString http (apiBaseUrl +:+ "/projects") []]).
Proof.
  split_and!.
  - unfold query_of. induction o as [|[k [n|]] o IH]; [done|..].
    + cbn [omap list_omap snd fst filter list_filter].
      destruct (decide (n = 0%Z)) as [-> | Hn].
      * rewrite bool_decide_eq_true_2 by done.
        rewrite decide_False by (intros [_ Hz]; by apply Hz). apply IH.
      * rewrite bool_decide_eq_false_2 by done.
        rewrite decide_True by (split; congruence). rewrite IH. reflexivity.
    + cbn [omap list_omap snd fst filter list_filter].
      rewrite decide_False by (intros [Hnone _]; by apply Hnone). apply IH.
  - intros key text. unfold query_of. rewrite list_elem_of_omap. split.
    + intros ([k0 [n|]] & Hin & Hsome); simpl in Hsome; [|done].
      case_bool_decide as Hn; [done|]. injection Hsome as -> <-. by exists n.
    + intros (n & Hn & Hin & ->). exists (key, Some n). split; [done|]. simpl.
      by rewrite bool_decide_eq_false_2.
  - reflexivity.
  - intros options Hurl. unfold pagedRequest. rewrite Hurl.
    destruct (fetch http _ w) as [[response|err] w']; [|done].
    by destruct (ok response).
  - reflexivity.
  - intros Hurl. unfold next, listProjects, pagedRequest. simpl.
    rewrite object_at_insert, Hurl. simpl.
    destruct (fetch http _ w) as [[response|err] w']; [|done].
    by destruct (ok response), (json response).
Qed.

(** X25.  When the server answers a request for a page with a response that
    is not [ok], [next] rejects with an [Error] whose message holds the URL,
    the status and the status text; the body of the response is not read,
    and the iterator and the options are as before the call, so that calling
    [next] again makes the same request. *)
Theorem failed_request_rejects_and_keeps_the_state (it : Iterator) (h : Heap) (w w' : World)
    (response : Response) :
  it_finished it = false ->
  URL_invalid http (apiBaseUrl +:+ "/projects") = None ->
  fetch http (URL_toString http (apiBaseUrl +:+ "/projects")
                (query_of http (Some (object_at h (it_opts it))))) w
  = (Normal response, w') ->
  ok response = false ->
  next (fun o => listProjects http apiBaseUrl (Some o)) it h w
  = (Rejected
       (MkExn "Error"
          ("Unexpected response when fetching "
           +:+ URL_toString http (apiBaseUrl +:+ "/projects")
                 (query_of http (Some (object_at h (it_opts it))))
           +:+ ". Expected 200 but got " +:+ Number_toString http (status response)
           +:+ " - " +:+ statusText response)),
     it, h, w',
     [URL_toString http (apiBaseUrl +:+ "/projects")
        (query_of http (Some (object_at h (it_opts it))))]).
Proof.
  intros Hfresh Hurl Hfetch Hok.
  unfold next, listProjects, pagedRequest. rewrite Hfresh. cbn [negb].
  by rewrite Hurl, Hfetch, Hok.
Qed.

End ClientFacts.

(** *** On the server with three projects *)

Lemma next_advances_the_shared_options_witness :
  exists it' h',
    Bitbucket.next Bitbucket.projects
      (fst (Bitbucket.asyncIterator (Some 0) {[0 := [("limit", Some 2%Z)]]}))
      {[0 := [("limit", Some 2%Z)]]} []
    = (Bitbucket.Resolved (Some (Bitbucket.page 0)) false, it', h', 
       ["https://bitbucket.example/rest/api/1.0/projects?limit=2"],
       ["https://bitbucket.example/rest/api/1.0/projects?limit=2"]) /\
    Bitbucket.get_prop "start" (Bitbucket.object_at h' 0) = Some 2%Z /\
    Bitbucket.get_prop "limit" (Bitbucket.object_at h' 0) = Some 2%Z.
Proof.
  destruct (next_advances_the_shared_options Bitbucket.projects 0
              {[0 := [("limit", Some 2%Z)]]} []
              ["https://bitbucket.example/rest/api/1.0/projects?limit=2"]
              (Bitbucket.page 0)
              ["https://bitbucket.example/rest/api/1.0/projects?limit=2"])
    as (it' & h' & Hnext & _ & Hstart & Hother & _).
  - reflexivity.
  - exists it', h'. split; [exact Hnext|]. split; [exact Hstart|].
    rewrite Hother; [reflexivity | discriminate].
Defined.

Lemma done_follows_the_last_page_witness :
  exists it1 h1 it2 h2,
    Bitbucket.next Bitbucket.projects {| Bitbucket.it_opts := 0; Bitbucket.it_finished := false |}
      {[0 := [("start", Some 2%Z)]]} []
    = (Bitbucket.Resolved (Some (Bitbucket.page 2)) false, it1, h1,
       ["https://bitbucket.example/rest/api/1.0/projects?start=2"],
       ["https://bitbucket.example/rest/api/1.0/projects?start=2"]) /\
    Bitbucket.next Bitbucket.projects it1 h1
      ["https://bitbucket.example/rest/api/1.0/projects?start=2"]
    = (Bitbucket.Resolved None true, it2, h2,
       ["https://bitbucket.example/rest/api/1.0/projects?start=2"], []) /\
    Bitbucket.get_prop "start" (Bitbucket.object_at h2 0) = Some 0%Z.
Proof.
  destruct (done_follows_the_last_page Bitbucket.projects
              {| Bitbucket.it_opts := 0; Bitbucket.it_finished := false |}
              {[0 := [("start", Some 2%Z)]]} []
              ["https://bitbucket.example/rest/api/1.0/projects?start=2"]
              (Bitbucket.page 2)
              ["https://bitbucket.example/rest/api/1.0/projects?start=2"])
    as (it1 & h1 & it2 & h2 & Hfirst & Hsecond & _ & Hstart & _).
  - reflexivity.
  - reflexivity.
  - reflexivity.
  - exists it1, h1, it2, h2. split; [exact Hfirst|]. split; [exact Hsecond | exact Hstart].
Defined.

Lemma failed_request_rejects_and_keeps_the_state_witness :
  Bitbucket.next (fun o => Bitbucket.listProjects Bitbucket.server
                             "https://bitbucket.example/rest/api/1.0" (Some o))
    {| Bitbucket.it_opts := 0; Bitbucket.it_finished := false |}
    {[0 := [("limit", Some 500%Z)]]} []
  = (Bitbucket.Rejected
       (MkExn "Error"
          ("Unexpected response when fetching "
           +:+ "https://bitbucket.example/rest/api/1.0/projects?limit=500"
           +:+ ". Expected 200 but got " +:+ "503" +:+ " - " +:+ "Service Unavailable")),
     {| Bitbucket.it_opts := 0; Bitbucket.it_finished := false |},
     {[0 := [("limit", Some 500%Z)]]},
     ["https://bitbucket.example/rest/api/1.0/projects?limit=500"],
     ["https://bitbucket.example/rest/api/1.0/projects?limit=500"]).
Proof.
  etransitivity.
  - apply (failed_request_rejects_and_keeps_the_state Bitbucket.server
           "https://bitbucket.example/rest/api/1.0"
           {| Bitbucket.it_opts := 0; Bitbucket.it_finished := false |}
           {[0 := [("limit", Some 500%Z)]]} []
           ["https://bitbucket.example/rest/api/1.0/projects?limit=500"]
           {| Bitbucket.ok := false; Bitbucket.status := 503;
              Bitbucket.statusText := "Service Unavailable";
              Bitbucket.json := Throw (SyntaxError "Unexpected token < in JSON at position 0") |});
      vm_compute; reflexivity.
  - vm_compute. reflexivity.
Defined.

(** * The version finders *)

Lemma truthy_Some (x : option string) (v : string) :
  Versions.truthy x = Some v <-> x = Some v /\ v <> "".
Proof.
  unfold Versions.truthy. destruct x as [s|]; [|by split; [|intros []]].
  case_bool_decide as Hs.
  - split; [done|]. intros [[= ->] Hne]. done.
  - split; [by intros [= ->] | by intros [[= ->] _]].
Qed.

Lemma fold_packages (l : list Versions.ManifestPackage) (m : gmap string string)
    (packageName : string) :
  fold_left (fun m p => <[Versions.name p := Versions.version p]> m) l m !! packageName
  = match last (omap (fun p => if bool_decide (Versions.name p = packageName)
                               then Some (Versions.version p) else None) l) with
    | Some v => Some v
    | None => m !! packageName
    end.
Proof.
  revert m. induction l as [|p l IH]; intros m; [done|].
  simpl. rewrite IH. case_bool_decide as Hp.
  - rewrite last_cons. destruct (last _); [done|]. subst. by rewrite lookup_insert_eq.
  - destruct (last _); [done|]. by rewrite lookup_insert_ne.
Qed.

(** X26.  The strict finder answers from the release manifest alone: it
    logs one line and returns the version of the last entry of the manifest
    for the package, when there is such an entry and its version is not
    empty; in every other case it throws a [NotFoundError] that names the
    package. *)
Theorem strict_finder_reads_the_last_entry (releaseManifest : Versions.ReleaseManifest)
    (packageName : string) :
  exists r,
    Versions.strictFindTargetVersion releaseManifest packageName
    = (r, [Versions.ConsoleLog ("Checking for updates of " +:+ packageName)]) /\
    (forall v,
        r = Normal v <->
        last (omap (fun p => if bool_decide (Versions.name p = packageName)
                             then Some (Versions.version p) else None)
                (Versions.packages releaseManifest)) = Some v /\ v <> "") /\
    (forall err,
        r = Throw err ->
        err = MkExn "NotFoundError"
                ("Package " +:+ packageName +:+ " not found in release manifest")).
Proof.
  unfold Versions.strictFindTargetVersion, Versions.releasePackages.
  eexists. split; [reflexivity|].
  destruct (Versions.truthy _) as [v0|] eqn:Hv.
  - apply truthy_Some in Hv as [Hv Hne]. rewrite fold_packages, lookup_empty in Hv.
    split; [|done]. intros v. split.
    + intros [= <-]. split; [|done]. by destruct (last _).
    + intros [Hlast _]. rewrite Hlast in Hv. by injection Hv as ->.
  - split; [|by intros err [= <-]]. intros v. split; [done|].
    intros [Hlast Hne]. assert (Versions.truthy (Some v) = None) as Hnone.
    { rewrite <- Hv. f_equal. by rewrite fold_packages, Hlast. }
    simpl in Hnone. by rewrite bool_decide_eq_false_2 in Hnone.
Qed.

Section VersionFinderFacts.
Context {World : Type}.
Variable releaseLine : option string.
Variable packageInfoFetcher :
  string -> World -> Completion Versions.YarnInfoInspectData * World.
Variable releaseManifest : Versions.ReleaseManifest.
Variable Date_getTime : string -> option Z.

Local Abbreviation findTargetVersion :=
  (Versions.findTargetVersion releaseLine packageInfoFetcher releaseManifest Date_getTime).
Local Abbreviation after_lookups :=
  (Versions.after_lookups releaseLine packageInfoFetcher releaseManifest Date_getTime).
Local Abbreviation in_manifest packageName :=
  (Versions.truthy (Versions.releasePackages releaseManifest !! packageName)).

(** What a call does to [found]: nothing, unless it returns a version for
    a package that is neither in [found] nor in the manifest, which it
    stores. *)
Lemma find_found (packageName : string) (found : gmap string string) (w : World) :
  let '(r, found', _, _) := findTargetVersion packageName found w in
  match r with
  | Normal v =>
      v <> "" /\
      (Versions.truthy (found !! packageName) = Some v /\ found' = found \/
       Versions.truthy (found !! packageName) = None /\ in_manifest packageName = Some v /\
       found' = found \/
       Versions.truthy (found !! packageName) = None /\ in_manifest packageName = None /\
       found' = <[packageName := v]> found)
  | Throw _ => found' = found
  end.
Proof.
  unfold Versions.findTargetVersion.
  destruct (Versions.truthy (found !! packageName)) as [existing|] eqn:Hfound.
  { split; [by apply truthy_Some in Hfound as [_ ?] | by left]. }
  destruct (Versions.truthy (Versions.releasePackages releaseManifest !! packageName))
    as [manifestVersion|] eqn:Hmanifest.
  { split; [by apply truthy_Some in Hmanifest as [_ ?] | right; by left]. }
  destruct (packageInfoFetcher packageName w) as [[info|err] w']; [|done].
  destruct (Versions.truthy (Versions.dist_tags info !! "latest")) as [latestVersion|] eqn:Hl;
    [|done].
  apply truthy_Some in Hl as [_ Hl].
  destruct (if bool_decide (Versions.distTag releaseLine = "latest") then None
            else Versions.truthy (Versions.dist_tags info !! Versions.distTag releaseLine))
    as [taggedVersion|] eqn:Ht.
  2: { split; [done | right; by right]. }
  assert (taggedVersion <> "") as Hne.
  { case_bool_decide; [done|]. by apply truthy_Some in Ht as [_ Ht]. }
  destruct (Versions.truthy (Versions.time info !! latestVersion)); [|done].
  destruct (Versions.truthy (Versions.time info !! taggedVersion)); [|done].
  destruct (Versions.greater _ _); (split; [done | right; by right]).
Qed.

Lemma after_lookups_invariant (Inv : gmap string string -> Prop) (names : list string) :
  (forall packageName found w,
      Inv found -> Inv (snd (fst (fst (findTargetVersion packageName found w))))) ->
  forall found w, Inv found -> Inv (fst (after_lookups names found w)).
Proof.
  intros Hstep. induction names as [|packageName names IH]; intros found w Hinv; [done|].
  simpl. specialize (Hstep packageName found w Hinv).
  destruct (findTargetVersion packageName found w) as [[[r found'] w'] events].
  by apply IH.
Qed.

(** X27.  A package that the release manifest lists with a version is
    bumped to that version whenever the finder is asked, whatever the
    release line and whatever was looked up before: the finder, made with an
    empty [found], returns the manifest's version after logging one line,
    fetches nothing and leaves [found] as it is. *)
Theorem manifest_version_wins (names : list string) (w : World) (packageName v : string) :
  in_manifest packageName = Some v ->
  findTargetVersion packageName (fst (after_lookups names ∅ w)) (snd (after_lookups names ∅ w))
  = (Normal v, fst (after_lookups names ∅ w), snd (after_lookups names ∅ w),
     [Versions.ConsoleLog ("Checking for updates of " +:+ packageName)]).
Proof.
  intros Hmanifest.
  assert (Hfree : forall n, in_manifest n <> None ->
                            Versions.truthy (fst (after_lookups names ∅ w) !! n) = None).
  { apply (after_lookups_invariant
             (fun found => forall n, in_manifest n <> None ->
                                     Versions.truthy (found !! n) = None)).
    - intros p found w0 Hinv n Hn.
      pose proof (find_found p found w0) as Hstep.
      destruct (findTargetVersion p found w0) as [[[[v'|err] found'] w'] events];
        cbn [fst snd]; [|subst; by apply Hinv].
      destruct Hstep as [_ [[_ ->] | [(_ & _ & ->) | (_ & Hp & ->)]]]; [by apply Hinv..|].
      rewrite lookup_insert_ne; [by apply Hinv | congruence].
    - intros n _. by rewrite lookup_empty. }
  unfold Versions.findTargetVersion. rewrite Hfree by congruence. by rewrite Hmanifest.
Qed.

(** X28.  A version that the finder returned for a package is not empty,
    and it is what the finder returns for that package from then on,
    whatever it is asked in between and whatever the registry answers by
    then, without fetching the package again. *)
Theorem found_version_is_kept (packageName v : string) (found : gmap string string) (w : World)
    (names : list string) (w1 : World) :
  fst (fst (fst (findTargetVersion packageName found w))) = Normal v ->
  v <> "" /\
  (let found1 := snd (fst (fst (findTargetVersion packageName found w))) in
   let later := findTargetVersion packageName (fst (after_lookups names found1 w1))
                  (snd (after_lookups names found1 w1)) in
   fst (fst (fst later)) = Normal v /\
   (Versions.FetchInfo packageName ∉ snd later) /\
   snd (fst later) = snd (after_lookups names found1 w1)).
Proof.
  intros Hfirst. cbn zeta.
  set (found1 := snd (fst (fst (findTargetVersion packageName found w)))).
  assert (Hheld : v <> "" /\
                  (Versions.truthy (found1 !! packageName) = Some v \/
                   Versions.truthy (found1 !! packageName) = None /\
                   in_manifest packageName = Some v)).
  { subst found1. pose proof (find_found packageName found w) as Hstep.
    destruct (findTargetVersion packageName found w) as [[[r found'] w'] events].
    cbn [fst snd] in *. subst r.
    destruct Hstep as [Hne [[Hc ->] | [(Hc & Hm & ->) | (_ & _ & ->)]]];
      (split; [done|]); [by left | by right | left].
    rewrite lookup_insert_eq. simpl. by rewrite bool_decide_eq_false_2. }
  destruct Hheld as [Hne Hheld]. split; [done|].
  assert (Hlater : Versions.truthy (fst (after_lookups names found1 w1) !! packageName) = Some v \/
                   Versions.truthy (fst (after_lookups names found1 w1) !! packageName) = None /\
                   in_manifest packageName = Some v).
  { apply (after_lookups_invariant
             (fun f => Versions.truthy (f !! packageName) = Some v \/
                       Versions.truthy (f !! packageName) = None /\
                       in_manifest packageName = Some v)); [|done].
    intros p f w0 Hinv. pose proof (find_found p f w0) as Hstep.
    destruct (findTargetVersion p f w0) as [[[[v'|err] f'] w'] events];
      cbn [fst snd]; [|by subst].
    destruct Hstep as [_ [[_ ->] | [(_ & _ & ->) | (Hfp & Hmp & ->)]]]; [done..|].
    destruct (decide (p = packageName)) as [->|Hp].
    - destruct Hinv as [Hc | [_ Hm]]; congruence.
    - by rewrite lookup_insert_ne. }
  unfold Versions.findTargetVersion.
  destruct Hlater as [-> | [-> ->]]; cbn [fst snd]; split_and!; try done.
  - apply not_elem_of_nil.
  - intros Hin. apply list_elem_of_singleton in Hin. discriminate Hin.
Qed.

(** X29.  For a package that is neither in [found] nor in the manifest, and
    a release line other than [latest] and [main] for which the registry has
    a tagged version besides the latest one, both with a release time, the
    finder returns one of the two and remembers it: the latest version when
    it was released after the tagged one, and the tagged version otherwise,
    also when the two times are equal or when one of them is no date. *)
Theorem tagged_version_unless_latest_is_newer (packageName : string)
    (found : gmap string string) (w w' : World) (info : Versions.YarnInfoInspectData)
    (latestVersion taggedVersion latestDate taggedDate : string) :
  Versions.truthy (found !! packageName) = None ->
  in_manifest packageName = None ->
  packageInfoFetcher packageName w = (Normal info, w') ->
  Versions.truthy (Versions.dist_tags info !! "latest") = Some latestVersion ->
  Versions.distTag releaseLine <> "latest" ->
  Versions.truthy (Versions.dist_tags info !! Versions.distTag releaseLine)
  = Some taggedVersion ->
  Versions.truthy (Versions.time info !! latestVersion) = Some latestDate ->
  Versions.truthy (Versions.time info !! taggedVersion) = Some taggedDate ->
  exists v,
    findTargetVersion packageName found w
    = (Normal v, <[packageName := v]> found, w',
       [Versions.ConsoleLog ("Checking for updates of " +:+ packageName);
        Versions.FetchInfo packageName]) /\
    (v = latestVersion \/ v = taggedVersion) /\
    (forall a b, Date_getTime latestDate = Some a -> Date_getTime taggedDate = Some b ->
                 ((b < a)%Z -> v = latestVersion) /\ ((a <= b)%Z -> v = taggedVersion)) /\
    (Date_getTime latestDate = None \/ Date_getTime taggedDate = None -> v = taggedVersion).
Proof.
  intros Hfound Hmanifest Hfetch Hlatest Htag Htagged Hldate Htdate.
  unfold Versions.findTargetVersion.
  rewrite Hfound, Hmanifest, Hfetch, Hlatest, bool_decide_eq_false_2, Htagged, Hldate, Htdate
    by done.
  destruct (Date_getTime latestDate) as [a|], (Date_getTime taggedDate) as [b|]; simpl.
  1: case_bool_decide.
  all: eexists; split; [reflexivity|]; split_and!; auto.
  all: try (intros a' b' [= <-] [= <-]; split; intros; [done | lia]).
  all: try (intros a' b' [= <-] [= <-]; split; intros; [lia | done]).
  all: try done.
  all: intros [? | ?]; done.
Qed.

End VersionFinderFacts.

(** *** On the manifest and the registry *)

Lemma manifest_version_wins_witness :
  Versions.findTargetVersion (Some "next") Versions.registry Versions.manifest Versions.millis
    "@backstage/core"
    (fst (Versions.after_lookups (Some "next") Versions.registry Versions.manifest
            Versions.millis ["left-pad"; "@backstage/core"] ∅ []))
    (snd (Versions.after_lookups (Some "next") Versions.registry Versions.manifest
            Versions.millis ["left-pad"; "@backstage/core"] ∅ []))
  = (Normal "1.0.1",
     fst (Versions.after_lookups (Some "next") Versions.registry Versions.manifest
            Versions.millis ["left-pad"; "@backstage/core"] ∅ []),
     snd (Versions.after_lookups (Some "next") Versions.registry Versions.manifest
            Versions.millis ["left-pad"; "@backstage/core"] ∅ []),
     [Versions.ConsoleLog ("Checking for updates of " +:+ "@backstage/core")]).
Proof.
  apply (manifest_version_wins (Some "next") Versions.registry Versions.manifest
           Versions.millis ["left-pad"; "@backstage/core"] [] "@backstage/core" "1.0.1").
  reflexivity.
Defined.

Lemma found_version_is_kept_witness :
  "2.2.0-next.1" <> "" /\
  fst (fst (fst (Versions.findTargetVersion (Some "next") Versions.registry Versions.manifest
                   Versions.millis "left-pad"
                   (fst (Versions.after_lookups (Some "next") Versions.registry
                           Versions.manifest Versions.millis ["@backstage/cli"; "is-odd"]
                           {["left-pad" := "2.2.0-next.1"]} ["left-pad"]))
                   (snd (Versions.after_lookups (Some "next") Versions.registry
                           Versions.manifest Versions.millis ["@backstage/cli"; "is-odd"]
                           {["left-pad" := "2.2.0-next.1"]} ["left-pad"])))))
  = Normal "2.2.0-next.1".
Proof.
  destruct (found_version_is_kept (Some "next") Versions.registry Versions.manifest
              Versions.millis "left-pad" "2.2.0-next.1" ∅ [] ["@backstage/cli"; "is-odd"]
              ["left-pad"])
    as (Hne & Hlater & _).
  - reflexivity.
  - split; [exact Hne | exact Hlater].
Defined.

Lemma tagged_version_unless_latest_is_newer_witness :
  exists v,
    Versions.findTargetVersion (Some "next") Versions.registry Versions.manifest Versions.millis
      "left-pad" ∅ []
    = (Normal v, <["left-pad" := v]> ∅, ["left-pad"],
       [Versions.ConsoleLog ("Checking for updates of " +:+ "left-pad");
        Versions.FetchInfo "left-pad"]) /\
    (v = "2.1.0" \/ v = "2.2.0-next.1").
Proof.
  destruct (tagged_version_unless_latest_is_newer (Some "next") Versions.registry
              Versions.manifest Versions.millis "left-pad" ∅ [] ["left-pad"]
              {| Versions.dist_tags := {["latest" := "2.1.0"; "next" := "2.2.0-next.1"]};
                 Versions.time := {["2.1.0" := "1650000000000";
                                    "2.2.0-next.1" := "1651000000000"]} |}
              "2.1.0" "2.2.0-next.1" "1650000000000" "1651000000000")
    as (v & Hfind & Hone & _).
  - reflexivity.
  - reflexivity.
  - reflexivity.
  - reflexivity.
  - discriminate.
  - reflexivity.
  - reflexivity.
  - reflexivity.
  - exists v. split; [exact Hfind | exact Hone].
Defined.

(** The tagged version is the newer one here, and is what is found. *)
Example next_release_line :
  fst (fst (fst (Versions.findTargetVersion (Some "next") Versions.registry Versions.manifest
                   Versions.millis "left-pad" ∅ []))) = Normal "2.2.0-next.1" /\
  fst (fst (fst (Versions.findTargetVersion (Some "main") Versions.registry Versions.manifest
                   Versions.millis "left-pad" ∅ []))) = Normal "2.1.0".
Proof. split; reflexivity. Qed.

(** *** A step with the condition [false], on the reference platform *)

Lemma falsy_literal_condition_runs_the_step_witness :
  registry_gets
    (snd (run_step Reference.platform Reference.options Reference.guarded_task
            Reference.workspace
            (Reference.step "fetch" "fetch:plain" (VObject []) (VBool false))
            (initial_context Reference.guarded_task) []))
  = ["fetch:plain"] /\
  Forall (fun x => fst x = SiteInput "fetch")
    (renders
       (snd (run_step Reference.platform Reference.options Reference.guarded_task
               Reference.workspace
               (Reference.step "fetch" "fetch:plain" (VObject []) (VBool false))
               (initial_context Reference.guarded_task) []))).
Proof.
  apply (falsy_literal_condition_runs_the_step Reference.platform Reference.options
           Reference.guarded_task Reference.workspace
           (Reference.step "fetch" "fetch:plain" (VObject []) (VBool false))
           (initial_context Reference.guarded_task) []).
  reflexivity.
Defined.
